(** * The machined sequence controller (package v1alpha1)

    A shallow embedding of [v1alpha1_controller.go]: the single-flight lock
    ([TryLock], [Unlock]), the planner dispatch ([phases]), the serial phase
    loop ([run]), the task fan-out of one phase ([runPhase], [runTask]), the
    entry point [Run] and the event listener [ListenForEvents].

    Conventions of the embedding.
    - A Go [error] value is an [option error]: [None] is [nil].
    - Stateful code is written in a state monad [M] over a [Machine]: the
      controller (with its [semaphore]), the lines written with
      [log.Printf], and the machine the tasks act on.
    - Elapsed times printed in log lines are left out of the lines.
    - The goroutines of a phase are modelled at two grains.  In [runPhase],
      which [run] calls, each goroutine runs in one piece and a scheduling
      oracle picks the order in which they do; every order is picked by some
      oracle.  In [runPhase_interleaved] the oracle picks, step by step, the
      goroutine that goes from one statement of its closure to the next, so
      that log lines and tasks of different goroutines interleave.  The
      first is the second under the oracles that never interrupt a
      goroutine.  A task itself is one step. *)

From Stdlib Require Import ZArith String Ascii List Bool Lia PeanoNat.
From Stdlib Require Import Permutation DecimalString.
From Stdlib Require DecimalNat DecimalFacts.
Import ListNotations.

Local Open Scope string_scope.
Local Open Scope list_scope.

(** ** Formatting *)

(** [%d] of [fmt] for a non-negative [int]. *)
Definition itoa (n : nat) : string := NilZero.string_of_uint (Nat.to_uint n).

(** [fmt.Sprintf("%d/%d", number, total)]. *)
Definition Sprintf_progress (number total : nat) : string :=
  itoa number ++ "/" ++ itoa total.

(** ** Errors *)

(** The error values the controller returns or wraps.  The three sentinels
    are those of package [runtime]; [errors_New] stands for an error made
    by a task or by a collaborator; the two [Errorf] constructors are the
    two [fmt.Errorf] calls with [%w] of [run] and [runPhase]. *)
Inductive error : Type :=
| ErrUndefinedRuntime
| ErrLocked
| ErrInvalidSequenceData
| errors_New (msg : string)
| Errorf_phase (number : nat) (name : string) (cause : error)
| Errorf_task (progress : string) (cause : error).

(** Modelled from the spec: the message texts of the three sentinel errors
    of package [runtime], whose declarations are not part of the sources;
    the texts follow the names of the error kinds. *)
Definition sentinel_text (e : error) : string :=
  match e with
  | ErrUndefinedRuntime => "undefined runtime"
  | ErrLocked => "locked"
  | ErrInvalidSequenceData => "invalid sequence data"
  | _ => ""
  end.

(** [err.Error()]. *)
Fixpoint Error (e : error) : string :=
  match e with
  | errors_New msg => msg
  | Errorf_phase number name cause =>
      "error running phase " ++ itoa number ++ " in " ++ name
        ++ " sequence: " ++ Error cause
  | Errorf_task progress cause =>
      "task " ++ progress ++ ": failed, " ++ Error cause
  | _ => sentinel_text e
  end.

(** [errors.Unwrap(err)]. *)
Definition Unwrap (e : error) : option error :=
  match e with
  | Errorf_phase _ _ cause | Errorf_task _ cause => Some cause
  | _ => None
  end.

(** ** Sequences *)

(** Modelled from the spec: [runtime.Sequence] is an integer type declared
    in package [runtime], outside the sources; its seven constants are
    numbered here in the order in which the spec lists them. *)
Definition Sequence : Type := Z.

Definition SequenceBoot : Sequence := 0%Z.
Definition SequenceInitialize : Sequence := 1%Z.
Definition SequenceInstall : Sequence := 2%Z.
Definition SequenceShutdown : Sequence := 3%Z.
Definition SequenceReboot : Sequence := 4%Z.
Definition SequenceUpgrade : Sequence := 5%Z.
Definition SequenceReset : Sequence := 6%Z.

Definition enumerated (seq : Sequence) : Prop :=
  In seq [SequenceBoot; SequenceInitialize; SequenceInstall; SequenceShutdown;
          SequenceReboot; SequenceUpgrade; SequenceReset].

(** [runtime.Mode] of the platform. *)
Inductive Mode : Type := ModeCloud | ModeContainer | ModeMetal.

Definition Mode_eqb (a b : Mode) : bool :=
  match a, b with
  | ModeCloud, ModeCloud | ModeContainer, ModeContainer
  | ModeMetal, ModeMetal => true
  | _, _ => false
  end.

(** ** Log lines *)

(** One constructor per [log.Printf] of the file. *)
Inductive LogLine : Type :=
| LogSequence (name : string) (nphases : nat)
    (* "%s sequence: %d phase(s)" *)
| LogSequenceDone (name : string)
    (* "%s sequence: done: %s" *)
| LogPhase (progress : string) (ntasks : nat)
    (* "phase %s: %d tasks(s)" *)
| LogPhaseDone (progress : string)
    (* "phase %s: done, %s" *)
| LogTaskStarting (progress : string)
    (* "task %s: starting" *)
| LogTaskDone (progress : string)
    (* "task %s: done, %s" *)
| LogSIGTERM
    (* "shutdown via SIGTERM received" *)
| LogACPI
    (* "shutdown via ACPI received" *)
| LogShutdownFailed (err : error).
    (* "shutdown failed: %v" *)

(** ** The scheduling oracle *)

(** [remove_nth k l] is [l] without its element at position [k]. *)
Fixpoint remove_nth {A : Type} (k : nat) (l : list A) : list A :=
  match l, k with
  | [], _ => []
  | _ :: l', O => l'
  | x :: l', S k' => x :: remove_nth k' l'
  end.

(** The order in which the goroutines [l] finish under the oracle [sched]:
    at each step the oracle's next number, taken modulo the number of
    goroutines still running, picks the one that finishes next.  An
    exhausted oracle picks the first. *)
Fixpoint schedule_from {A : Type} (fuel : nat) (sched : list nat)
  (l : list A) : list A :=
  match fuel, l with
  | S fuel', x :: _ =>
      let k := Nat.modulo (hd 0 sched) (length l) in
      nth k l x :: schedule_from fuel' (tl sched) (remove_nth k l)
  | _, _ => []
  end.

Definition schedule_order {A : Type} (sched : list nat) (l : list A) : list A :=
  schedule_from (length l) sched l.

(** ** The controller *)

Section Machined.

(** What lies outside the file: the machine that tasks act on ([W]), the
    runtime context, and the two request types of the machine API. *)
Context {W Runtime UpgradeRequest ResetRequest : Type}.

(** [c.r.State().Platform().Mode()]. *)
Variable Runtime_Mode : Runtime -> Mode.

(** [seq.String()], of package [runtime], where it returns; [Run_or_panic]
    below is [Run] with a [seq.String()] that may panic. *)
Variable Sequence_String : Sequence -> string.

(** [kmsg.SetupLogger(logger, prefix, true)]: it may fail, and it may touch
    the machine. *)
Variable kmsg_SetupLogger : string -> W -> W * option error.

(** The [data interface{}] argument of [Run], by dynamic type.  A pointer
    is an [option]: a typed nil pointer is not the nil interface. *)
Inductive Data : Type :=
| nil_data
| UpgradeRequest_ptr (req : option UpgradeRequest)
| ResetRequest_ptr (req : option ResetRequest)
| other_data (dynamic_type : string).

(** [*log.Logger] after [kmsg.SetupLogger]. *)
Record Logger : Type := { prefix : string }.

(** [runtime.TaskExecutionFunc]; the context argument is always
    [context.TODO()] and is left out. *)
Definition TaskExecutionFunc : Type :=
  Logger -> option Runtime -> W -> W * option error.

(** [runtime.TaskSetupFunc]: [None] is the nil task. *)
Definition TaskSetupFunc : Type := Sequence -> Data -> option TaskExecutionFunc.

(** [runtime.Phase]. *)
Definition Phase : Type := list TaskSetupFunc.

(** The methods of [*Sequencer] that [phases] calls. *)
Record Sequencer : Type := {
  Boot : option Runtime -> list Phase;
  Initialize : option Runtime -> list Phase;
  Install : option Runtime -> list Phase;
  Shutdown : option Runtime -> list Phase;
  Reboot : option Runtime -> list Phase;
  Upgrade : option Runtime -> option UpgradeRequest -> list Phase;
  Reset : option Runtime -> option ResetRequest -> list Phase
}.

Record Controller : Type := {
  r : option Runtime;
  s : Sequencer;
  semaphore : Z
}.

Record Machine : Type := {
  ctl : Controller;
  stdlog : list LogLine;
  world : W
}.

(** *** The state monad *)

Definition M (A : Type) : Type := Machine -> A * Machine.

Definition ret {A : Type} (a : A) : M A := fun m => (a, m).

Definition bind {A B : Type} (x : M A) (k : A -> M B) : M B :=
  fun m => let (a, m') := x m in k a m'.

Notation "x <- e ;; k" := (bind e (fun x => k))
  (at level 61, e at next level, right associativity).
Notation "e ;;; k" := (bind e (fun _ => k))
  (at level 61, right associativity).

Definition log_Printf (line : LogLine) : M unit :=
  fun m =>
    (tt, {| ctl := ctl m; stdlog := stdlog m ++ [line]; world := world m |}).

(** A call into the machine outside the controller. *)
Definition on_world {A : Type} (f : W -> W * A) : M A :=
  fun m => let (w, a) := f (world m) in
           (a, {| ctl := ctl m; stdlog := stdlog m; world := w |}).

Definition get_r : M (option Runtime) := fun m => (r (ctl m), m).

(** *** The lock *)

(** [atomic.CompareAndSwapInt32(addr, old, new)] on the value at [addr]. *)
Definition CompareAndSwapInt32 (old new v : Z) : bool * Z :=
  if Z.eqb v old then (true, new) else (false, v).

(** The machine after a store of [v] to [c.semaphore]. *)
Definition with_semaphore (v : Z) (m : Machine) : Machine :=
  {| ctl := {| r := r (ctl m); s := s (ctl m); semaphore := v |};
     stdlog := stdlog m; world := world m |}.

Definition cas_semaphore (old new : Z) : M bool :=
  fun m =>
    let (swapped, v) := CompareAndSwapInt32 old new (semaphore (ctl m)) in
    (swapped, with_semaphore v m).

Definition TryLock : M bool :=
  swapped <- cas_semaphore 0 1 ;; ret (negb swapped).

Definition Unlock : M bool := cas_semaphore 1 0.

(** *** Tasks *)

Definition runTask (n : nat) (f : TaskSetupFunc) (seq : Sequence) (data : Data)
  : M (option error) :=
  err <- on_world (kmsg_SetupLogger ("[talos] task " ++ itoa n ++ ":")) ;;
  match err with
  | Some e => ret (Some e)
  | None =>
      match f seq data with
      | Some task =>
          rt <- get_r ;;
          on_world (task {| prefix := "[talos] task " ++ itoa n ++ ":" |} rt)
      | None => ret None
      end
  end.

(** *** errgroup *)

(** [errgroup.Group]: the goroutines started with [Go] that have not
    finished (the wait group counts them) and the error kept by [errOnce]. *)
Record Group : Type := {
  eg_running : list (M (option error));
  eg_err : option error
}.

Definition eg_zero : Group := {| eg_running := []; eg_err := None |}.

Definition eg_Go (f : M (option error)) (eg : Group) : Group :=
  {| eg_running := eg_running eg ++ [f]; eg_err := eg_err eg |}.

(** One goroutine of the group runs [f] in one piece and finishes: a
    non-nil error is kept only if none was kept before. *)
Definition eg_finish (f : M (option error)) (kept : option error)
  : M (option error) :=
  res <- f ;;
  ret (match res, kept with
       | Some e, None => Some e
       | _, _ => kept
       end).

Fixpoint eg_join (fs : list (M (option error))) (kept : option error)
  : M (option error) :=
  match fs with
  | [] => ret kept
  | f :: fs' => kept' <- eg_finish f kept ;; eg_join fs' kept'
  end.

(** [eg.Wait()]: returns once every goroutine has finished, with the error
    that was kept.  The goroutines run one after the other, in the order of
    the oracle; [eg_steps] below lets them interleave. *)
Definition eg_Wait (sched : list nat) (eg : Group) : M (option error) :=
  eg_join (schedule_order sched (eg_running eg)) (eg_err eg).

(** *** Phases *)

(** The closure that [runPhase] passes to [eg.Go] for the task with the
    1-based [number], run from its first statement to its return with no
    other goroutine in between. *)
Definition task_unit (total : nat) (seq : Sequence) (data : Data)
  (number : nat) (task : TaskSetupFunc) : M (option error) :=
  let progress := Sprintf_progress number total in
  log_Printf (LogTaskStarting progress) ;;;
  res <- runTask number task seq data ;;
  log_Printf (LogTaskDone progress) ;;;
  ret (match res with
       | Some e => Some (Errorf_task progress e)
       | None => None
       end).

(** The [for number, task := range phase] loop of [runPhase], from the
    0-based index [number]. *)
Fixpoint launch (total : nat) (seq : Sequence) (data : Data) (number : nat)
  (phase : Phase) (eg : Group) : Group :=
  match phase with
  | [] => eg
  | task :: rest =>
      launch total seq data (S number) rest
        (eg_Go (task_unit total seq data (S number) task) eg)
  end.

Definition runPhase (sched : list nat) (phase : Phase) (seq : Sequence)
  (data : Data) : M (option error) :=
  eg_Wait sched (launch (length phase) seq data 0 phase eg_zero).

(** The [for number, phase = range phases] loop of [run], from the 0-based
    index [number]; [scheds] holds one oracle per phase. *)
Fixpoint run_loop (scheds : list (list nat)) (seq : Sequence) (data : Data)
  (total number : nat) (phases : list Phase) : M (option error) :=
  match phases with
  | [] => ret None
  | phase :: rest =>
      let progress := Sprintf_progress (S number) total in
      log_Printf (LogPhase progress (length phase)) ;;;
      err <- runPhase (hd [] scheds) phase seq data ;;
      match err with
      | Some e =>
          ret (Some (Errorf_phase (S number) (Sequence_String seq) e))
      | None =>
          log_Printf (LogPhaseDone progress) ;;;
          run_loop (tl scheds) seq data total (S number) rest
      end
  end.

Definition run (scheds : list (list nat)) (seq : Sequence)
  (phases : list Phase) (data : Data) : M (option error) :=
  log_Printf (LogSequence (Sequence_String seq) (length phases)) ;;;
  res <- run_loop scheds seq data (length phases) 0 phases ;;
  log_Printf (LogSequenceDone (Sequence_String seq)) ;;;
  ret res.

(** *** Planning *)

Definition phases (c : Controller) (seq : Sequence) (data : Data)
  : list Phase * option error :=
  if Z.eqb seq SequenceBoot then (Boot (s c) (r c), None)
  else if Z.eqb seq SequenceInitialize then (Initialize (s c) (r c), None)
  else if Z.eqb seq SequenceInstall then (Install (s c) (r c), None)
  else if Z.eqb seq SequenceShutdown then (Shutdown (s c) (r c), None)
  else if Z.eqb seq SequenceReboot then (Reboot (s c) (r c), None)
  else if Z.eqb seq SequenceUpgrade then
    match data with
    | UpgradeRequest_ptr req => (Upgrade (s c) (r c) req, None)
    | _ => ([], Some ErrInvalidSequenceData)
    end
  else if Z.eqb seq SequenceReset then
    match data with
    | ResetRequest_ptr req => (Reset (s c) (r c) req, None)
    | _ => ([], Some ErrInvalidSequenceData)
    end
  else ([], None).

(** *** Run *)

(** The part of [Run] between the lock and the deferred [Unlock]. *)
Definition Run_locked (scheds : list (list nat)) (seq : Sequence) (data : Data)
  : M (option error) :=
  fun m =>
    match phases (ctl m) seq data with
    | (_, Some e) => (Some e, m)
    | (ps, None) => run scheds seq ps data m
    end.

Definition Run (scheds : list (list nat)) (seq : Sequence) (data : Data)
  : M (option error) :=
  rt <- get_r ;;
  match rt with
  | None => ret (Some ErrUndefinedRuntime)
  | Some _ =>
      locked <- TryLock ;;
      if locked : bool then ret (Some ErrLocked)
      else
        res <- Run_locked scheds seq data ;;
        Unlock ;;;
        ret res
  end.

(** *** Two calls of Run at once *)

(** The points of one call of [Run] at which another goroutine may run in
    between: each step of [Run_step] is one of the four stretches of [Run]
    separated by the two atomic operations on [semaphore]. *)
Inductive Pc : Type :=
| AtEntry
| AtTryLock
| AtPhases
| AtUnlock (res : option error)
| Returned (res : option error).

Record Call : Type := {
  call_scheds : list (list nat);
  call_seq : Sequence;
  call_data : Data
}.

Definition Run_step (a : Call) (pc : Pc) : M Pc :=
  match pc with
  | AtEntry =>
      rt <- get_r ;;
      ret (match rt with
           | None => Returned (Some ErrUndefinedRuntime)
           | Some _ => AtTryLock
           end)
  | AtTryLock =>
      locked <- TryLock ;;
      ret (if locked : bool then Returned (Some ErrLocked) else AtPhases)
  | AtPhases =>
      res <- Run_locked (call_scheds a) (call_seq a) (call_data a) ;;
      ret (AtUnlock res)
  | AtUnlock res => Unlock ;;; ret (Returned res)
  | Returned res => ret (Returned res)
  end.

(** [n] steps of one call with no other goroutine in between. *)
Fixpoint Run_steps (n : nat) (a : Call) (pc : Pc) : M Pc :=
  match n with
  | O => ret pc
  | S n' => pc' <- Run_step a pc ;; Run_steps n' a pc'
  end.

(** A call is between its acquire and its release. *)
Definition holds_lock (pc : Pc) : bool :=
  match pc with
  | AtPhases | AtUnlock _ => true
  | _ => false
  end.

(** Two calls [a] and [b] on one controller; [who] says which of them
    takes the next step ([true] for [a]). *)
Definition step_two (a b : Call) (who : bool) (pcs : Pc * Pc) : M (Pc * Pc) :=
  if who then pc <- Run_step a (fst pcs) ;; ret (pc, snd pcs)
  else pc <- Run_step b (snd pcs) ;; ret (fst pcs, pc).

Fixpoint interleave (a b : Call) (who : list bool) (pcs : Pc * Pc)
  : M (Pc * Pc) :=
  match who with
  | [] => ret pcs
  | w :: who' => pcs' <- step_two a b w pcs ;; interleave a b who' pcs'
  end.

(** A call that got the lock: it is past its acquire and was not turned
    away. *)
Definition acquired (pc : Pc) : Prop :=
  match pc with
  | AtPhases => True
  | AtUnlock res | Returned res => res <> Some ErrLocked
  | _ => False
  end.

Definition pc_ok (pc : Pc) : Prop :=
  match pc with
  | AtUnlock res => res <> Some ErrLocked
  | _ => True
  end.

(** What holds at every moment of two calls that started with the lock
    free: the flag is set exactly while one of them is between acquire and
    release, never both are, and a call is turned away only by a call that
    got the lock. *)
Definition lock_inv (p q : Pc) (m : Machine) : Prop :=
  r (ctl m) <> None
  /\ semaphore (ctl m) = (if holds_lock p || holds_lock q then 1 else 0)%Z
  /\ holds_lock p && holds_lock q = false
  /\ pc_ok p /\ pc_ok q
  /\ (p = Returned (Some ErrLocked) -> acquired q)
  /\ (q = Returned (Some ErrLocked) -> acquired p).

(** *** The event listener *)

(** What the two goroutines of [ListenForEvents] wait for: the signal, and
    the return of [acpi.StartACPIListener] with its result. *)
Inductive Event : Type :=
| SIGTERM
| ACPI (res : option error).

(** The body shared by both goroutines once their event is there; its
    value is what the goroutine sends on [errCh]. *)
Definition shutdown (line : LogLine) (scheds : list (list nat))
  : M (option error) :=
  log_Printf line ;;;
  err <- Run scheds SequenceShutdown nil_data ;;
  match err with
  | Some e => log_Printf (LogShutdownFailed e)
  | None => ret tt
  end ;;;
  ret None.

Definition on_event (ev : Event) (scheds : list (list nat))
  : M (option error) :=
  match ev with
  | SIGTERM => shutdown LogSIGTERM scheds
  | ACPI (Some e) => ret (Some e)
  | ACPI None => shutdown LogACPI scheds
  end.

Inductive Outcome : Type :=
| Returns (err : option error)
| Blocks
| Panics.

(** [events] lists the goroutines in the order in which they send on
    [errCh]; the caller receives the first value.  With no event the
    receive never returns; on a nil [c.r] the call [c.r.State()] panics. *)
Definition ListenForEvents (events : list Event) (scheds : list (list nat))
  : M Outcome :=
  rt <- get_r ;;
  match rt with
  | None => ret Panics
  | Some rt' =>
      if Mode_eqb (Runtime_Mode rt') ModeContainer then ret (Returns None)
      else
        match events with
        | [] => ret Blocks
        | ev :: _ => err <- on_event ev scheds ;; ret (Returns err)
        end
  end.

(** *** What the log and the spec say *)

(** The progress texts of the phases whose start was logged. *)
Definition started_phases (lines : list LogLine) : list string :=
  flat_map (fun line => match line with
                        | LogPhase progress _ => [progress]
                        | _ => []
                        end) lines.

(** The two lines that the unit of task [number] writes. *)
Definition task_lines (total number : nat) : list LogLine :=
  [LogTaskStarting (Sprintf_progress number total);
   LogTaskDone (Sprintf_progress number total)].

(** The units of a phase with their 1-based numbers, from the 0-based
    index [number]. *)
Fixpoint numbered_units (total : nat) (seq : Sequence) (data : Data)
  (number : nat) (phase : Phase) : list (nat * M (option error)) :=
  match phase with
  | [] => []
  | task :: rest =>
      (S number, task_unit total seq data (S number) task)
        :: numbered_units total seq data (S number) rest
  end.

(** The join as the spec words it: every unit of the list runs to its
    end, whatever the others returned, and its result is recorded. *)
Fixpoint run_each (us : list (nat * M (option error)))
  : M (list (nat * option error)) :=
  match us with
  | [] => ret []
  | (k, f) :: us' =>
      res <- f ;; rest <- run_each us' ;; ret ((k, res) :: rest)
  end.

(** The first failure among results listed in the order of completion. *)
Fixpoint first_failure (results : list (nat * option error))
  : option (nat * error) :=
  match results with
  | [] => None
  | (k, Some e) :: _ => Some (k, e)
  | (_, None) :: rest => first_failure rest
  end.

(** [runPhase] as the spec words it: join every unit, then surface the
    first failure in order of completion and drop the others. *)
Definition runPhase_spec (sched : list nat) (phase : Phase) (seq : Sequence)
  (data : Data) : M (option error) :=
  results <- run_each (schedule_order sched
                         (numbered_units (length phase) seq data 0 phase)) ;;
  ret (option_map snd (first_failure results)).

(** An action that leaves the controller as it is. *)
Definition keeps_ctl {A : Type} (x : M A) : Prop :=
  forall m, ctl (snd (x m)) = ctl m.

(** An action that writes exactly [lines] to the log. *)
Definition writes {A : Type} (x : M A) (lines : list LogLine) : Prop :=
  forall m, stdlog (snd (x m)) = stdlog m ++ lines.

(** The payload tags of [data]. *)
Definition carries_UpgradePayload (data : Data) : bool :=
  match data with UpgradeRequest_ptr _ => true | _ => false end.

Definition carries_ResetPayload (data : Data) : bool :=
  match data with ResetRequest_ptr _ => true | _ => false end.

End Machined.

(** ** A concrete machine *)

(** Modelled from the spec: the names that [seq.String()] yields for the
    seven sequences; the method is declared in package [runtime], outside
    the sources. *)
Definition Sequence_name (seq : Sequence) : string :=
  if Z.eqb seq SequenceBoot then "boot"
  else if Z.eqb seq SequenceInitialize then "initialize"
  else if Z.eqb seq SequenceInstall then "install"
  else if Z.eqb seq SequenceShutdown then "shutdown"
  else if Z.eqb seq SequenceReboot then "reboot"
  else if Z.eqb seq SequenceUpgrade then "upgrade"
  else if Z.eqb seq SequenceReset then "reset"
  else "".

(** The machine of the scenarios keeps the markers that tasks leave. *)
Definition Markers : Type := list string.

Definition Phase0 : Type := @Phase Markers unit unit unit.
Definition Machine0 : Type := @Machine Markers unit unit unit.

Definition SetupLogger_ok (_ : string) (w : Markers) : Markers * option error :=
  (w, None).

Definition metal (_ : unit) : Mode := ModeMetal.

(** A task that leaves its marker and succeeds. *)
Definition succeeds (marker : string) : @TaskSetupFunc Markers unit unit unit :=
  fun _ _ => Some (fun _ _ w => (w ++ [marker], None)).

(** A task that fails with [msg] and leaves no marker. *)
Definition fails (msg : string) : @TaskSetupFunc Markers unit unit unit :=
  fun _ _ => Some (fun _ _ w => (w, Some (errors_New msg))).

(** The plan of the shutdown scenario: tasks A and B, then task C. *)
Definition shutdown_plan : list Phase0 :=
  [[succeeds "A"; succeeds "B"]; [fails "disk busy"]].

(** A plan of one phase with one task that succeeds. *)
Definition quiet_plan : list Phase0 := [[succeeds "A"]].

(** The same plan with one more phase behind the failing one. *)
Definition shutdown_plan3 : list Phase0 := shutdown_plan ++ [[succeeds "D"]].

(** Two tasks that both fail. *)
Definition two_failures : Phase0 := [fails "x"; fails "y"].

(** Three tasks of which the second fails. *)
Definition three_tasks : Phase0 := [succeeds "1"; fails "t2"; succeeds "3"].

Definition sequencer_with (plan : list Phase0)
  : @Sequencer Markers unit unit unit :=
  {| Boot := fun _ => []; Initialize := fun _ => []; Install := fun _ => [];
     Shutdown := fun _ => plan; Reboot := fun _ => [];
     Upgrade := fun _ _ => plan; Reset := fun _ _ => plan |}.

Definition machine_with (rt : option unit) (plan : list Phase0) (sem : Z)
  : Machine0 :=
  {| ctl := {| r := rt; s := sequencer_with plan; semaphore := sem |};
     stdlog := []; world := [] |}.

(** [Run] and [ListenForEvents] on the concrete machine. *)
Definition Run0 := @Run Markers unit unit unit Sequence_name SetupLogger_ok.
Definition run0 := @run Markers unit unit unit Sequence_name SetupLogger_ok.
Definition run_loop0 :=
  @run_loop Markers unit unit unit Sequence_name SetupLogger_ok.
Definition runPhase0 := @runPhase Markers unit unit unit SetupLogger_ok.
Definition ListenForEvents0 :=
  @ListenForEvents Markers unit unit unit metal Sequence_name SetupLogger_ok.

(** A call of [Run] for the shutdown sequence. *)
Definition shutdown_call : @Call unit unit :=
  {| call_scheds := []; call_seq := SequenceShutdown; call_data := nil_data |}.

Definition interleave0 :=
  @interleave Markers unit unit unit Sequence_name SetupLogger_ok.

(** The second call enters, the first call runs from entry to return, then
    the second call goes on. *)
Definition one_inside_the_other : list bool :=
  [false; true; true; true; true; false; false; false].

(** The message of a returned error; the empty text for nil. *)
Definition message (err : option error) : string :=
  match err with Some e => Error e | None => "" end.

(** The machines of the examples: with a runtime context and the lock
    free, with the lock held, and without a runtime context (lock held). *)
Definition free_machine : Machine0 := machine_with (Some tt) shutdown_plan 0.
Definition held_machine : Machine0 := machine_with (Some tt) shutdown_plan 1.
Definition bare_machine : Machine0 := machine_with None shutdown_plan 1.
Definition quiet_machine : Machine0 := machine_with (Some tt) quiet_plan 0.

(** The message of the error that the shutdown sequence returns when
    [plan] is its plan. *)
Definition shutdown_message (plan : list Phase0) : string :=
  message (fst (Run0 [] SequenceShutdown nil_data
                  (machine_with (Some tt) plan 0))).


(** ** The construction of a controller *)

(** [syscall.Errno], as far as [os.IsNotExist] tells errors apart. *)
Inductive Errno : Type := ENOENT | EACCES | EIO.

(** The [Err] field of a [*strconv.NumError]. *)
Inductive NumErr : Type := ErrSyntax | ErrRange.

(** The errors on the way to a controller: [*os.PathError] of [os.Stat]
    and [ioutil.ReadFile], [*strconv.NumError] of [strconv.Atoi], the
    errors of [NewState] and of the configuration parser, and the
    [fmt.Errorf("failed to parse config: %w", err)] of [NewController]. *)
Inductive host_error : Type :=
| PathError (Op Path : string) (Err : Errno)
| NumError (Func Num : string) (Err : NumErr)
| host_errors_New (msg : string)
| Errorf_config (cause : host_error).

(** [os.IsNotExist(err)]. *)
Definition os_IsNotExist (e : host_error) : bool :=
  match e with
  | PathError _ _ ENOENT => true
  | _ => false
  end.

(** [strings.TrimSuffix(s, "\n")]: one trailing newline is removed. *)
Fixpoint TrimSuffix_newline (str : string) : string :=
  match str with
  | EmptyString => EmptyString
  | String a EmptyString =>
      if Ascii.eqb a "010"%char then EmptyString else str
  | String a rest => String a (TrimSuffix_newline rest)
  end.

(** The value of a decimal digit: [ch -= '0'; ch > 9] of [strconv] on a
    byte. *)
Definition digit_value (a : ascii) : option Z :=
  let n := Z.of_N (N_of_ascii a) in
  if (48 <=? n)%Z && (n <=? 57)%Z then Some (n - 48)%Z else None.

(** The digit loop of the fast path of [strconv.Atoi]:
    [n = n*10 + int(ch)], an error on the first byte that is no digit. *)
Fixpoint parse_digits (str : string) (n : Z) : option Z :=
  match str with
  | EmptyString => Some n
  | String a rest =>
      match digit_value a with
      | Some d => parse_digits rest (n * 10 + d)
      | None => None
      end
  end.

Definition maxInt64 : Z := 9223372036854775807.
Definition minInt64 : Z := (-9223372036854775808).

Definition maxUint64 : Z := 18446744073709551615.

(** The loop of [strconv.ParseUint(s, 10, 64)] over the bytes of [s], [n]
    being the value so far: a syntax error at a byte that is no decimal
    digit; a range error as soon as [n*10] ([n >= cutoff], the cutoff being
    [maxUint64/10 + 1]) or [n*10 + d] leaves the 64 bits, whatever bytes
    follow. *)
Fixpoint ParseUint_loop (str : string) (n : Z) : Z + NumErr :=
  match str with
  | EmptyString => inl n
  | String c rest =>
      match digit_value c with
      | None => inr ErrSyntax
      | Some d =>
          if (maxUint64 / 10 + 1 <=? n)%Z then inr ErrRange
          else
            let n1 := (n * 10 + d)%Z in
            if (maxUint64 <? n1)%Z then inr ErrRange
            else ParseUint_loop rest n1
      end
  end.

(** [strconv.ParseUint(s, 10, 64)]. *)
Definition ParseUint (str : string) : Z + NumErr :=
  match str with
  | EmptyString => inr ErrSyntax
  | _ => ParseUint_loop str 0
  end.

(** [strconv.ParseInt(s, 10, 0)] for a 64-bit [int]: the sign is taken
    off, [ParseUint] reads the rest, and its value ([maxUint64] with its
    range error) is tested against the cutoff [1 << 63]. *)
Definition ParseInt (s0 : string) : Z + NumErr :=
  match s0 with
  | EmptyString => inr ErrSyntax
  | String a rest =>
      let neg := Ascii.eqb a "-"%char in
      let s := if Ascii.eqb a "+"%char || neg then rest else s0 in
      match ParseUint s with
      | inr ErrSyntax => inr ErrSyntax
      | parsed =>
          let un := match parsed with inl un => un | inr _ => maxUint64 end in
          let cutoff := (2 ^ 63)%Z in
          if negb neg && (cutoff <=? un)%Z then inr ErrRange
          else if neg && (cutoff <? un)%Z then inr ErrRange
          else inl (if neg then (- un)%Z else un)
      end
  end.

(** [strconv.Atoi(str)] for a 64-bit [int].  A string of 1 to 18 bytes
    takes the fast path, where no value can leave the [int]; every other
    string goes to [ParseInt], whose error is returned with [Func] set to
    "Atoi". *)
Definition Atoi (str : string) : Z + host_error :=
  let sLen := String.length str in
  if (0 <? sLen)%nat && (sLen <? 19)%nat then
    match str with
    | EmptyString => inr (NumError "Atoi" str ErrSyntax)
    | String a rest =>
        let signed := Ascii.eqb a "-"%char || Ascii.eqb a "+"%char in
        let s := if signed then rest else str in
        if signed && (String.length s <? 1)%nat
        then inr (NumError "Atoi" str ErrSyntax)
        else
          match parse_digits s 0 with
          | None => inr (NumError "Atoi" str ErrSyntax)
          | Some n => inl (if Ascii.eqb a "-"%char then (- n)%Z else n)
          end
    end
  else
    match ParseInt str with
    | inl i => inl i
    | inr e => inr (NumError "Atoi" str e)
    end.

(** The value of a 64-bit integer operation, wrapped around. *)
Definition wrap64 (z : Z) : Z :=
  ((z + 9223372036854775808) mod 18446744073709551616
   - 9223372036854775808)%Z.

(** [time.Second], in nanoseconds. *)
Definition time_Second : Z := 1000000000.

(** [time.Duration(i) * time.Second]. *)
Definition seconds (i : Z) : Z := wrap64 (i * time_Second).

(** The one [log.Printf] of [waitForUSBDelay]:
    "waiting %d second(s) for USB storage". *)
Inductive HostLine : Type := LogWaitingUSB (i : Z).

(** The host at the start of the process: what [os.Stat] and
    [ioutil.ReadFile] answer for a path, the lines logged, and the
    nanoseconds spent in [time.Sleep]. *)
Record Host : Type := {
  os_Stat : string -> option host_error;
  ioutil_ReadFile : string -> string + host_error;
  hostlog : list HostLine;
  slept : Z
}.

(** [time.Sleep(d)]: a negative or zero duration returns at once. *)
Definition time_Sleep (d : Z) (h : Host) : Host :=
  {| os_Stat := os_Stat h; ioutil_ReadFile := ioutil_ReadFile h;
     hostlog := hostlog h; slept := (slept h + Z.max 0 d)%Z |}.

Definition host_Printf (line : HostLine) (h : Host) : Host :=
  {| os_Stat := os_Stat h; ioutil_ReadFile := ioutil_ReadFile h;
     hostlog := hostlog h ++ [line]; slept := slept h |}.

Definition delay_use : string :=
  "/sys/module/usb_storage/parameters/delay_use".

Definition waitForUSBDelay (h : Host) : option host_error * Host :=
  let file := delay_use in
  let read_and_wait :=
    match ioutil_ReadFile h file with
    | inr err => (Some err, h)
    | inl b =>
        let val := TrimSuffix_newline b in
        match Atoi val with
        | inr err => (Some err, h)
        | inl i =>
            (None, time_Sleep (seconds i) (host_Printf (LogWaitingUSB i) h))
        end
    end in
  match os_Stat h file with
  | Some err => if os_IsNotExist err then (None, h) else (Some err, h)
  | None => read_and_wait
  end.

Section Construction.

Context {W Runtime UpgradeRequest ResetRequest : Type}.

(** [runtime.State] and [runtime.Configurator]. *)
Context {State Configurator : Type}.

(** [NewState()], [config.NewFromBytes(b)], [NewRuntime(cfg, s)] and
    [NewSequencer()], which the sources do not include. *)
Variable NewState : Host -> State + host_error.
Variable config_NewFromBytes : string -> Configurator + host_error.
Variable NewRuntime : option Configurator -> State -> option Runtime.
Variable NewSequencer : @Sequencer W Runtime UpgradeRequest ResetRequest.

(** [NewController(b)]; [b] is [None] for a nil slice.  The result is the
    pair of the pointer and the error.  The host of this model is what
    [waitForUSBDelay] reads and writes; whatever [NewState] and the other
    three do to the machine besides returning is outside it. *)
Definition NewController (b : option string) (h : Host)
  : (option (@Controller W Runtime UpgradeRequest ResetRequest)
     * option host_error) * Host :=
  match waitForUSBDelay h with
  | (Some err, h1) => ((None, Some err), h1)
  | (None, h1) =>
      match NewState h1 with
      | inr err => ((None, Some err), h1)
      | inl st =>
          let parsed :=
            match b with
            | Some bytes =>
                match config_NewFromBytes bytes with
                | inr err => inr (Errorf_config err)
                | inl cfg => inl (Some cfg)
                end
            | None => inl None
            end in
          match parsed with
          | inr err => ((None, Some err), h1)
          | inl cfg =>
              ((Some {| r := NewRuntime cfg st; s := NewSequencer;
                        semaphore := 0 |}, None), h1)
          end
      end
  end.

End Construction.

(** ** Any number of calls of Run at once *)

Section Crowd.

Context {W Runtime UpgradeRequest ResetRequest : Type}.
Variable Sequence_String : Sequence -> string.
Variable kmsg_SetupLogger : string -> W -> W * option error.

(** The call at position [k] of [calls] takes its next step; a position
    beyond the list is no step. *)
Fixpoint step_at (k : nat)
  (calls : list (@Call UpgradeRequest ResetRequest * Pc)) {struct calls}
  : @M W Runtime UpgradeRequest ResetRequest
      (list (@Call UpgradeRequest ResetRequest * Pc)) :=
  match calls with
  | [] => ret []
  | (a, pc) :: rest =>
      match k with
      | O =>
          bind (Run_step Sequence_String kmsg_SetupLogger a pc)
            (fun pc' => ret ((a, pc') :: rest))
      | S k' =>
          bind (step_at k' rest) (fun rest' => ret ((a, pc) :: rest'))
      end
  end.

(** The calls step in the order [who]. *)
Fixpoint crowd (who : list nat)
  (calls : list (@Call UpgradeRequest ResetRequest * Pc))
  : @M W Runtime UpgradeRequest ResetRequest
      (list (@Call UpgradeRequest ResetRequest * Pc)) :=
  match who with
  | [] => ret calls
  | k :: who' => bind (step_at k calls) (crowd who')
  end.

(** The number of calls between acquire and release. *)
Definition holders (calls : list (@Call UpgradeRequest ResetRequest * Pc))
  : nat :=
  length (filter (fun c => holds_lock (snd c)) calls).

(** All calls at their entry. *)
Definition entering (calls : list (@Call UpgradeRequest ResetRequest))
  : list (@Call UpgradeRequest ResetRequest * Pc) :=
  map (fun a => (a, AtEntry)) calls.

End Crowd.

(** ** The time service (package reg) *)

Section TimeService.

(** [time.Time] and [*timestamp.Timestamp]. *)
Context {T Timestamp : Type}.

(** [ptypes.TimestampProto(t)]. *)
Variable ptypes_TimestampProto : T -> Timestamp + error.

(** [timeapi.Time]. *)
Record timeapi_Time : Type := {
  Server : string;
  Localtime : Timestamp;
  Remotetime : Timestamp
}.

(** [timeapi.TimeResponse]. *)
Record TimeResponse : Type := { Messages : list timeapi_Time }.

(** [&timeapi.TimeResponse{}]. *)
Definition empty_response : TimeResponse := {| Messages := [] |}.

Definition genProtobufTimeResponse (local remote : T) (server : string)
  : TimeResponse * option error :=
  match ptypes_TimestampProto local with
  | inr err => (empty_response, Some err)
  | inl localpbts =>
      match ptypes_TimestampProto remote with
      | inr err => (empty_response, Some err)
      | inl remotepbts =>
          ({| Messages := [{| Server := server; Localtime := localpbts;
                              Remotetime := remotepbts |}] |}, None)
      end
  end.

(** [*ntp.NTP], of a package outside the sources: its [Server] field, what
    [Query()] answers (the [Time] of the response, or an error) and what
    [GetTime()] answers. *)
Record NTP : Type := {
  NTP_Server : string;
  Query : T + error;
  GetTime : T
}.

(** [ntp.NewNTPClient(ntp.WithServer(server))]. *)
Variable ntp_NewNTPClient : string -> NTP + error.

Record Registrator : Type := { Timed : NTP }.

Definition NewRegistrator (n : NTP) : Registrator := {| Timed := n |}.

(** [Registrator.Time]; the context and the empty request play no part. *)
Definition Registrator_Time (reg : Registrator) : TimeResponse * option error :=
  match Query (Timed reg) with
  | inr err => (empty_response, Some err)
  | inl rt_Time =>
      genProtobufTimeResponse (GetTime (Timed reg)) rt_Time
        (NTP_Server (Timed reg))
  end.

(** [Registrator.TimeCheck] on a request for [in_Server]. *)
Definition Registrator_TimeCheck (reg : Registrator) (in_Server : string)
  : TimeResponse * option error :=
  match ntp_NewNTPClient in_Server with
  | inr err => (empty_response, Some err)
  | inl tc =>
      match Query tc with
      | inr err => (empty_response, Some err)
      | inl rt_Time => genProtobufTimeResponse (GetTime tc) rt_Time in_Server
      end
  end.

End TimeService.

(** ** Run when String() does not return *)

Section NamedSequences.

Context {W Runtime UpgradeRequest ResetRequest : Type}.

(** [seq.String()] as a method that need not return: [None] is a call that
    panics, as a lookup in a table of names does for a value outside the
    table. *)
Variable Sequence_String_opt : Sequence -> option string.
Variable kmsg_SetupLogger : string -> W -> W * option error.

Notation "x <- e ;; k" := (bind e (fun x => k))
  (at level 61, e at next level, right associativity).
Notation "e ;;; k" := (bind e (fun _ => k))
  (at level 61, right associativity).

(** The name where [seq.String()] returns one. *)
Definition Sequence_String_returned (seq : Sequence) : string :=
  match Sequence_String_opt seq with
  | Some name => name
  | None => EmptyString
  end.

(** [run]: its first statement evaluates [seq.String()] for the first log
    line.  A panic there leaves [run] before anything is logged and before
    the deferred line is registered; the later calls of [seq.String()] are
    on the same value. *)
Definition run_or_panic (scheds : list (list nat)) (seq : Sequence)
  (phases : list (@Phase W Runtime UpgradeRequest ResetRequest))
  (data : @Data UpgradeRequest ResetRequest)
  : @M W Runtime UpgradeRequest ResetRequest Outcome :=
  match Sequence_String_opt seq with
  | None => ret Panics
  | Some _ =>
      res <- run Sequence_String_returned kmsg_SetupLogger
               scheds seq phases data ;;
      ret (Returns res)
  end.

(** [Run]: the deferred [Unlock] runs when the body returns and when it
    panics. *)
Definition Run_or_panic (scheds : list (list nat)) (seq : Sequence)
  (data : @Data UpgradeRequest ResetRequest)
  : @M W Runtime UpgradeRequest ResetRequest Outcome :=
  rt <- get_r ;;
  match rt with
  | None => ret (Returns (Some ErrUndefinedRuntime))
  | Some _ =>
      locked <- TryLock ;;
      if locked : bool then ret (Returns (Some ErrLocked))
      else
        out <- (fun m =>
                  match phases (ctl m) seq data with
                  | (_, Some e) => (Returns (Some e), m)
                  | (ps, None) => run_or_panic scheds seq ps data m
                  end) ;;
        Unlock ;;;
        ret out
  end.

End NamedSequences.

(** Modelled from the spec: [seq.String()] as the lookup in the table of
    the names of the seven sequences, which are all the values that the
    spec gives a name to; for any other value the lookup does not
    return. *)
Definition Sequence_name_lookup (seq : Sequence) : option string :=
  if existsb (Z.eqb seq)
       [SequenceBoot; SequenceInitialize; SequenceInstall; SequenceShutdown;
        SequenceReboot; SequenceUpgrade; SequenceReset]
  then Some (Sequence_name seq)
  else None.

Definition Run_or_panic0 :=
  @Run_or_panic Markers unit unit unit Sequence_name_lookup SetupLogger_ok.

(** ** The goroutines of a phase, statement by statement *)

Section Goroutines.

Context {W Runtime UpgradeRequest ResetRequest : Type}.
Variable kmsg_SetupLogger : string -> W -> W * option error.

Notation "x <- e ;; k" := (bind e (fun x => k))
  (at level 61, e at next level, right associativity).
Notation "e ;;; k" := (bind e (fun _ => k))
  (at level 61, right associativity).

(** The first statement of [runTask]: [kmsg.SetupLogger]. *)
Definition runTask_logger (n : nat)
  : @M W Runtime UpgradeRequest ResetRequest (option error) :=
  on_world (kmsg_SetupLogger ("[talos] task " ++ itoa n ++ ":")).

(** The rest of [runTask], after a [kmsg.SetupLogger] that returned nil:
    [f(seq, data)] and, if that is a task, the call of the task. *)
Definition runTask_task (n : nat)
  (f : @TaskSetupFunc W Runtime UpgradeRequest ResetRequest) (seq : Sequence)
  (data : @Data UpgradeRequest ResetRequest)
  : @M W Runtime UpgradeRequest ResetRequest (option error) :=
  match f seq data with
  | Some task =>
      rt <- get_r ;;
      on_world (task {| prefix := "[talos] task " ++ itoa n ++ ":" |} rt)
  | None => ret None
  end.

(** A goroutine that [runPhase] has started with [eg.Go], at one of the
    five points of its way: before [log.Printf("task %s: starting")];
    in [runTask], before [kmsg.SetupLogger]; in [runTask], before the task;
    before the deferred [log.Printf("task %s: done")], [runTask] having
    returned and [res] being what the closure returns; and after the
    closure, before [errgroup] hands [res] to [errOnce] and calls
    [wg.Done].  Between any two of these points the other goroutines of the
    phase may run. *)
Inductive Goroutine : Type :=
| AtStarting (number : nat)
    (task : @TaskSetupFunc W Runtime UpgradeRequest ResetRequest)
| AtSetupLogger (number : nat)
    (task : @TaskSetupFunc W Runtime UpgradeRequest ResetRequest)
| AtTask (number : nat)
    (task : @TaskSetupFunc W Runtime UpgradeRequest ResetRequest)
| AtDone (number : nat) (res : option error)
| AtReturn (number : nat) (res : option error).

Definition goroutine_number (g : Goroutine) : nat :=
  match g with
  | AtStarting n _ | AtSetupLogger n _ | AtTask n _
  | AtDone n _ | AtReturn n _ => n
  end.

(** The group while [eg.Wait()] waits: the goroutines that have not
    finished, in the order of their start; the error kept by [errOnce]; and
    a record of what has happened, which nothing reads: the tasks in the
    order in which [runTask] returned, with its results, and the goroutines
    in the order in which they finished, with what their closures
    returned. *)
Record Waiting : Type := {
  goroutines : list Goroutine;
  err_once : option error;
  ran : list (nat * option error);
  finished : list (nat * option error)
}.

(** The goroutine at position [k] is now at [g]. *)
Definition moved (k : nat) (g : Goroutine) (st : Waiting) : Waiting :=
  {| goroutines := firstn k (goroutines st) ++ g :: skipn (S k) (goroutines st);
     err_once := err_once st; ran := ran st; finished := finished st |}.

(** What the closure returns for the result [res] of [runTask]. *)
Definition closure_result (progress : string) (res : option error)
  : option error :=
  match res with
  | Some e => Some (Errorf_task progress e)
  | None => None
  end.

(** [runTask] of the goroutine at position [k], whose task has the number
    [n], has returned [res]: the goroutine is at its deferred log line. *)
Definition returned_from_runTask (k n : nat) (progress : string)
  (res : option error) (st : Waiting) : Waiting :=
  {| goroutines :=
       goroutines (moved k (AtDone n (closure_result progress res)) st);
     err_once := err_once st;
     ran := ran st ++ [(n, res)];
     finished := finished st |}.

(** The goroutine [g], which is at position [k], goes from its point to
    the next one; from the last point it leaves the group, and a non-nil
    error is kept if none was kept before. *)
Definition goroutine_step (total : nat) (seq : Sequence)
  (data : @Data UpgradeRequest ResetRequest) (k : nat) (g : Goroutine)
  (st : Waiting) : @M W Runtime UpgradeRequest ResetRequest Waiting :=
  match g with
  | AtStarting n task =>
      log_Printf (LogTaskStarting (Sprintf_progress n total)) ;;;
      ret (moved k (AtSetupLogger n task) st)
  | AtSetupLogger n task =>
      err <- runTask_logger n ;;
      match err with
      | Some e =>
          ret (returned_from_runTask k n (Sprintf_progress n total)
                 (Some e) st)
      | None => ret (moved k (AtTask n task) st)
      end
  | AtTask n task =>
      res <- runTask_task n task seq data ;;
      ret (returned_from_runTask k n (Sprintf_progress n total) res st)
  | AtDone n res =>
      log_Printf (LogTaskDone (Sprintf_progress n total)) ;;;
      ret (moved k (AtReturn n res) st)
  | AtReturn n res =>
      ret {| goroutines := remove_nth k (goroutines st);
             err_once := match res, err_once st with
                         | Some e, None => Some e
                         | _, _ => err_once st
                         end;
             ran := ran st;
             finished := finished st ++ [(n, res)] |}
  end.

(** [fuel] steps of the goroutines: at each step the oracle's next number,
    taken modulo the number of goroutines still running, picks the one that
    takes a step.  An exhausted oracle picks the first. *)
Fixpoint eg_steps (fuel : nat) (sched : list nat) (total : nat)
  (seq : Sequence) (data : @Data UpgradeRequest ResetRequest) (st : Waiting)
  : @M W Runtime UpgradeRequest ResetRequest Waiting :=
  match fuel with
  | O => ret st
  | S fuel' =>
      match goroutines st with
      | [] => ret st
      | g0 :: _ =>
          let k := Nat.modulo (hd 0 sched) (length (goroutines st)) in
          st' <- goroutine_step total seq data k (nth k (goroutines st) g0) st ;;
          eg_steps fuel' (tl sched) total seq data st'
      end
  end.

(** The [for number, task := range phase] loop of [runPhase], from the
    0-based index [number]: the goroutines that it starts.  A goroutine
    that runs while the loop is still starting others meets nothing that it
    would not meet after the loop, which neither logs nor touches the
    machine. *)
Fixpoint started (number : nat)
  (phase : @Phase W Runtime UpgradeRequest ResetRequest) : list Goroutine :=
  match phase with
  | [] => []
  | task :: rest => AtStarting (S number) task :: started (S number) rest
  end.

(** The group when [eg.Wait()] returns: no goroutine takes more than five
    steps, so that [5 * len(phase)] steps are enough for all. *)
Definition joined (sched : list nat)
  (phase : @Phase W Runtime UpgradeRequest ResetRequest) (seq : Sequence)
  (data : @Data UpgradeRequest ResetRequest)
  : @M W Runtime UpgradeRequest ResetRequest Waiting :=
  eg_steps (5 * length phase) sched (length phase) seq data
    {| goroutines := started 0 phase; err_once := None;
       ran := []; finished := [] |}.

(** [runPhase] with its goroutines interleaved statement by statement.
    The [runPhase] above is this one under the oracles that let a
    goroutine, once picked, go all its way. *)
Definition runPhase_interleaved (sched : list nat)
  (phase : @Phase W Runtime UpgradeRequest ResetRequest) (seq : Sequence)
  (data : @Data UpgradeRequest ResetRequest)
  : @M W Runtime UpgradeRequest ResetRequest (option error) :=
  st <- joined sched phase seq data ;; ret (err_once st).

(** The most steps that a goroutine still has to take. *)
Definition steps_left (g : Goroutine) : nat :=
  match g with
  | AtStarting _ _ => 5
  | AtSetupLogger _ _ => 4
  | AtTask _ _ => 3
  | AtDone _ _ => 2
  | AtReturn _ _ => 1
  end.

(** The log lines that a goroutine has written when it is at [g]. *)
Definition lines_written (total : nat) (g : Goroutine) : list LogLine :=
  match g with
  | AtStarting _ _ => []
  | AtSetupLogger n _ | AtTask n _ | AtDone n _ =>
      [LogTaskStarting (Sprintf_progress n total)]
  | AtReturn n _ => task_lines total n
  end.

(** The number of a goroutine whose [runTask] has returned. *)
Definition ran_number (g : Goroutine) : list nat :=
  match g with
  | AtStarting _ _ | AtSetupLogger _ _ | AtTask _ _ => []
  | AtDone n _ | AtReturn n _ => [n]
  end.

(** [raw] is a result of [runTask] for the task [f] with the number [n]:
    the error of [kmsg.SetupLogger] in some machine; or, [kmsg.SetupLogger]
    having returned nil in some machine, what the rest of [runTask] returns
    in some machine. *)
Definition runTask_returns (n : nat)
  (f : @TaskSetupFunc W Runtime UpgradeRequest ResetRequest) (seq : Sequence)
  (data : @Data UpgradeRequest ResetRequest) (raw : option error) : Prop :=
  (exists e m1, fst (runTask_logger n m1) = Some e /\ raw = Some e)
  \/ ((exists m1, fst (runTask_logger n m1) = None)
      /\ exists m2, fst (runTask_task n f seq data m2) = raw).

(** A goroutine of [phase] as the record [rec] knows it: before its task
    it holds the task of its number; after [runTask] it holds what the
    closure returns for the result recorded under its number. *)
Definition goroutine_of (total : nat)
  (phase : @Phase W Runtime UpgradeRequest ResetRequest)
  (rec : list (nat * option error)) (g : Goroutine) : Prop :=
  match g with
  | AtStarting n task | AtSetupLogger n task =>
      1 <= n /\ nth_error phase (n - 1) = Some task
  | AtTask n task =>
      1 <= n /\ nth_error phase (n - 1) = Some task
      /\ exists m1, fst (runTask_logger n m1) = None
  | AtDone n res | AtReturn n res =>
      exists raw,
        In (n, raw) rec
        /\ res = closure_result (Sprintf_progress n total) raw
  end.

(** What holds of the group and the machine [m] at every step of the
    goroutines of [phase] that were started in the machine [m0]. *)
Record phase_inv (phase : @Phase W Runtime UpgradeRequest ResetRequest)
  (seq : Sequence) (data : @Data UpgradeRequest ResetRequest)
  (m0 : @Machine W Runtime UpgradeRequest ResetRequest)
  (st : Waiting) (m : @Machine W Runtime UpgradeRequest ResetRequest)
  : Prop := {
  inv_numbers :
    Permutation (List.seq 1 (length phase))
      (flat_map (fun g => [goroutine_number g]) (goroutines st)
         ++ flat_map (fun x => [fst x]) (finished st));
  inv_ran :
    Permutation (map fst (ran st))
      (flat_map ran_number (goroutines st)
         ++ flat_map (fun x => [fst x]) (finished st));
  inv_err_once :
    err_once st = option_map snd (first_failure (finished st));
  inv_goroutines :
    Forall (goroutine_of (length phase) phase (ran st)) (goroutines st);
  inv_finished :
    forall k res,
      In (k, res) (finished st) ->
      exists raw,
        In (k, raw) (ran st)
        /\ res = closure_result (Sprintf_progress k (length phase)) raw;
  inv_runTask :
    forall k raw,
      In (k, raw) (ran st) ->
      exists task,
        nth_error phase (k - 1) = Some task
        /\ runTask_returns k task seq data raw;
  inv_log :
    exists new,
      stdlog m = stdlog m0 ++ new
      /\ Permutation new
           (flat_map (lines_written (length phase)) (goroutines st)
              ++ flat_map (task_lines (length phase))
                   (map fst (finished st)));
  inv_ctl : ctl m = ctl m0
}.

End Goroutines.

Definition runPhase_interleaved0 :=
  @runPhase_interleaved Markers unit unit unit SetupLogger_ok.
Definition joined0 := @joined Markers unit unit unit SetupLogger_ok.

(** ** More of what the log says *)

(** The number of "task done" lines. *)
Definition finished_tasks (lines : list LogLine) : nat :=
  length (filter (fun line => match line with
                              | LogTaskDone _ => true
                              | _ => false
                              end) lines).

(** ** More concrete inputs *)

(** A [kmsg.SetupLogger] that fails. *)
Definition SetupLogger_fails (_ : string) (w : Markers)
  : Markers * option error :=
  (w, Some (errors_New "kmsg")).

Definition runTask0 := @runTask Markers unit unit unit.
Definition task_unit0 := @task_unit Markers unit unit unit SetupLogger_ok.
Definition crowd0 := @crowd Markers unit unit unit Sequence_name SetupLogger_ok.
Definition Run_steps0 :=
  @Run_steps Markers unit unit unit Sequence_name SetupLogger_ok.

(** A host whose [os.Stat] and [ioutil.ReadFile] answer the same for
    every path, with nothing logged and no time slept. *)
Definition host_with (stat : option host_error)
  (content : string + host_error) : Host :=
  {| os_Stat := fun _ => stat; ioutil_ReadFile := fun _ => content;
     hostlog := []; slept := 0 |}.

(** The file is missing; the file holds "5" and a newline; the file holds
    "5" and two newlines. *)
Definition host_without_file : Host :=
  host_with (Some (PathError "stat" delay_use ENOENT))
    (inr (PathError "open" delay_use ENOENT)).
Definition host_five : Host :=
  host_with None (inl (String "5" (String "010" EmptyString))).
Definition host_two_newlines : Host :=
  host_with None
    (inl (String "5" (String "010" (String "010" EmptyString)))).

(** Collaborators of [NewController] for the examples: a state that is
    always there, a parser that rejects the empty text, a runtime that is
    never nil. *)
Definition NewState0 (_ : Host) : unit + host_error := inl tt.
Definition parser0 (bytes : string) : string + host_error :=
  match bytes with
  | EmptyString => inr (host_errors_New "empty config")
  | _ => inl bytes
  end.
Definition NewRuntime0 (_ : option string) (_ : unit) : option unit := Some tt.
Definition NewController0 :=
  @NewController Markers unit unit unit unit string
    NewState0 parser0 NewRuntime0 (sequencer_with quiet_plan).

(** A time service for the examples: times are seconds, a negative time
    has no timestamp, and a client is made for every server but the empty
    one. *)
Definition TimestampProto0 (t : Z) : Z + error :=
  if (0 <=? t)%Z then inl t else inr (errors_New "timestamp: out of range").
Definition pool_client : @NTP Z :=
  {| NTP_Server := "pool"; Query := inl 100%Z; GetTime := 99%Z |}.
Definition NewNTPClient0 (server : string) : @NTP Z + error :=
  match server with
  | EmptyString => inr (errors_New "no server")
  | _ => inl pool_client
  end.
Definition Time0 := @Registrator_Time Z Z TimestampProto0.
Definition TimeCheck0 :=
  @Registrator_TimeCheck Z Z TimestampProto0 NewNTPClient0.

(** ** The oracle picks a permutation, and every permutation *)

Lemma remove_nth_length {A : Type} (l : list A) (k : nat) :
  k < length l -> length (remove_nth k l) = pred (length l).
Proof.
  revert k; induction l as [|x l IH]; intros k Hk; simpl in *.
  - lia.
  - destruct k as [|k]; [reflexivity|].
    simpl. rewrite IH by lia. destruct l; simpl in *; lia.
Qed.

Lemma remove_nth_perm {A : Type} (l : list A) (k : nat) (d : A) :
  k < length l -> Permutation (nth k l d :: remove_nth k l) l.
Proof.
  revert k; induction l as [|x l IH]; intros k Hk; simpl in *.
  - lia.
  - destruct k as [|k]; [reflexivity|].
    simpl. etransitivity; [apply perm_swap|].
    constructor. apply IH. lia.
Qed.

Lemma remove_nth_app {A : Type} (pre post : list A) (x : A) :
  remove_nth (length pre) (pre ++ x :: post) = pre ++ post.
Proof. induction pre as [|y pre IH]; simpl; [reflexivity|now rewrite IH]. Qed.

Lemma remove_nth_map {A B : Type} (f : A -> B) (l : list A) (k : nat) :
  remove_nth k (map f l) = map f (remove_nth k l).
Proof.
  revert k; induction l as [|x l IH]; intros [|k]; simpl; try reflexivity.
  now rewrite IH.
Qed.

Lemma schedule_from_perm {A : Type} (fuel : nat) :
  forall (sched : list nat) (l : list A),
    length l = fuel -> Permutation (schedule_from fuel sched l) l.
Proof.
  induction fuel as [|fuel IH]; intros sched l Hl.
  - destruct l; [constructor|discriminate].
  - destruct l as [|x l]; [discriminate|].
    cbn [schedule_from].
    set (k := Nat.modulo (hd 0 sched) (length (x :: l))).
    assert (Hk : k < length (x :: l))
      by (apply Nat.mod_upper_bound; discriminate).
    etransitivity; [|apply (remove_nth_perm (x :: l) k x Hk)].
    constructor. apply IH.
    rewrite remove_nth_length by exact Hk. simpl in *. lia.
Qed.

Lemma schedule_order_perm {A : Type} (sched : list nat) (l : list A) :
  Permutation (schedule_order sched l) l.
Proof. apply schedule_from_perm. reflexivity. Qed.

Lemma schedule_from_map {A B : Type} (f : A -> B) (fuel : nat) :
  forall (sched : list nat) (l : list A),
    schedule_from fuel sched (map f l) = map f (schedule_from fuel sched l).
Proof.
  induction fuel as [|fuel IH]; intros sched l; [reflexivity|].
  destruct l as [|x l]; [reflexivity|].
  cbn [schedule_from map]. rewrite <- (map_cons f x l).
  rewrite length_map, remove_nth_map, IH.
  rewrite (map_nth f (x :: l) x). reflexivity.
Qed.

Lemma schedule_order_map {A B : Type} (f : A -> B) (sched : list nat)
  (l : list A) :
  schedule_order sched (map f l) = map f (schedule_order sched l).
Proof. unfold schedule_order. rewrite length_map. apply schedule_from_map. Qed.

(** Every order of completion is the choice of some oracle. *)
Lemma schedule_order_complete {A : Type} (l' : list A) :
  forall l, Permutation l l' -> exists sched, schedule_order sched l = l'.
Proof.
  induction l' as [|x l' IH]; intros l HP.
  - apply Permutation_sym, Permutation_nil in HP. subst. now exists [].
  - assert (Hin : In x l)
      by (eapply Permutation_in; [symmetry; exact HP|now left]).
    destruct (in_split _ _ Hin) as (pre & post & ->).
    apply Permutation_sym, Permutation_cons_app_inv, Permutation_sym in HP.
    destruct (IH _ HP) as [sched Hs].
    exists (length pre :: sched).
    unfold schedule_order in *.
    assert (Hlen : length (pre ++ x :: post) = S (length (pre ++ post)))
      by (rewrite !length_app; simpl; lia).
    rewrite Hlen. destruct (pre ++ x :: post) as [|y rest] eqn:E.
    + destruct pre; discriminate.
    + cbn [schedule_from hd tl]. rewrite <- E.
      rewrite Nat.mod_small by (rewrite length_app; simpl; lia).
      rewrite remove_nth_app, Hs, app_nth2, Nat.sub_diag by lia.
      reflexivity.
Qed.

Lemma schedule_order_two {A : Type} (sched : list nat) (a b : A) :
  schedule_order sched [a; b] = [a; b] \/ schedule_order sched [a; b] = [b; a].
Proof.
  unfold schedule_order. cbn [length schedule_from].
  assert (Hk : Nat.modulo (hd 0 sched) 2 < 2)
    by (apply Nat.mod_upper_bound; lia).
  destruct (Nat.modulo (hd 0 sched) 2) as [|[|k]]; [| |lia].
  - left. reflexivity.
  - right. reflexivity.
Qed.

(** ** Properties *)

Section Properties.

Set Default Proof Using "Type".

Context {W Runtime UpgradeRequest ResetRequest : Type}.
Variable Runtime_Mode : Runtime -> Mode.
Variable Sequence_String : Sequence -> string.
Variable kmsg_SetupLogger : string -> W -> W * option error.

Local Abbreviation Machine := (@Machine W Runtime UpgradeRequest ResetRequest).
Local Abbreviation Controller :=
  (@Controller W Runtime UpgradeRequest ResetRequest).
Local Abbreviation M := (@M W Runtime UpgradeRequest ResetRequest).
Local Abbreviation Data := (@Data UpgradeRequest ResetRequest).
Local Abbreviation Phase := (@Phase W Runtime UpgradeRequest ResetRequest).
Local Abbreviation TaskSetupFunc :=
  (@TaskSetupFunc W Runtime UpgradeRequest ResetRequest).
Local Abbreviation Call := (@Call UpgradeRequest ResetRequest).
Local Abbreviation runTask :=
  (@runTask W Runtime UpgradeRequest ResetRequest kmsg_SetupLogger).
Local Abbreviation task_unit :=
  (@task_unit W Runtime UpgradeRequest ResetRequest kmsg_SetupLogger).
Local Abbreviation launch :=
  (@launch W Runtime UpgradeRequest ResetRequest kmsg_SetupLogger).
Local Abbreviation numbered_units :=
  (@numbered_units W Runtime UpgradeRequest ResetRequest kmsg_SetupLogger).
Local Abbreviation runPhase :=
  (@runPhase W Runtime UpgradeRequest ResetRequest kmsg_SetupLogger).
Local Abbreviation runPhase_spec :=
  (@runPhase_spec W Runtime UpgradeRequest ResetRequest kmsg_SetupLogger).
Local Abbreviation run_loop :=
  (@run_loop W Runtime UpgradeRequest ResetRequest
     Sequence_String kmsg_SetupLogger).
Local Abbreviation run :=
  (@run W Runtime UpgradeRequest ResetRequest
     Sequence_String kmsg_SetupLogger).
Local Abbreviation Run_locked :=
  (@Run_locked W Runtime UpgradeRequest ResetRequest
     Sequence_String kmsg_SetupLogger).
Local Abbreviation Run :=
  (@Run W Runtime UpgradeRequest ResetRequest
     Sequence_String kmsg_SetupLogger).
Local Abbreviation Run_step :=
  (@Run_step W Runtime UpgradeRequest ResetRequest
     Sequence_String kmsg_SetupLogger).
Local Abbreviation Run_steps :=
  (@Run_steps W Runtime UpgradeRequest ResetRequest
     Sequence_String kmsg_SetupLogger).
Local Abbreviation step_two :=
  (@step_two W Runtime UpgradeRequest ResetRequest
     Sequence_String kmsg_SetupLogger).
Local Abbreviation interleave :=
  (@interleave W Runtime UpgradeRequest ResetRequest
     Sequence_String kmsg_SetupLogger).
Local Abbreviation shutdown :=
  (@shutdown W Runtime UpgradeRequest ResetRequest
     Sequence_String kmsg_SetupLogger).
Local Abbreviation on_event :=
  (@on_event W Runtime UpgradeRequest ResetRequest
     Sequence_String kmsg_SetupLogger).
Local Abbreviation ListenForEvents :=
  (@ListenForEvents W Runtime UpgradeRequest ResetRequest
     Runtime_Mode Sequence_String kmsg_SetupLogger).

(** *** The monad *)

Lemma bind_run {A B : Type} (x : M A) (k : A -> M B) (m : Machine) :
  bind x k m = k (fst (x m)) (snd (x m)).
Proof. unfold bind. destruct (x m). reflexivity. Qed.

Lemma with_semaphore_same (m : Machine) :
  with_semaphore (semaphore (ctl m)) m = m.
Proof. destruct m as [[cr cs sem] lg w]. reflexivity. Qed.

Lemma with_semaphore_id (v : Z) (m : Machine) :
  semaphore (ctl m) = v -> with_semaphore v m = m.
Proof. intros <-. apply with_semaphore_same. Qed.

Lemma with_semaphore_twice (v v' : Z) (m : Machine) :
  with_semaphore v (with_semaphore v' m) = with_semaphore v m.
Proof. reflexivity. Qed.

(** *** The lock *)

Lemma TryLock_free (m : Machine) :
  semaphore (ctl m) = 0%Z -> TryLock m = (false, with_semaphore 1 m).
Proof.
  intros H. unfold TryLock, cas_semaphore, CompareAndSwapInt32, bind, ret.
  rewrite H. reflexivity.
Qed.

Lemma TryLock_held (m : Machine) :
  semaphore (ctl m) <> 0%Z -> TryLock m = (true, m).
Proof.
  intros H. unfold TryLock, cas_semaphore, CompareAndSwapInt32, bind, ret.
  apply Z.eqb_neq in H. rewrite H. now rewrite with_semaphore_same.
Qed.

Lemma Unlock_held (m : Machine) :
  semaphore (ctl m) = 1%Z -> Unlock m = (true, with_semaphore 0 m).
Proof.
  intros H. unfold Unlock, cas_semaphore, CompareAndSwapInt32.
  rewrite H. reflexivity.
Qed.

Lemma Unlock_other (m : Machine) :
  semaphore (ctl m) <> 1%Z -> Unlock m = (false, m).
Proof.
  intros H. unfold Unlock, cas_semaphore, CompareAndSwapInt32.
  apply Z.eqb_neq in H. rewrite H. now rewrite with_semaphore_same.
Qed.

(** C7: [TryLock] returns true exactly when the lock was already held and
    false when the caller has just acquired it.  From a free lock two
    calls of [TryLock] in a row return false, then true; after [Unlock],
    [TryLock] returns false again; an [Unlock] of a free lock returns (it
    cannot panic: it is a compare-and-swap) and leaves the machine as it
    was.  Neither operation touches anything but the flag. *)
Theorem TryLock_Unlock_flag (m : Machine) :
  semaphore (ctl m) = 0%Z \/ semaphore (ctl m) = 1%Z ->
  (fst (TryLock m) = true <-> semaphore (ctl m) = 1%Z)
  /\ (fst (TryLock m) = false <-> semaphore (ctl m) = 0%Z)
  /\ snd (TryLock m) = with_semaphore 1 m
  /\ (semaphore (ctl m) = 0%Z ->
      fst (TryLock m) = false
      /\ fst (TryLock (snd (TryLock m))) = true
      /\ snd (TryLock (snd (TryLock m))) = snd (TryLock m)
      /\ fst (TryLock (snd (Unlock (snd (TryLock m))))) = false
      /\ Unlock m = (false, m))
  /\ snd (Unlock m) = with_semaphore 0 m.
Proof.
  intros [H | H].
  - rewrite (TryLock_free m H), (Unlock_other m) by lia. cbn [fst snd].
    rewrite TryLock_held by (cbn; lia).
    rewrite Unlock_held by reflexivity. cbn [fst snd].
    rewrite TryLock_free by reflexivity. cbn [fst snd].
    rewrite (with_semaphore_id 0 m H).
    repeat split; auto; intros; try lia; try discriminate.
  - rewrite (TryLock_held m), (Unlock_held m H) by lia. cbn [fst snd].
    rewrite (with_semaphore_id 1 m H).
    repeat split; auto; intros; try lia; try discriminate.
Qed.

(** *** Nothing but the lock touches the controller *)

Lemma keeps_ctl_ret {A : Type} (a : A) : keeps_ctl (ret a : M A).
Proof. intros m. reflexivity. Qed.

Lemma keeps_ctl_bind {A B : Type} (x : M A) (k : A -> M B) :
  keeps_ctl x -> (forall a, keeps_ctl (k a)) -> keeps_ctl (bind x k).
Proof.
  intros Hx Hk m. rewrite bind_run, Hk. apply Hx.
Qed.

Lemma keeps_ctl_log (line : LogLine) : keeps_ctl (log_Printf line : M unit).
Proof. intros m. reflexivity. Qed.

Lemma keeps_ctl_on_world {A : Type} (f : W -> W * A) :
  keeps_ctl (on_world f : M A).
Proof. intros m. unfold on_world. destruct (f (world m)). reflexivity. Qed.

Lemma keeps_ctl_get_r : keeps_ctl (get_r : M (option Runtime)).
Proof. intros m. reflexivity. Qed.

Create HintDb frame.
#[local] Hint Resolve keeps_ctl_ret keeps_ctl_log keeps_ctl_on_world
  keeps_ctl_get_r : frame.

Ltac frame :=
  repeat (first [ solve [auto with frame]
                | apply keeps_ctl_bind; [|intros ?] ]).

Lemma keeps_ctl_runTask n (f : TaskSetupFunc) seq (data : Data) :
  keeps_ctl (runTask n f seq data).
Proof.
  unfold runTask. frame.
  destruct a; [frame|]. destruct (f seq data); frame.
Qed.

#[local] Hint Resolve keeps_ctl_runTask : frame.

Lemma keeps_ctl_task_unit total seq (data : Data) number
  (task : TaskSetupFunc) :
  keeps_ctl (task_unit total seq data number task).
Proof.
  unfold task_unit. frame.
Qed.

Lemma keeps_ctl_eg_join (fs : list (M (option error))) :
  Forall keeps_ctl fs -> forall kept, keeps_ctl (eg_join fs kept).
Proof.
  induction 1 as [|f fs Hf _ IH]; intros kept; cbn [eg_join]; [frame|].
  unfold eg_finish. frame.
Qed.

Lemma launch_running total seq (data : Data) (phase : Phase) :
  forall number eg,
    eg_running (launch total seq data number phase eg)
    = eg_running eg ++ map snd (numbered_units total seq data number phase).
Proof.
  induction phase as [|task rest IH]; intros number eg; cbn.
  - now rewrite app_nil_r.
  - rewrite IH. cbn. now rewrite <- app_assoc.
Qed.

Lemma launch_err total seq (data : Data) (phase : Phase) :
  forall number eg,
    eg_err (launch total seq data number phase eg) = eg_err eg.
Proof.
  induction phase as [|task rest IH]; intros number eg; cbn; [reflexivity|].
  now rewrite IH.
Qed.

Lemma numbered_units_keep total seq (data : Data) (phase : Phase) :
  forall number,
    Forall keeps_ctl (map snd (numbered_units total seq data number phase)).
Proof.
  induction phase as [|task rest IH]; intros number; cbn; constructor.
  - apply keeps_ctl_task_unit.
  - apply IH.
Qed.

Lemma keeps_ctl_runPhase sched (phase : Phase) seq (data : Data) :
  keeps_ctl (runPhase sched phase seq data).
Proof.
  unfold runPhase, eg_Wait. apply keeps_ctl_eg_join.
  eapply Permutation_Forall; [symmetry; apply schedule_order_perm|].
  rewrite launch_running. apply numbered_units_keep.
Qed.

Lemma keeps_ctl_run_loop seq (data : Data) total (phases : list Phase) :
  forall scheds number,
    keeps_ctl (run_loop scheds seq data total number phases).
Proof.
  induction phases as [|phase rest IH]; intros scheds number; cbn [run_loop].
  - frame.
  - frame. apply keeps_ctl_runPhase. destruct a0; frame.
Qed.

Lemma keeps_ctl_run scheds seq (phases : list Phase) (data : Data) :
  keeps_ctl (run scheds seq phases data).
Proof. unfold run. frame. apply keeps_ctl_run_loop. Qed.

Lemma keeps_ctl_Run_locked scheds seq (data : Data) :
  keeps_ctl (Run_locked scheds seq data).
Proof.
  intros m. unfold Run_locked.
  destruct (phases (ctl m) seq data) as [ps [e|]]; [reflexivity|].
  apply keeps_ctl_run.
Qed.

(** *** The three ways through Run *)

Lemma Run_undefined scheds seq (data : Data) (m : Machine) :
  r (ctl m) = None -> Run scheds seq data m = (Some ErrUndefinedRuntime, m).
Proof.
  intros H. unfold Run. rewrite bind_run. cbn [get_r fst snd].
  rewrite H. reflexivity.
Qed.

Lemma Run_held scheds seq (data : Data) (m : Machine) rt :
  r (ctl m) = Some rt -> semaphore (ctl m) <> 0%Z ->
  Run scheds seq data m = (Some ErrLocked, m).
Proof.
  intros Hr Hs. unfold Run. rewrite bind_run. cbn [get_r fst snd].
  rewrite Hr, bind_run, TryLock_held by exact Hs. reflexivity.
Qed.

Lemma Run_free scheds seq (data : Data) (m : Machine) rt :
  r (ctl m) = Some rt -> semaphore (ctl m) = 0%Z ->
  Run scheds seq data m
  = (fst (Run_locked scheds seq data (with_semaphore 1 m)),
     with_semaphore 0 (snd (Run_locked scheds seq data (with_semaphore 1 m)))).
Proof.
  intros Hr Hs. unfold Run. rewrite bind_run. cbn [get_r fst snd].
  rewrite Hr, bind_run, TryLock_free by exact Hs. cbn [fst snd].
  rewrite !bind_run, Unlock_held; [reflexivity|].
  now rewrite keeps_ctl_Run_locked.
Qed.

(** [Run] is its four stretches one after the other. *)
Lemma Run_steps_Run (a : Call) (m : Machine) :
  Run_steps 4 a AtEntry m
  = (Returned (fst (Run (call_scheds a) (call_seq a) (call_data a) m)),
     snd (Run (call_scheds a) (call_seq a) (call_data a) m)).
Proof.
  cbn [Run_steps Run_step].
  unfold Run, bind, ret, get_r.
  destruct (r (ctl m)); cbn [Run_step]; [|reflexivity].
  unfold bind, ret.
  destruct (TryLock m) as [[|] m1]; cbn [Run_step];
    unfold bind, ret; [reflexivity|].
  destruct (Run_locked _ _ _ m1) as [res m2]. cbn [Run_step].
  unfold bind, ret. destruct (Unlock m2). reflexivity.
Qed.

Lemma run_loop_shape seq (data : Data) total (phases : list Phase) :
  forall scheds number m err,
    fst (run_loop scheds seq data total number phases m) = Some err ->
    exists k e, err = Errorf_phase k (Sequence_String seq) e.
Proof.
  induction phases as [|phase rest IH]; intros scheds number m err;
    cbn [run_loop].
  - discriminate.
  - rewrite !bind_run.
    destruct (fst (runPhase _ _ _ _ _)) as [e|].
    + cbn. intros [= <-]. eauto.
    + rewrite bind_run. apply IH.
Qed.

Lemma Run_locked_not_Locked scheds seq (data : Data) (m : Machine) :
  fst (Run_locked scheds seq data m) <> Some ErrLocked.
Proof.
  unfold Run_locked, phases.
  assert (Hrun : forall ps, fst (run scheds seq ps data m) <> Some ErrLocked).
  { intros ps H. unfold run in H. rewrite !bind_run in H. cbn in H.
    apply run_loop_shape in H. destruct H as (k & e & H). discriminate. }
  repeat match goal with
         | |- context [if ?b then _ else _] => destruct b
         | |- context [match ?d with nil_data => _ | _ => _ end] => destruct d
         end; cbn [fst]; try apply Hrun; discriminate.
Qed.

(** C5: on a controller without a runtime context [Run] returns
    [ErrUndefinedRuntime] for every sequence and every data, at once: the
    call goes from its entry straight to its return, the lock is never
    tried, and the machine (the lock with it) is as it was. *)
Theorem Run_without_runtime scheds seq (data : Data) (m : Machine) :
  r (ctl m) = None ->
  Run scheds seq data m = (Some ErrUndefinedRuntime, m)
  /\ forall a : Call,
       Run_step a AtEntry m = (Returned (Some ErrUndefinedRuntime), m).
Proof.
  intros H. split; [now apply Run_undefined|].
  intros a. cbn [Run_step]. rewrite bind_run. cbn. now rewrite H.
Qed.

(** C4: a call of [Run] that acquires the lock releases it before it
    returns, whatever it returns; so when the lock is free at the call it
    is free at the return, the controller is as it was, a following
    [TryLock] acquires, and a following [Run] does not return
    [ErrLocked]. *)
Theorem Run_releases_lock scheds seq (data : Data) (m : Machine) :
  semaphore (ctl m) = 0%Z ->
  semaphore (ctl (snd (Run scheds seq data m))) = 0%Z
  /\ ctl (snd (Run scheds seq data m)) = ctl m
  /\ (forall rt, r (ctl m) = Some rt ->
        snd (Run scheds seq data m)
        = with_semaphore 0
            (snd (Run_locked scheds seq data (with_semaphore 1 m))))
  /\ fst (TryLock (snd (Run scheds seq data m))) = false
  /\ forall scheds' seq' (data' : Data),
       fst (Run scheds' seq' data' (snd (Run scheds seq data m)))
       <> Some ErrLocked.
Proof.
  intros Hs.
  assert (Hctl : ctl (snd (Run scheds seq data m)) = ctl m).
  { destruct (r (ctl m)) as [rt|] eqn:Hr.
    - rewrite (Run_free _ _ _ _ _ Hr Hs). cbn [snd].
      unfold with_semaphore at 1. cbn [ctl].
      rewrite keeps_ctl_Run_locked. cbn.
      destruct m as [[cr cs sem] lg w]. cbn in *. now subst.
    - now rewrite Run_undefined. }
  assert (Hs' : semaphore (ctl (snd (Run scheds seq data m))) = 0%Z)
    by now rewrite Hctl.
  repeat split; auto.
  - intros rt Hr. now rewrite (Run_free _ _ _ _ _ Hr Hs).
  - now rewrite TryLock_free.
  - intros scheds' seq' data'.
    set (m' := snd (Run scheds seq data m)) in *.
    destruct (r (ctl m')) as [rt|] eqn:Hr.
    + rewrite (Run_free _ _ _ _ _ Hr Hs'). cbn [fst].
      apply Run_locked_not_Locked.
    + rewrite Run_undefined by exact Hr. discriminate.
Qed.

(** C6: for the Upgrade sequence, data that carries no UpgradePayload
    makes planning return [ErrInvalidSequenceData] and no phases, so that
    [Run] (with a runtime context and a free lock) returns that error and
    leaves the machine as it was: no task ran, nothing was logged, the
    lock is free again.  The same for Reset and ResetPayload. *)
Theorem Run_invalid_sequence_data scheds (data : Data) (m : Machine) rt :
  r (ctl m) = Some rt -> semaphore (ctl m) = 0%Z ->
  (carries_UpgradePayload data = false ->
     (forall c : Controller,
         phases c SequenceUpgrade data = ([], Some ErrInvalidSequenceData))
     /\ Run scheds SequenceUpgrade data m = (Some ErrInvalidSequenceData, m))
  /\ (carries_ResetPayload data = false ->
       (forall c : Controller,
           phases c SequenceReset data = ([], Some ErrInvalidSequenceData))
       /\ Run scheds SequenceReset data m = (Some ErrInvalidSequenceData, m)).
Proof.
  intros Hr Hs.
  assert (Hrun : forall seq,
             (forall c : Controller,
                 phases c seq data = ([], Some ErrInvalidSequenceData)) ->
             Run scheds seq data m = (Some ErrInvalidSequenceData, m)).
  { intros seq Hp. rewrite (Run_free _ _ _ _ _ Hr Hs).
    unfold Run_locked. rewrite Hp. cbn [fst snd].
    rewrite with_semaphore_twice. now rewrite (with_semaphore_id 0 m Hs). }
  split; intros Hd.
  - assert (Hp : forall c : Controller,
               phases c SequenceUpgrade data
               = ([], Some ErrInvalidSequenceData))
      by (intros c; destruct data; try discriminate Hd; reflexivity).
    auto.
  - assert (Hp : forall c : Controller,
               phases c SequenceReset data
               = ([], Some ErrInvalidSequenceData))
      by (intros c; destruct data; try discriminate Hd; reflexivity).
    auto.
Qed.

(** The switch of [phases] has no default case. *)
Lemma phases_unknown (c : Controller) seq (data : Data) :
  ~ enumerated seq -> phases c seq data = ([], None).
Proof.
  intros Hn. unfold phases. unfold enumerated in Hn. cbn [In] in Hn.
  repeat match goal with
         | |- context [Z.eqb seq ?k] =>
             destruct (Z.eqb_spec seq k) as [e|_];
               [exfalso; apply Hn; rewrite e;
                repeat (first [left; reflexivity | right])|]
         end.
  reflexivity.
Qed.

(** With a free lock and no phases, [Run] writes the two lines of an empty
    sequence and returns nil. *)
Lemma Run_no_phases scheds seq (data : Data) (m : Machine) rt :
  r (ctl m) = Some rt -> semaphore (ctl m) = 0%Z ->
  (forall c : Controller, phases c seq data = ([], None)) ->
  Run scheds seq data m
  = (None,
     {| ctl := ctl m;
        stdlog := stdlog m ++ [LogSequence (Sequence_String seq) 0;
                               LogSequenceDone (Sequence_String seq)];
        world := world m |}).
Proof.
  intros Hr Hs Hp.
  rewrite (Run_free _ _ _ _ _ Hr Hs). unfold Run_locked.
  rewrite Hp. cbn. rewrite <- app_assoc. cbn.
  destruct m as [[cr cs sem] lg w]. cbn in Hs |- *. now rewrite Hs.
Qed.

(** *** The join of a phase *)

Lemma eg_join_run_each (us : list (nat * M (option error))) :
  forall kept m,
    eg_join (map snd us) kept m
    = (match kept with
       | Some e => Some e
       | None => option_map snd (first_failure (fst (run_each us m)))
       end,
       snd (run_each us m)).
Proof.
  induction us as [|[k f] us IH]; intros kept m.
  - cbn. now destruct kept.
  - cbn [map snd eg_join run_each]. unfold eg_finish.
    rewrite !bind_run. cbn [ret fst snd]. rewrite IH.
    destruct (fst (f m)) as [e|], kept as [e'|]; reflexivity.
Qed.

Lemma run_each_numbers (us : list (nat * M (option error))) :
  forall m, map fst (fst (run_each us m)) = map fst us.
Proof.
  induction us as [|[k f] us IH]; intros m; [reflexivity|].
  cbn [run_each]. rewrite !bind_run. cbn. now rewrite IH.
Qed.

Lemma run_each_In (us : list (nat * M (option error))) :
  forall m k res,
    In (k, res) (fst (run_each us m)) ->
    exists f m1, In (k, f) us /\ res = fst (f m1).
Proof.
  induction us as [|[k0 f0] us IH]; intros m k res; [intros []|].
  cbn [run_each]. rewrite !bind_run. cbn [ret fst snd In].
  intros [[= <- <-] | H].
  - exists f0, m. auto.
  - destruct (IH _ _ _ H) as (f & m1 & Hin & ->). exists f, m1. auto.
Qed.

Lemma first_failure_In (results : list (nat * option error)) k e :
  first_failure results = Some (k, e) -> In (k, Some e) results.
Proof.
  induction results as [|[k0 [e0|]] results IH]; cbn.
  - discriminate.
  - intros [= <- <-]. now left.
  - auto.
Qed.

Lemma numbered_units_numbers total seq (data : Data) (phase : Phase) :
  forall number,
    map fst (numbered_units total seq data number phase)
    = List.seq (S number) (length phase).
Proof.
  induction phase as [|task rest IH]; intros number; cbn; [reflexivity|].
  now rewrite IH.
Qed.

Lemma numbered_units_In total seq (data : Data) (phase : Phase) :
  forall number k f,
    In (k, f) (numbered_units total seq data number phase) ->
    exists task,
      nth_error phase (k - S number) = Some task
      /\ f = task_unit total seq data k task
      /\ number < k <= number + length phase.
Proof.
  induction phase as [|task rest IH]; intros number k f; cbn; [intros []|].
  intros [[= <- <-] | H].
  - exists task. rewrite Nat.sub_diag. repeat split; auto; lia.
  - destruct (IH _ _ _ H) as (task' & Hn & Hf & Hk).
    exists task'. replace (k - S number) with (S (k - S (S number))) by lia.
    repeat split; auto; lia.
Qed.

Lemma runTask_log n (f : TaskSetupFunc) seq (data : Data) (m : Machine) :
  stdlog (snd (runTask n f seq data m)) = stdlog m.
Proof.
  unfold runTask. rewrite bind_run.
  assert (Hw : forall A (g : W -> W * A) (m0 : Machine),
             stdlog (snd (on_world g m0)) = stdlog m0).
  { intros A g m0. unfold on_world. now destruct (g (world m0)). }
  destruct (fst (on_world _ m)); [cbn; apply Hw|].
  destruct (f seq data); [|cbn; apply Hw].
  rewrite bind_run. cbn [get_r fst snd]. now rewrite !Hw.
Qed.

Lemma task_unit_log total seq (data : Data) number (task : TaskSetupFunc) :
  writes (task_unit total seq data number task) (task_lines total number).
Proof.
  intros m. unfold task_unit. rewrite !bind_run.
  cbn [ret log_Printf fst snd stdlog]. rewrite runTask_log. cbn.
  now rewrite <- app_assoc.
Qed.

Lemma task_unit_result total seq (data : Data) number (task : TaskSetupFunc) m :
  fst (task_unit total seq data number task m)
  = option_map (Errorf_task (Sprintf_progress number total))
      (fst (runTask number task seq data
              (snd (log_Printf
                      (LogTaskStarting (Sprintf_progress number total)) m)))).
Proof.
  unfold task_unit. rewrite !bind_run. cbn [ret fst snd].
  now destruct (fst (runTask _ _ _ _ _)).
Qed.

Lemma run_each_log total (us : list (nat * M (option error))) :
  (forall k f, In (k, f) us -> writes f (task_lines total k)) ->
  writes (run_each us) (flat_map (task_lines total) (map fst us)).
Proof.
  induction us as [|[k f] us IH]; intros Hw m.
  - cbn. now rewrite app_nil_r.
  - cbn [run_each]. rewrite !bind_run. cbn [ret fst snd map flat_map].
    rewrite IH by (intros; apply Hw; now right).
    rewrite (Hw k f) by now left.
    now rewrite <- app_assoc.
Qed.

Lemma runPhase_refines sched (phase : Phase) seq (data : Data) (m : Machine) :
  runPhase sched phase seq data m = runPhase_spec sched phase seq data m.
Proof.
  unfold runPhase, runPhase_spec, eg_Wait.
  rewrite launch_running, launch_err. cbn [eg_zero eg_running eg_err app].
  rewrite schedule_order_map, eg_join_run_each, bind_run. reflexivity.
Qed.

Lemma runPhase_log sched (phase : Phase) seq (data : Data) :
  writes (runPhase sched phase seq data)
    (flat_map (task_lines (length phase))
       (schedule_order sched (List.seq 1 (length phase)))).
Proof.
  intros m. rewrite runPhase_refines. unfold runPhase_spec.
  rewrite bind_run. cbn [ret snd].
  rewrite (run_each_log (length phase)).
  - rewrite <- schedule_order_map, numbered_units_numbers. reflexivity.
  - intros k f Hin.
    apply (Permutation_in _ (schedule_order_perm _ _)) in Hin.
    apply numbered_units_In in Hin. destruct Hin as (task & _ & -> & _).
    apply task_unit_log.
Qed.

(** *** The phase loop *)

Lemma started_phases_app (l1 l2 : list LogLine) :
  started_phases (l1 ++ l2) = started_phases l1 ++ started_phases l2.
Proof. apply flat_map_app. Qed.

Lemma started_phases_tasks total (ks : list nat) :
  started_phases (flat_map (task_lines total) ks) = [].
Proof. induction ks as [|k ks IH]; cbn; auto. Qed.

Lemma nth_tl {A : Type} (l : list A) (k : nat) (d : A) :
  nth k (tl l) d = nth (S k) l d.
Proof. destruct l; [now destruct k|reflexivity]. Qed.

Lemma run_loop_trace seq (data : Data) total (phases : list Phase) :
  forall scheds number m,
  exists j new,
    stdlog (snd (run_loop scheds seq data total number phases m))
    = stdlog m ++ new
    /\ j <= length phases
    /\ started_phases new
       = map (fun k => Sprintf_progress k total) (List.seq (S number) j)
    /\ match fst (run_loop scheds seq data total number phases m) with
       | None => j = length phases
       | Some err =>
           exists phase e m1,
             1 <= j
             /\ nth_error phases (j - 1) = Some phase
             /\ runPhase (nth (j - 1) scheds []) phase seq data m1
                = (Some e, snd (run_loop scheds seq data total number phases m))
             /\ err = Errorf_phase (number + j) (Sequence_String seq) e
       end.
Proof.
  induction phases as [|phase rest IH]; intros scheds number m.
  - exists 0, []. cbn. rewrite app_nil_r. auto.
  - cbn [run_loop]. rewrite !bind_run.
    set (m1 := snd (log_Printf _ m)).
    pose proof (runPhase_log (hd [] scheds) phase seq data m1) as Hlog.
    destruct (runPhase (hd [] scheds) phase seq data m1) as [[e|] m2] eqn:Hrun;
      cbn [fst snd] in *.
    + exists 1. eexists. cbn [ret fst snd].
      split; [rewrite Hlog; subst m1; cbn; rewrite <- app_assoc; reflexivity|].
      split; [cbn; lia|].
      split.
      { rewrite started_phases_app, started_phases_tasks. reflexivity. }
      exists phase, e, m1. cbn. rewrite Nat.add_1_r.
      repeat split; auto. destruct scheds; exact Hrun.
    + rewrite bind_run. set (m3 := snd (log_Printf _ m2)).
      destruct (IH (tl scheds) (S number) m3)
        as (j & new & Hl & Hj & Hs & Hres).
      exists (S j). eexists.
      split.
      { rewrite Hl. subst m3. cbn [log_Printf snd stdlog]. rewrite Hlog.
        subst m1. cbn [log_Printf snd stdlog]. rewrite <- !app_assoc.
        reflexivity. }
      split; [cbn; lia|].
      split.
      { rewrite !started_phases_app, started_phases_tasks, Hs. reflexivity. }
      destruct (fst (run_loop (tl scheds) seq data total (S number) rest m3))
        as [err|]; [|cbn; lia].
      destruct Hres as (ph & e & m4 & H1 & Hn & Hr & ->).
      exists ph, e, m4. rewrite nth_tl in Hr.
      replace (S j - 1) with (S (j - 1)) by lia.
      repeat split; auto; try lia.
      f_equal. lia.
Qed.

(** What the log of [run] says: the phases whose start is logged are
    exactly the first [j] of the plan, in order; [j] is the number of phases
    when [run] returns nil, and the index of a phase for which [runPhase]
    returned an error when [run] returns an error. *)
Lemma run_log_in_order
  scheds seq (phases : list Phase) (data : Data) (m : Machine) :
  let n := length phases in
  let m' := snd (run scheds seq phases data m) in
  exists j new,
    stdlog m' = stdlog m ++ new
    /\ j <= n
    /\ started_phases new
       = map (fun k => Sprintf_progress k n) (List.seq 1 j)
    /\ match fst (run scheds seq phases data m) with
       | None => j = n
       | Some err =>
           exists phase e m1 m2,
             1 <= j
             /\ nth_error phases (j - 1) = Some phase
             /\ runPhase (nth (j - 1) scheds []) phase seq data m1
                = (Some e, m2)
             /\ err = Errorf_phase j (Sequence_String seq) e
             /\ Unwrap err = Some e
             /\ m' = snd (log_Printf (LogSequenceDone (Sequence_String seq)) m2)
       end.
Proof.
  intros n m'. subst n m'. unfold run. rewrite !bind_run.
  cbn [ret fst snd].
  set (m0 := snd (log_Printf _ m)).
  destruct (run_loop_trace seq data (length phases) phases scheds 0 m0)
    as (j & new & Hl & Hj & Hs & Hres).
  exists j. eexists.
  split.
  { cbn [log_Printf snd stdlog]. rewrite Hl. subst m0.
    cbn [log_Printf snd stdlog]. rewrite <- !app_assoc. reflexivity. }
  split; [exact Hj|].
  split.
  { unfold started_phases in *. cbn [app flat_map].
    rewrite flat_map_app. cbn. rewrite app_nil_r. exact Hs. }
  destruct (fst (run_loop scheds seq data (length phases) 0 phases m0))
    as [err|]; [|exact Hres].
  destruct Hres as (ph & e & m1 & H1 & Hn & Hr & ->).
  exists ph, e, m1. eexists. repeat split; eauto.
Qed.

Lemma hd_skipn {A : Type} (k : nat) :
  forall (l : list A) (d : A), hd d (skipn k l) = nth k l d.
Proof.
  induction k as [|k IH]; intros [|x l] d; cbn; auto.
Qed.

(** The loop over [pre ++ rest] is the loop over [pre] and, if that found
    no failure, the loop over [rest] from where it stopped. *)
Lemma run_loop_app seq (data : Data) total (pre rest : list Phase) :
  forall scheds number m,
    run_loop scheds seq data total number (pre ++ rest) m
    = match run_loop scheds seq data total number pre m with
      | (Some e, m1) => (Some e, m1)
      | (None, m1) =>
          run_loop (skipn (length pre) scheds) seq data total
            (number + length pre) rest m1
      end.
Proof.
  induction pre as [|phase pre IH]; intros scheds number m.
  - cbn. now rewrite Nat.add_0_r.
  - cbn [app run_loop length]. rewrite !bind_run.
    destruct (runPhase (hd [] scheds) phase seq data _) as [[e|] m2];
      cbn [fst snd]; [reflexivity|].
    rewrite !bind_run. cbn [fst snd]. rewrite IH.
    replace (S number + length pre) with (number + S (length pre)) by lia.
    destruct scheds; [|reflexivity].
    cbn [tl]. now rewrite !skipn_nil.
Qed.

(** C1: [run] executes the phases strictly in order and stops at the first
    one that fails.  Let the phases before [p] have run, in order, and none
    of them have failed; [run] then starts [p], the phase with the 1-based
    index [k], in the machine that they left.  If [runPhase] returns an
    error [e] for [p], [run] returns at once: its result is the error that
    wraps [e] with the index [k] and the name of the sequence, whatever the
    phases behind [p] are; the machine at the return is the one that the
    failing [runPhase] left, plus the last log line, and the phases whose
    start is logged are 1, ..., [k]: no later phase was started.  If
    [runPhase] returns nil, the loop goes on behind [p] (the phases up to
    [p] have run and none has failed), and [run] returns nil when [p] is the
    last phase. *)
Theorem run_in_order_stops_at_first_failure
  scheds seq (pre : list Phase) (p : Phase) (post : list Phase) (data : Data)
  (m m1 : Machine) :
  let phases := pre ++ p :: post in
  let n := length phases in
  let k := S (length pre) in
  let name := Sequence_String seq in
  let m0 := snd (log_Printf (LogSequence name n) m) in
  run_loop scheds seq data n 0 pre m0 = (None, m1) ->
  let mp := snd (log_Printf (LogPhase (Sprintf_progress k n) (length p)) m1) in
  let out := runPhase (nth (length pre) scheds []) p seq data mp in
  (forall e,
      fst out = Some e ->
      run scheds seq phases data m
      = (Some (Errorf_phase k name e),
         snd (log_Printf (LogSequenceDone name) (snd out)))
      /\ Unwrap (Errorf_phase k name e) = Some e
      /\ exists new,
          stdlog (snd (run scheds seq phases data m)) = stdlog m ++ new
          /\ started_phases new
             = map (fun i => Sprintf_progress i n) (List.seq 1 k))
  /\ (fst out = None ->
      let m2 := snd (log_Printf (LogPhaseDone (Sprintf_progress k n))
                       (snd out)) in
      run_loop scheds seq data n 0 (pre ++ [p]) m0 = (None, m2)
      /\ (post = [] ->
          run scheds seq phases data m
          = (None, snd (log_Printf (LogSequenceDone name) m2)))).
Proof.
  intros phases n k name m0 Hpre mp out.
  assert (Hloop : forall rest,
             run_loop scheds seq data n 0 (pre ++ p :: rest) m0
             = match fst out with
               | Some e => (Some (Errorf_phase k name e), snd out)
               | None =>
                   run_loop (tl (skipn (length pre) scheds)) seq data n k rest
                     (snd (log_Printf (LogPhaseDone (Sprintf_progress k n))
                             (snd out)))
               end).
  { intros rest. rewrite run_loop_app, Hpre. cbn [run_loop Nat.add].
    rewrite !bind_run, hd_skipn. fold k mp out.
    destruct (fst out) as [e|]; [reflexivity|].
    now rewrite bind_run. }
  split.
  - intros e He.
    assert (Hrun : run scheds seq phases data m
                   = (Some (Errorf_phase k name e),
                      snd (log_Printf (LogSequenceDone name) (snd out)))).
    { unfold run. rewrite !bind_run. fold n name m0. unfold phases.
      rewrite Hloop, He. reflexivity. }
    split; [exact Hrun|]. split; [reflexivity|].
    destruct (run_log_in_order scheds seq phases data m)
      as (j & new & Hl & _ & Hs & Hres).
    exists new. split; [exact Hl|].
    rewrite Hrun in Hres. cbn [fst] in Hres.
    destruct Hres as (_ & e' & _ & _ & _ & _ & _ & Herr & _).
    injection Herr as <- _. exact Hs.
  - intros He m2. split.
    + rewrite Hloop, He. reflexivity.
    + intros ->. unfold run. rewrite !bind_run. fold n name m0. unfold phases.
      rewrite Hloop, He. reflexivity.
Qed.

(** *** Two calls of Run on one controller *)

Lemma step_entry (a : Call) (m : Machine) :
  r (ctl m) <> None -> Run_step a AtEntry m = (AtTryLock, m).
Proof.
  intros H. cbn [Run_step]. rewrite bind_run. cbn.
  destruct (r (ctl m)); [reflexivity|contradiction].
Qed.

Lemma step_trylock_free (a : Call) (m : Machine) :
  semaphore (ctl m) = 0%Z ->
  Run_step a AtTryLock m = (AtPhases, with_semaphore 1 m).
Proof.
  intros H. cbn [Run_step].
  rewrite bind_run, TryLock_free by exact H. reflexivity.
Qed.

Lemma step_trylock_held (a : Call) (m : Machine) :
  semaphore (ctl m) <> 0%Z ->
  Run_step a AtTryLock m = (Returned (Some ErrLocked), m).
Proof.
  intros H. cbn [Run_step].
  rewrite bind_run, TryLock_held by exact H. reflexivity.
Qed.

Lemma step_phases (a : Call) (m : Machine) :
  Run_step a AtPhases m
  = (AtUnlock (fst (Run_locked (call_scheds a) (call_seq a) (call_data a) m)),
     snd (Run_locked (call_scheds a) (call_seq a) (call_data a) m)).
Proof. cbn [Run_step]. now rewrite bind_run. Qed.

Lemma step_unlock (a : Call) res (m : Machine) :
  semaphore (ctl m) = 1%Z ->
  Run_step a (AtUnlock res) m = (Returned res, with_semaphore 0 m).
Proof.
  intros H. cbn [Run_step].
  rewrite bind_run, Unlock_held by exact H. reflexivity.
Qed.

Lemma lock_inv_sym (p q : Pc) (m : Machine) : lock_inv p q m -> lock_inv q p m.
Proof.
  unfold lock_inv. intros (Hr & Hs & Hm & Hp & Hq & Hpl & Hql).
  rewrite orb_comm, andb_comm. tauto.
Qed.

Lemma lock_inv_step (a : Call) (p q : Pc) (m : Machine) :
  lock_inv p q m ->
  lock_inv (fst (Run_step a p m)) q (snd (Run_step a p m)).
Proof.
  unfold lock_inv. intros (Hr & Hs & Hm & Hp & Hq & Hpl & Hql).
  destruct p as [| | |res|res].
  - rewrite step_entry by exact Hr. cbn [fst snd] in *.
    repeat split; auto. discriminate.
  - cbn [holds_lock orb andb] in *.
    destruct (holds_lock q) eqn:Hh.
    + rewrite step_trylock_held by lia. cbn [fst snd holds_lock orb andb].
      rewrite ?Hh. repeat split; auto.
      * intros _. destruct q; cbn in *; auto; discriminate.
      * intros ->. discriminate.
    + rewrite step_trylock_free by exact Hs.
      cbn [fst snd holds_lock orb andb]. rewrite ?Hh.
      repeat split; cbn; auto. discriminate.
  - rewrite step_phases. cbn [fst snd holds_lock orb andb] in *.
    rewrite keeps_ctl_Run_locked.
    repeat split; cbn; auto; try apply Run_locked_not_Locked;
      [discriminate | intros _; apply Run_locked_not_Locked].
  - cbn [holds_lock orb andb] in *.
    rewrite step_unlock by exact Hs. cbn [fst snd holds_lock orb andb].
    rewrite Hm. repeat split; cbn in *; auto. congruence.
  - cbn. repeat split; auto.
Qed.

Lemma lock_inv_interleave (a b : Call) (who : list bool) :
  forall p q m,
    lock_inv p q m ->
    lock_inv (fst (fst (interleave a b who (p, q) m)))
      (snd (fst (interleave a b who (p, q) m)))
      (snd (interleave a b who (p, q) m)).
Proof.
  induction who as [|w who IH]; intros p q m H; [exact H|].
  cbn [interleave]. rewrite bind_run.
  destruct w; unfold step_two; rewrite bind_run; cbn [ret fst snd].
  - apply IH. now apply lock_inv_step.
  - apply IH. apply lock_inv_sym. apply lock_inv_step. now apply lock_inv_sym.
Qed.

(** C3, as the code has it: on a controller that has a runtime context,
    [Run] called while the lock is held returns [ErrLocked] after the
    test of [c.r] and the failed [TryLock], its only two steps: it never
    reaches the planning, and the machine is as it was (nothing ran,
    nothing was logged, the flag is still set).  Of two calls of [Run]
    that start while the lock is free, under every interleaving of their
    steps: never both are between acquire and release; the flag is set
    exactly while one of them is; a call that tries the lock while the other
    holds it returns [ErrLocked] and leaves the machine as it is; and not
    both are turned away. *)
Theorem Run_single_flight (m : Machine) rt :
  r (ctl m) = Some rt ->
  (semaphore (ctl m) = 1%Z ->
   forall a : Call,
     Run (call_scheds a) (call_seq a) (call_data a) m = (Some ErrLocked, m)
     /\ Run_steps 2 a AtEntry m = (Returned (Some ErrLocked), m))
  /\ (semaphore (ctl m) = 0%Z ->
      forall (a b : Call) (who : list bool),
        let p := fst (fst (interleave a b who (AtEntry, AtEntry) m)) in
        let q := snd (fst (interleave a b who (AtEntry, AtEntry) m)) in
        let m' := snd (interleave a b who (AtEntry, AtEntry) m) in
        holds_lock p && holds_lock q = false
        /\ semaphore (ctl m')
           = (if holds_lock p || holds_lock q then 1 else 0)%Z
        /\ (holds_lock p = true -> q = AtTryLock ->
            Run_step b q m' = (Returned (Some ErrLocked), m'))
        /\ (holds_lock q = true -> p = AtTryLock ->
            Run_step a p m' = (Returned (Some ErrLocked), m'))
        /\ ~ (p = Returned (Some ErrLocked) /\ q = Returned (Some ErrLocked))).
Proof.
  intros Hr. split.
  - intros Hs a. split; [apply (Run_held _ _ _ _ rt); [exact Hr|lia]|].
    cbn [Run_steps]. rewrite bind_run, step_entry by congruence.
    cbn [fst snd]. rewrite bind_run, step_trylock_held by lia. reflexivity.
  - intros Hs a b who p q m'.
    assert (H0 : lock_inv AtEntry AtEntry m).
    { unfold lock_inv. cbn. repeat split; auto; try congruence; discriminate. }
    apply (lock_inv_interleave a b who) in H0. fold p q m' in H0.
    destruct H0 as (Hr' & Hs' & Hm & Hp & Hq & Hpl & Hql).
    repeat split; auto.
    + intros Hh ->. apply step_trylock_held. rewrite Hs', Hh. cbn. lia.
    + intros Hh ->. apply step_trylock_held. rewrite Hs', Hh, orb_true_r. lia.
    + intros [Ep Eq]. specialize (Hpl Ep). rewrite Eq in Hpl. cbn in Hpl.
      congruence.
Qed.

(** *** The event listener *)

Lemma shutdown_sends_nil line scheds (m : Machine) :
  fst (shutdown line scheds m) = None.
Proof.
  unfold shutdown. rewrite !bind_run. reflexivity.
Qed.

Lemma shutdown_logs_error line scheds (m : Machine) e :
  fst (Run scheds SequenceShutdown nil_data (snd (log_Printf line m)))
  = Some e ->
  stdlog (snd (shutdown line scheds m))
  = stdlog (snd (Run scheds SequenceShutdown nil_data
                   (snd (log_Printf line m))))
      ++ [LogShutdownFailed e].
Proof.
  intros H. unfold shutdown. rewrite !bind_run, H. reflexivity.
Qed.

(** C9: [ListenForEvents] never returns the error of the shutdown [Run]
    that it triggers.  The goroutine of the signal and the goroutine of a
    power event that came without error both send nil on [errCh] whatever
    [Run] returned, after logging that error; an error of the power-event
    source is sent as it is, and [Run] is not called.  Hence a non-nil
    error returned by [ListenForEvents] is the error of the power-event
    source, and what it returns is fixed by the first sender alone. *)
Theorem ListenForEvents_discards_shutdown_error events scheds (m : Machine) :
  (forall line,
      fst (shutdown line scheds m) = None
      /\ forall e,
          fst (Run scheds SequenceShutdown nil_data (snd (log_Printf line m)))
          = Some e ->
          stdlog (snd (shutdown line scheds m))
          = stdlog (snd (Run scheds SequenceShutdown nil_data
                           (snd (log_Printf line m))))
              ++ [LogShutdownFailed e])
  /\ on_event SIGTERM scheds m = shutdown LogSIGTERM scheds m
  /\ on_event (ACPI None) scheds m = shutdown LogACPI scheds m
  /\ (forall e, on_event (ACPI (Some e)) scheds m = (Some e, m))
  /\ (forall e,
        fst (ListenForEvents events scheds m) = Returns (Some e) ->
        exists rest, events = ACPI (Some e) :: rest)
  /\ (forall rt ev rest,
        r (ctl m) = Some rt -> Runtime_Mode rt <> ModeContainer ->
        events = ev :: rest ->
        fst (ListenForEvents events scheds m)
        = Returns (match ev with ACPI (Some e) => Some e | _ => None end)).
Proof.
  split.
  { intros line. split; [apply shutdown_sends_nil|].
    intros e. apply shutdown_logs_error. }
  do 3 (split; [reflexivity|]).
  unfold ListenForEvents. rewrite bind_run. cbn [get_r fst snd].
  split.
  - intros e. destruct (r (ctl m)) as [rt|]; [|discriminate].
    destruct (Mode_eqb (Runtime_Mode rt) ModeContainer); [discriminate|].
    destruct events as [|[|[e'|]] rest]; try discriminate.
    + rewrite bind_run. cbn [ret fst on_event].
      now rewrite shutdown_sends_nil.
    + cbn. intros [= <-]. eauto.
    + rewrite bind_run. cbn [ret fst on_event].
      now rewrite shutdown_sends_nil.
  - intros rt ev rest Hr Hm ->. rewrite Hr.
    assert (Hc : Mode_eqb (Runtime_Mode rt) ModeContainer = false)
      by (destruct (Runtime_Mode rt); [reflexivity|contradiction|reflexivity]).
    rewrite Hc, bind_run. cbn [ret fst].
    destruct ev as [|[e|]]; cbn [on_event];
      [now rewrite shutdown_sends_nil | reflexivity
      | now rewrite shutdown_sends_nil].
Qed.

End Properties.

(** ** The scenarios *)

Lemma shutdown_scenario_orders (scheds : list (list nat)) :
  let m := machine_with (Some tt) shutdown_plan 0 in
  Run0 scheds SequenceShutdown nil_data m
  = Run0 [[0]] SequenceShutdown nil_data m
  \/ Run0 scheds SequenceShutdown nil_data m
     = Run0 [[1]] SequenceShutdown nil_data m.
Proof.
  intros m. subst m.
  remember (Run0 [[0]] SequenceShutdown nil_data
              (machine_with (Some tt) shutdown_plan 0)) as out0 eqn:E0.
  remember (Run0 [[1]] SequenceShutdown nil_data
              (machine_with (Some tt) shutdown_plan 0)) as out1 eqn:E1.
  unfold Run0, machine_with.
  rewrite (Run_free _ _ _ _ _ _ tt) by reflexivity.
  unfold Run_locked. cbn -[run]. unfold run.
  rewrite !bind_run. cbn [run_loop shutdown_plan length]. rewrite !bind_run.
  unfold runPhase, eg_Wait.
  cbn [launch length eg_Go eg_running eg_zero app eg_err].
  destruct (schedule_order_two (hd [] scheds)
              (task_unit SetupLogger_ok 2 SequenceShutdown (@nil_data unit unit)
                 1 (succeeds "A"))
              (task_unit SetupLogger_ok 2 SequenceShutdown (@nil_data unit unit)
                 2 (succeeds "B"))) as [E | E]; rewrite E; [left | right];
    subst; vm_compute; reflexivity.
Qed.

(** C8, as the code has it: in the shutdown scenario, under every order in
    which A and B finish, [Run] returns the error whose message is
    "error running phase 2 in shutdown sequence: task 1/1: failed, disk
    busy": it names phase 2 and the shutdown sequence, and task 1 of 1, and
    wraps "disk busy"; the number of phases is in the log line of the phase
    only.  The markers of A and B are both set at the return, their two
    "done" lines are written before phase 2 starts, and the lock is free. *)
Theorem shutdown_scenario (scheds : list (list nat)) :
  let out := Run0 scheds SequenceShutdown nil_data free_machine in
  fst out = Some (Errorf_phase 2 "shutdown"
                    (Errorf_task "1/1" (errors_New "disk busy")))
  /\ message (fst out)
     = "error running phase 2 in shutdown sequence: task 1/1: failed, disk busy"
  /\ Unwrap (Errorf_task "1/1" (errors_New "disk busy"))
     = Some (errors_New "disk busy")
  /\ Permutation (world (snd out)) ["A"; "B"]
  /\ (exists before after,
        stdlog (snd out) = before ++ LogPhase "2/2" 1 :: after
        /\ In (LogTaskDone "1/2") before /\ In (LogTaskDone "2/2") before)
  /\ semaphore (ctl (snd out)) = 0%Z.
Proof.
  intros out. subst out. unfold free_machine.
  destruct (shutdown_scenario_orders scheds) as [-> | ->];
    match goal with
    | |- context [Run0 ?sch _ _ _] =>
        set (out := Run0 sch SequenceShutdown nil_data
                      (machine_with (Some tt) shutdown_plan 0))
    end;
    (split; [reflexivity|]); (split; [reflexivity|]);
    (split; [reflexivity|]);
    (split; [vm_compute; first [reflexivity | apply perm_swap]|]);
    (split; [|reflexivity]);
    exists (firstn 7 (stdlog (snd out))), (skipn 8 (stdlog (snd out)));
    vm_compute; intuition.
Qed.

(** The message of the scenario is the same when the plan has a third
    phase: it does not tell how many phases there are. *)
Lemma shutdown_message_without_phase_count :
  length shutdown_plan = 2 /\ length shutdown_plan3 = 3
  /\ shutdown_message shutdown_plan
     = "error running phase 2 in shutdown sequence: task 1/1: failed, disk busy"
  /\ shutdown_message shutdown_plan3 = shutdown_message shutdown_plan
  /\ ~ (exists phases_of : string -> nat,
          phases_of (shutdown_message shutdown_plan) = 2
          /\ phases_of (shutdown_message shutdown_plan3) = 3).
Proof.
  assert (E : shutdown_message shutdown_plan3 = shutdown_message shutdown_plan)
    by (vm_compute; reflexivity).
  repeat split; try (vm_compute; reflexivity).
  intros [f [H2 H3]]. rewrite E, H2 in H3. discriminate.
Qed.

(** With no runtime context a held lock gives [ErrUndefinedRuntime], not
    [ErrLocked]; and two calls of which the second has entered [Run]
    before the first starts, and tries the lock after the first has
    released it, both run their phases. *)
Lemma Run_held_or_overlapping_not_Locked :
  semaphore (ctl bare_machine) = 1%Z
  /\ fst (Run0 [] SequenceShutdown nil_data bare_machine)
     = Some ErrUndefinedRuntime
  /\ fst (Run0 [] SequenceShutdown nil_data bare_machine) <> Some ErrLocked
  /\ fst (interleave0 shutdown_call shutdown_call [false]
            (AtEntry, AtEntry) quiet_machine) = (AtEntry, AtTryLock)
  /\ fst (interleave0 shutdown_call shutdown_call one_inside_the_other
            (AtEntry, AtEntry) quiet_machine) = (Returned None, Returned None)
  /\ world (snd (interleave0 shutdown_call shutdown_call one_inside_the_other
                   (AtEntry, AtEntry) quiet_machine)) = ["A"; "A"].
Proof.
  repeat split; try (vm_compute; reflexivity). vm_compute. discriminate.
Qed.

(** ** Examples *)

(** Three tasks of which the second fails, finishing in the order 3, 2, 1:
    all three finish, the markers of 1 and 3 are set, and the one error is
    that of task 2. *)
Example three_tasks_all_finish :
  fst (runPhase0 [2; 1] three_tasks SequenceBoot nil_data free_machine)
  = Some (Errorf_task "2/3" (errors_New "t2"))
  /\ world (snd (runPhase0 [2; 1] three_tasks SequenceBoot nil_data
                   free_machine))
     = ["3"; "1"]
  /\ stdlog (snd (runPhase0 [2; 1] three_tasks SequenceBoot nil_data
                    free_machine))
     = [LogTaskStarting "3/3"; LogTaskDone "3/3";
        LogTaskStarting "2/3"; LogTaskDone "2/3";
        LogTaskStarting "1/3"; LogTaskDone "1/3"].
Proof. repeat split. Qed.

(** Of two failing tasks the one that finishes first gives the error,
    whatever its position. *)
Example first_to_finish_wins :
  fst (runPhase0 [0] two_failures SequenceBoot nil_data free_machine)
  = Some (Errorf_task "1/2" (errors_New "x"))
  /\ fst (runPhase0 [1] two_failures SequenceBoot nil_data free_machine)
     = Some (Errorf_task "2/2" (errors_New "y")).
Proof. split; reflexivity. Qed.

(** The phase behind the failing one is never started: its marker is not
    set and the log has no line of it. *)
Example third_phase_never_starts :
  world (snd (Run0 [] SequenceShutdown nil_data
                (machine_with (Some tt) shutdown_plan3 0))) = ["A"; "B"]
  /\ started_phases
       (stdlog (snd (Run0 [] SequenceShutdown nil_data
                       (machine_with (Some tt) shutdown_plan3 0))))
     = ["1/3"; "2/3"].
Proof. split; reflexivity. Qed.

(** The lock is free again after each way out of [Run]: a planning error,
    a failing phase, a full success. *)
Example lock_free_after_every_exit :
  Run0 [] SequenceUpgrade nil_data free_machine
  = (Some ErrInvalidSequenceData, free_machine)
  /\ message (fst (Run0 [] SequenceShutdown nil_data free_machine))
     = "error running phase 2 in shutdown sequence: task 1/1: failed, disk busy"
  /\ semaphore (ctl (snd (Run0 [] SequenceShutdown nil_data free_machine)))
     = 0%Z
  /\ fst (Run0 [] SequenceShutdown nil_data quiet_machine) = None
  /\ semaphore (ctl (snd (Run0 [] SequenceShutdown nil_data quiet_machine)))
     = 0%Z.
Proof. repeat split. Qed.

(** ** The theorems at concrete inputs *)

Lemma run_in_order_stops_at_first_failure_witness :
  fst (run_loop0 [] SequenceShutdown nil_data 3 0
         [[succeeds "A"; succeeds "B"]]
         (snd (log_Printf (LogSequence "shutdown" 3) free_machine))) = None
  /\ fst (run0 [] SequenceShutdown shutdown_plan3 nil_data free_machine)
     = Some (Errorf_phase 2 "shutdown"
               (Errorf_task "1/1" (errors_New "disk busy"))).
Proof.
  split; [reflexivity|].
  exact (f_equal fst
           (proj1 (proj1 (run_in_order_stops_at_first_failure
                            Sequence_name SetupLogger_ok [] SequenceShutdown
                            [[succeeds "A"; succeeds "B"]]
                            [fails "disk busy"] [[succeeds "D"]] nil_data
                            free_machine
                            (snd (run_loop0 [] SequenceShutdown nil_data 3 0
                                    [[succeeds "A"; succeeds "B"]]
                                    (snd (log_Printf
                                            (LogSequence "shutdown" 3)
                                            free_machine))))
                            eq_refl)
                    (Errorf_task "1/1" (errors_New "disk busy")) eq_refl))).
Defined.

Lemma TryLock_Unlock_flag_witness :
  (semaphore (ctl free_machine) = 0%Z \/ semaphore (ctl free_machine) = 1%Z)
  /\ (fst (TryLock free_machine) = true <-> semaphore (ctl free_machine) = 1%Z).
Proof.
  split; [left; reflexivity|].
  apply (TryLock_Unlock_flag free_machine). left. reflexivity.
Defined.

Lemma Run_without_runtime_witness :
  r (ctl bare_machine) = None
  /\ Run0 [] SequenceShutdown nil_data bare_machine
     = (Some ErrUndefinedRuntime, bare_machine).
Proof.
  split; [reflexivity|].
  apply (Run_without_runtime Sequence_name SetupLogger_ok
           [] SequenceShutdown nil_data bare_machine).
  reflexivity.
Defined.

Lemma Run_releases_lock_witness :
  semaphore (ctl free_machine) = 0%Z
  /\ semaphore (ctl (snd (Run0 [] SequenceShutdown nil_data free_machine)))
     = 0%Z.
Proof.
  split; [reflexivity|].
  apply (Run_releases_lock Sequence_name SetupLogger_ok
           [] SequenceShutdown nil_data free_machine).
  reflexivity.
Defined.

Lemma Run_invalid_sequence_data_witness :
  r (ctl free_machine) = Some tt /\ semaphore (ctl free_machine) = 0%Z
  /\ carries_UpgradePayload (@nil_data unit unit) = false
  /\ Run0 [] SequenceUpgrade nil_data free_machine
     = (Some ErrInvalidSequenceData, free_machine).
Proof.
  split; [reflexivity|]. split; [reflexivity|]. split; [reflexivity|].
  apply (Run_invalid_sequence_data Sequence_name SetupLogger_ok
           [] nil_data free_machine tt); reflexivity.
Defined.

Lemma Run_single_flight_witness :
  (r (ctl held_machine) = Some tt /\ semaphore (ctl held_machine) = 1%Z
   /\ Run0 [] SequenceShutdown nil_data held_machine
      = (Some ErrLocked, held_machine))
  /\ (r (ctl quiet_machine) = Some tt /\ semaphore (ctl quiet_machine) = 0%Z
      /\ fst (interleave0 shutdown_call shutdown_call [true; true; false]
                (AtEntry, AtEntry) quiet_machine) = (AtPhases, AtTryLock)
      /\ fst (interleave0 shutdown_call shutdown_call [true; true; false; false]
                (AtEntry, AtEntry) quiet_machine)
         = (AtPhases, Returned (Some ErrLocked))).
Proof.
  split.
  - split; [reflexivity|]. split; [reflexivity|].
    destruct (Run_single_flight Sequence_name SetupLogger_ok held_machine tt
                eq_refl) as [H _].
    exact (proj1 (H eq_refl shutdown_call)).
  - split; [reflexivity|]. split; [reflexivity|]. split; [reflexivity|].
    destruct (Run_single_flight Sequence_name SetupLogger_ok quiet_machine tt
                eq_refl) as [_ H].
    destruct (H eq_refl shutdown_call shutdown_call [true; true; false])
      as (_ & _ & H3 & _).
    specialize (H3 eq_refl eq_refl).
    change (fst (interleave0 shutdown_call shutdown_call
                   [true; true; false; false]
                   (AtEntry, AtEntry) quiet_machine))
      with (AtPhases,
            fst (Run_step Sequence_name SetupLogger_ok shutdown_call
                   (snd (fst (interleave0 shutdown_call shutdown_call
                                [true; true; false] (AtEntry, AtEntry)
                                quiet_machine)))
                   (snd (interleave0 shutdown_call shutdown_call
                           [true; true; false] (AtEntry, AtEntry)
                           quiet_machine)))).
    unfold interleave0. rewrite H3. reflexivity.
Defined.

Lemma ListenForEvents_discards_shutdown_error_witness :
  fst (Run0 [] SequenceShutdown nil_data
         (snd (log_Printf LogSIGTERM free_machine)))
  = Some (Errorf_phase 2 "shutdown"
            (Errorf_task "1/1" (errors_New "disk busy")))
  /\ fst (ListenForEvents0 [SIGTERM] [] free_machine) = Returns None.
Proof.
  split; [reflexivity|].
  destruct (ListenForEvents_discards_shutdown_error metal Sequence_name
              SetupLogger_ok [SIGTERM] [] free_machine)
    as (_ & _ & _ & _ & _ & H).
  apply (H tt SIGTERM []); [reflexivity|discriminate|reflexivity].
Defined.

(** ** Run when String() does not return: properties *)

Section NamedSequenceProperties.

Set Default Proof Using "Type".

Context {W Runtime UpgradeRequest ResetRequest : Type}.
Variable Sequence_String_opt : Sequence -> option string.
Variable kmsg_SetupLogger : string -> W -> W * option error.

Local Abbreviation Machine := (@Machine W Runtime UpgradeRequest ResetRequest).
Local Abbreviation Data := (@Data UpgradeRequest ResetRequest).
Local Abbreviation Sequence_String_returned :=
  (Sequence_String_returned Sequence_String_opt).
Local Abbreviation Run :=
  (@Run W Runtime UpgradeRequest ResetRequest
     Sequence_String_returned kmsg_SetupLogger).
Local Abbreviation Run_or_panic :=
  (@Run_or_panic W Runtime UpgradeRequest ResetRequest
     Sequence_String_opt kmsg_SetupLogger).

(** Where [seq.String()] returns, [Run_or_panic] is [Run]. *)
Lemma Run_or_panic_returns scheds seq (data : Data) (m : Machine) :
  Sequence_String_opt seq <> None ->
  Run_or_panic scheds seq data m
  = (Returns (fst (Run scheds seq data m)), snd (Run scheds seq data m)).
Proof.
  intros Hname. unfold Run_or_panic, Run, bind, ret, get_r.
  destruct (r (ctl m)); [|reflexivity].
  destruct (TryLock m) as [[|] m1]; [reflexivity|].
  unfold Run_locked, run_or_panic, bind, ret.
  destruct (phases (ctl m1) seq data) as [ps [e|]].
  - destruct (Unlock m1). reflexivity.
  - destruct (Sequence_String_opt seq); [|contradiction].
    destruct (run _ _ scheds seq ps data m1) as [res m2].
    destruct (Unlock m2). reflexivity.
Qed.

(** C10: for a sequence value that is none of the seven, planning yields
    no phases and no error.  What [Run] then does (with a runtime context
    and a free lock) hangs on [seq.String()], which [run] calls first: if it
    returns a name, [Run] writes the two lines of an empty sequence, runs no
    task, returns nil and leaves the controller and the rest of the machine
    as they were; if it panics, [Run] panics with nothing logged, the
    deferred [Unlock] having set the lock free again. *)
Theorem Run_unknown_sequence scheds seq (data : Data) (m : Machine) rt :
  ~ enumerated seq ->
  r (ctl m) = Some rt -> semaphore (ctl m) = 0%Z ->
  phases (ctl m) seq data = ([], None)
  /\ (forall name,
        Sequence_String_opt seq = Some name ->
        Run_or_panic scheds seq data m
        = (Returns None,
           {| ctl := ctl m;
              stdlog := stdlog m ++ [LogSequence name 0; LogSequenceDone name];
              world := world m |}))
  /\ (Sequence_String_opt seq = None ->
      Run_or_panic scheds seq data m = (Panics, m)).
Proof.
  intros Hn Hr Hs.
  split; [apply phases_unknown; exact Hn|]. split.
  - intros name Hname.
    rewrite Run_or_panic_returns by (rewrite Hname; discriminate).
    rewrite (Run_no_phases _ _ scheds seq data m rt Hr Hs)
      by (intros c; apply phases_unknown; exact Hn).
    cbn [fst snd]. unfold Sequence_String_returned. rewrite Hname.
    reflexivity.
  - intros Hname. unfold Run_or_panic, bind, ret, get_r. rewrite Hr.
    unfold TryLock, Unlock, bind, ret, cas_semaphore, CompareAndSwapInt32.
    rewrite Hs. cbn.
    rewrite (phases_unknown _ seq data Hn). unfold run_or_panic.
    rewrite Hname. cbn.
    destruct m as [[cr cs sem] lg w]. cbn in Hs |- *. now rewrite Hs.
Qed.

End NamedSequenceProperties.

Lemma Run_unknown_sequence_witness :
  ~ enumerated 7%Z
  /\ r (ctl free_machine) = Some tt /\ semaphore (ctl free_machine) = 0%Z
  /\ Sequence_name_lookup 7%Z = None
  /\ Run_or_panic0 [] 7%Z nil_data free_machine = (Panics, free_machine).
Proof.
  assert (H : ~ enumerated 7%Z).
  { unfold enumerated. cbn. intros H.
    repeat (destruct H as [H | H]; [discriminate H|]). exact H. }
  split; [exact H|]. split; [reflexivity|]. split; [reflexivity|].
  split; [reflexivity|].
  apply (proj2 (proj2 (Run_unknown_sequence Sequence_name_lookup
                         SetupLogger_ok [] 7%Z nil_data free_machine tt
                         H eq_refl eq_refl))).
  reflexivity.
Defined.

(** Where [seq.String()] is the lookup in the table of the seven names,
    [Run] for the value 100, which is none of the seven, with a runtime
    context and a free lock, does not return nil: it panics. *)
Lemma Run_unknown_sequence_does_not_return :
  ~ enumerated 100%Z
  /\ r (ctl free_machine) = Some tt /\ semaphore (ctl free_machine) = 0%Z
  /\ fst (Run_or_panic0 [] 100%Z nil_data free_machine) = Panics
  /\ fst (Run_or_panic0 [] 100%Z nil_data free_machine) <> Returns None.
Proof.
  split.
  { unfold enumerated. cbn. intros H.
    repeat (destruct H as [H | H]; [discriminate H|]). exact H. }
  split; [reflexivity|]. split; [reflexivity|].
  split; [reflexivity|discriminate].
Qed.

(** ** The goroutines of a phase, interleaved *)

Lemma flat_map_middle {A B : Type} (f : A -> list B) pre g post :
  flat_map f (pre ++ g :: post) = flat_map f pre ++ f g ++ flat_map f post.
Proof. rewrite flat_map_app. reflexivity. Qed.

Lemma perm_step_same {A B : Type} (f : A -> list B) pre g g' post rest l :
  f g' = f g ->
  Permutation l (flat_map f (pre ++ g :: post) ++ rest) ->
  Permutation l (flat_map f (pre ++ g' :: post) ++ rest).
Proof. intros H. now rewrite !flat_map_middle, H. Qed.

Lemma perm_step_grow {A B : Type} (f : A -> list B) pre g g' post rest l x :
  f g' = f g ++ [x] ->
  Permutation l (flat_map f (pre ++ g :: post) ++ rest) ->
  Permutation (l ++ [x]) (flat_map f (pre ++ g' :: post) ++ rest).
Proof.
  intros H HP. rewrite !flat_map_middle in *. rewrite H, HP.
  rewrite <- !app_assoc. do 2 apply Permutation_app_head.
  rewrite (app_assoc (flat_map f post) rest [x]).
  apply Permutation_app_comm.
Qed.

Lemma perm_step_finish {A B C : Type} (f : A -> list B) (h : C -> list B)
  pre g post fin c l :
  f g = h c ->
  Permutation l (flat_map f (pre ++ g :: post) ++ flat_map h fin) ->
  Permutation l (flat_map f (pre ++ post) ++ flat_map h (fin ++ [c])).
Proof.
  intros H HP. rewrite flat_map_middle in HP.
  rewrite !flat_map_app, HP, H. cbn [flat_map]. rewrite app_nil_r.
  rewrite <- !app_assoc. apply Permutation_app_head.
  rewrite (app_assoc (flat_map f post) (flat_map h fin) (h c)).
  apply Permutation_app_comm.
Qed.

Lemma firstn_middle {A : Type} (pre : list A) g post :
  firstn (length pre) (pre ++ g :: post) = pre.
Proof. induction pre as [|x pre IH]; cbn; [reflexivity|now rewrite IH]. Qed.

Lemma skipn_middle {A : Type} (pre : list A) g post :
  skipn (S (length pre)) (pre ++ g :: post) = post.
Proof. induction pre as [|x pre IH]; cbn; [reflexivity|exact IH]. Qed.

Lemma list_sum_cons (x : nat) (l : list nat) :
  list_sum (x :: l) = x + list_sum l.
Proof. reflexivity. Qed.

Lemma first_failure_app (l : list (nat * option error)) k res :
  first_failure (l ++ [(k, res)])
  = match first_failure l with
    | Some x => Some x
    | None => match res with Some e => Some (k, e) | None => None end
    end.
Proof.
  induction l as [|[k0 [e0|]] l IH]; cbn; auto.
Qed.

Section GoroutineProperties.

Set Default Proof Using "Type".

Context {W Runtime UpgradeRequest ResetRequest : Type}.
Variable kmsg_SetupLogger : string -> W -> W * option error.

Local Abbreviation Machine := (@Machine W Runtime UpgradeRequest ResetRequest).
Local Abbreviation M := (@M W Runtime UpgradeRequest ResetRequest).
Local Abbreviation Data := (@Data UpgradeRequest ResetRequest).
Local Abbreviation Phase := (@Phase W Runtime UpgradeRequest ResetRequest).
Local Abbreviation TaskSetupFunc :=
  (@TaskSetupFunc W Runtime UpgradeRequest ResetRequest).
Local Abbreviation Goroutine :=
  (@Goroutine W Runtime UpgradeRequest ResetRequest).
Local Abbreviation Waiting := (@Waiting W Runtime UpgradeRequest ResetRequest).
Local Abbreviation runTask :=
  (@runTask W Runtime UpgradeRequest ResetRequest kmsg_SetupLogger).
Local Abbreviation runTask_logger :=
  (@runTask_logger W Runtime UpgradeRequest ResetRequest kmsg_SetupLogger).
Local Abbreviation runTask_task :=
  (@runTask_task W Runtime UpgradeRequest ResetRequest).
Local Abbreviation goroutine_of :=
  (@goroutine_of W Runtime UpgradeRequest ResetRequest kmsg_SetupLogger).
Local Abbreviation runTask_returns :=
  (@runTask_returns W Runtime UpgradeRequest ResetRequest kmsg_SetupLogger).
Local Abbreviation runPhase :=
  (@runPhase W Runtime UpgradeRequest ResetRequest kmsg_SetupLogger).
Local Abbreviation goroutine_step :=
  (@goroutine_step W Runtime UpgradeRequest ResetRequest kmsg_SetupLogger).
Local Abbreviation eg_steps :=
  (@eg_steps W Runtime UpgradeRequest ResetRequest kmsg_SetupLogger).
Local Abbreviation joined :=
  (@joined W Runtime UpgradeRequest ResetRequest kmsg_SetupLogger).
Local Abbreviation runPhase_interleaved :=
  (@runPhase_interleaved W Runtime UpgradeRequest ResetRequest
     kmsg_SetupLogger).
Local Abbreviation phase_inv :=
  (@phase_inv W Runtime UpgradeRequest ResetRequest kmsg_SetupLogger).

Lemma moved_goroutines (st : Waiting) pre g g' post :
  goroutines st = pre ++ g :: post ->
  goroutines (moved (length pre) g' st) = pre ++ g' :: post.
Proof.
  intros H. unfold moved. cbn [goroutines].
  now rewrite H, firstn_middle, skipn_middle.
Qed.

Lemma goroutine_of_more total (phase : Phase) rec rec' (g : Goroutine) :
  goroutine_of total phase rec g -> goroutine_of total phase (rec ++ rec') g.
Proof.
  destruct g; cbn; auto; intros (raw & Hin & ->); exists raw;
    (split; [apply in_or_app; now left|reflexivity]).
Qed.

Lemma runTask_two_steps n (f : TaskSetupFunc) seq (data : Data) :
  runTask n f seq data
  = bind (runTask_logger n)
      (fun err => match err with
                  | Some e => ret (Some e)
                  | None => runTask_task n f seq data
                  end).
Proof. reflexivity. Qed.

Lemma runTask_logger_frame n (m : Machine) :
  stdlog (snd (runTask_logger n m)) = stdlog m
  /\ ctl (snd (runTask_logger n m)) = ctl m.
Proof.
  unfold runTask_logger, on_world.
  destruct (kmsg_SetupLogger _ (world m)). split; reflexivity.
Qed.

Lemma runTask_task_frame n (f : TaskSetupFunc) seq (data : Data) (m : Machine) :
  stdlog (snd (runTask_task n f seq data m)) = stdlog m
  /\ ctl (snd (runTask_task n f seq data m)) = ctl m.
Proof.
  unfold runTask_task. destruct (f seq data) as [task|]; [|split; reflexivity].
  rewrite bind_run. cbn [get_r fst snd]. unfold on_world.
  destruct (task _ _ (world m)). split; reflexivity.
Qed.

(** [runTask] has returned [res] for the goroutine at position
    [length pre]: what changes in [phase_inv]. *)
Lemma returned_from_runTask_inv (phase : Phase) seq (data : Data)
  (m0 : Machine) (st : Waiting) (m m' : Machine) pre g post n
  (task : TaskSetupFunc) res :
  goroutines st = pre ++ g :: post ->
  goroutine_number g = n -> ran_number g = [] ->
  lines_written (length phase) g
  = [LogTaskStarting (Sprintf_progress n (length phase))] ->
  nth_error phase (n - 1) = Some task ->
  runTask_returns n task seq data res ->
  stdlog m' = stdlog m -> ctl m' = ctl m ->
  phase_inv phase seq data m0 st m ->
  phase_inv phase seq data m0
    (returned_from_runTask (length pre) n
       (Sprintf_progress n (length phase)) res st) m'.
Proof.
  intros Hg Hn Hran Hlines Hnth Hret Hlog' Hctl' [I1 I2 I3 I4 I5 I6 I7 I8].
  pose proof (fun g' => moved_goroutines st pre g g' post Hg) as Hmoved.
  rewrite Hg in I1, I2, I4, I7.
  apply Forall_app in I4. destruct I4 as [I4pre I4].
  inversion I4 as [|? ? I4g I4post]; subst.
  destruct I7 as (new & Hlog & Hperm).
  constructor; unfold returned_from_runTask;
    cbn [goroutines err_once ran finished]; rewrite ?Hmoved.
  - revert I1. now apply perm_step_same.
  - rewrite map_app. cbn [map fst]. revert I2.
    apply perm_step_grow. now rewrite Hran.
  - exact I3.
  - apply Forall_app. split; [|constructor].
    + revert I4pre. apply Forall_impl. intros g0. apply goroutine_of_more.
    + cbn. eexists. split; [apply in_or_app; right; now left|reflexivity].
    + revert I4post. apply Forall_impl. intros g0. apply goroutine_of_more.
  - intros k res0 Hin. destruct (I5 k res0 Hin) as (raw & Hr & ->).
    exists raw. split; [apply in_or_app; now left|reflexivity].
  - intros k raw Hin. apply in_app_or in Hin. destruct Hin as [Hin|Hin].
    + exact (I6 k raw Hin).
    + destruct Hin as [[= <- <-]|[]]. exists task. split; assumption.
  - exists new. split; [now rewrite Hlog'|].
    revert Hperm. apply perm_step_same. now rewrite Hlines.
  - now rewrite Hctl'.
Qed.

Lemma goroutine_step_inv (phase : Phase) seq (data : Data) (m0 : Machine)
  (st : Waiting) (m : Machine) pre g post :
  goroutines st = pre ++ g :: post ->
  phase_inv phase seq data m0 st m ->
  phase_inv phase seq data m0
    (fst (goroutine_step (length phase) seq data (length pre) g st m))
    (snd (goroutine_step (length phase) seq data (length pre) g st m)).
Proof.
  intros Hg Hinv.
  pose proof Hinv as [I1 I2 I3 I4 I5 I6 I7 I8].
  pose proof (fun g' => moved_goroutines st pre g g' post Hg) as Hmoved.
  rewrite Hg in I1, I2, I4, I7.
  apply Forall_app in I4. destruct I4 as [I4pre I4].
  inversion I4 as [|? ? I4g I4post]; subst.
  destruct I7 as (new & Hlog & Hperm).
  destruct g as [n task|n task|n task|n res|n res]; cbn [goroutine_step];
    rewrite ?bind_run; cbn [ret fst snd].
  - constructor; rewrite ?Hmoved; cbn [moved err_once ran finished].
    + revert I1. now apply perm_step_same.
    + revert I2. now apply perm_step_same.
    + exact I3.
    + apply Forall_app. split; [exact I4pre|].
      constructor; [exact I4g|exact I4post].
    + exact I5.
    + exact I6.
    + exists (new ++ [LogTaskStarting (Sprintf_progress n (length phase))]).
      split; [cbn; rewrite Hlog; now rewrite <- app_assoc|].
      revert Hperm. now apply perm_step_grow.
    + exact I8.
  - destruct (runTask_logger_frame n m) as [Hl Hc].
    destruct (fst (runTask_logger n m)) as [e|] eqn:He; cbn [ret fst snd].
    + apply (returned_from_runTask_inv phase seq data m0 st m _ pre
               (AtSetupLogger n task) post n task (Some e) Hg);
        try reflexivity; try assumption; [exact (proj2 I4g)|].
      left. exists e, m. split; [exact He|reflexivity].
    + constructor; rewrite ?Hmoved; cbn [moved err_once ran finished].
      * revert I1. now apply perm_step_same.
      * revert I2. now apply perm_step_same.
      * exact I3.
      * apply Forall_app. split; [exact I4pre|].
        constructor; [|exact I4post].
        cbn. destruct I4g as [H1 H2]. split; [exact H1|].
        split; [exact H2|]. exists m. exact He.
      * exact I5.
      * exact I6.
      * exists new. split; [now rewrite Hl|].
        revert Hperm. now apply perm_step_same.
      * now rewrite Hc.
  - destruct (runTask_task_frame n task seq data m) as [Hl Hc].
    destruct I4g as (H1 & H2 & H3).
    apply (returned_from_runTask_inv phase seq data m0 st m _ pre
             (AtTask n task) post n task _ Hg);
      try reflexivity; try assumption.
    right. split; [exact H3|]. exists m. reflexivity.
  - constructor; rewrite ?Hmoved; cbn [moved err_once ran finished].
    + revert I1. now apply perm_step_same.
    + revert I2. now apply perm_step_same.
    + exact I3.
    + apply Forall_app. split; [exact I4pre|].
      constructor; [exact I4g|exact I4post].
    + exact I5.
    + exact I6.
    + exists (new ++ [LogTaskDone (Sprintf_progress n (length phase))]).
      split; [cbn; rewrite Hlog; now rewrite <- app_assoc|].
      revert Hperm. now apply perm_step_grow.
    + exact I8.
  - constructor; cbn [goroutines err_once ran finished];
      rewrite ?Hg, ?remove_nth_app.
    + revert I1. now apply perm_step_finish.
    + revert I2. now apply perm_step_finish.
    + rewrite first_failure_app, I3.
      destruct (first_failure (finished st)) as [[k e]|], res; reflexivity.
    + apply Forall_app. split; [exact I4pre|exact I4post].
    + intros k res' Hin. apply in_app_or in Hin. destruct Hin as [Hin|Hin].
      * exact (I5 k res' Hin).
      * destruct Hin as [[= <- <-]|[]]. exact I4g.
    + exact I6.
    + exists new. split; [exact Hlog|].
      rewrite map_app. cbn [map fst]. revert Hperm.
      now apply perm_step_finish.
    + exact I8.
Qed.

Lemma started_numbers (phase : Phase) :
  forall j,
    flat_map (fun g : Goroutine => [goroutine_number g]) (started j phase)
    = List.seq (S j) (length phase).
Proof.
  induction phase as [|task rest IH]; intros j; cbn; [reflexivity|].
  now rewrite IH.
Qed.

Lemma started_nothing_yet {B : Type} (f : Goroutine -> list B)
  (phase : Phase) :
  (forall n task, f (AtStarting n task) = []) ->
  forall j, flat_map f (started j phase) = [].
Proof.
  intros Hf. induction phase as [|task rest IH]; intros j; cbn;
    [reflexivity|].
  now rewrite Hf, IH.
Qed.

Lemma started_steps_left (phase : Phase) :
  forall j, list_sum (map steps_left (started j phase)) = 5 * length phase.
Proof.
  induction phase as [|task rest IH]; intros j; cbn [started map];
    [reflexivity|].
  rewrite list_sum_cons, IH. cbn [steps_left length]. lia.
Qed.

Lemma started_goroutine_of total rec (phase : Phase) :
  forall pre : Phase,
    Forall (goroutine_of total (pre ++ phase) rec)
      (started (length pre) phase).
Proof.
  induction phase as [|task rest IH]; intros pre; cbn [started];
    constructor.
  - cbn. split; [lia|].
    rewrite Nat.sub_0_r, nth_error_app2, Nat.sub_diag by lia. reflexivity.
  - specialize (IH (pre ++ [task])).
    rewrite <- app_assoc, length_app, Nat.add_1_r in IH. exact IH.
Qed.

(** When [runPhase] has started its goroutines. *)
Lemma phase_inv_started (phase : Phase) seq (data : Data) (m : Machine) :
  phase_inv phase seq data m
    {| goroutines := started 0 phase; err_once := None;
       ran := []; finished := [] |} m.
Proof.
  constructor; cbn [goroutines err_once ran finished map flat_map].
  - now rewrite started_numbers, app_nil_r.
  - now rewrite started_nothing_yet.
  - reflexivity.
  - apply (started_goroutine_of (length phase) [] phase []).
  - intros k res [].
  - intros k raw [].
  - exists []. rewrite app_nil_r. split; [reflexivity|].
    now rewrite started_nothing_yet.
  - reflexivity.
Qed.

Lemma goroutine_step_left total seq (data : Data) (st : Waiting) (m : Machine)
  pre g post :
  goroutines st = pre ++ g :: post ->
  S (list_sum (map steps_left
                 (goroutines
                    (fst (goroutine_step total seq data (length pre) g st m)))))
  <= list_sum (map steps_left (goroutines st)).
Proof.
  intros Hg.
  pose proof (fun g' => moved_goroutines st pre g g' post Hg) as Hmoved.
  destruct g; cbn [goroutine_step]; rewrite ?bind_run;
    try match goal with
        | |- context [fst (runTask_logger ?n ?m)] =>
            destruct (fst (runTask_logger n m))
        end;
    unfold returned_from_runTask;
    cbn [ret fst snd goroutines]; rewrite ?Hmoved, Hg, ?remove_nth_app;
    rewrite !map_app, !list_sum_app; cbn [map];
    rewrite ?list_sum_cons; cbn [steps_left]; lia.
Qed.

(** The steps of the goroutines keep [phase_inv], and when the fuel is
    what the goroutines still have to do, none is left running. *)
Lemma eg_steps_inv (phase : Phase) seq (data : Data) (m0 : Machine) :
  forall fuel sched (st : Waiting) (m : Machine),
    phase_inv phase seq data m0 st m ->
    list_sum (map steps_left (goroutines st)) <= fuel ->
    phase_inv phase seq data m0
      (fst (eg_steps fuel sched (length phase) seq data st m))
      (snd (eg_steps fuel sched (length phase) seq data st m))
    /\ goroutines (fst (eg_steps fuel sched (length phase) seq data st m))
       = [].
Proof.
  induction fuel as [|fuel IH]; intros sched st m Hinv Hfuel.
  - cbn [eg_steps ret fst snd]. split; [exact Hinv|].
    destruct (goroutines st) as [|g gs]; [reflexivity|].
    cbn [map] in Hfuel. rewrite list_sum_cons in Hfuel.
    destruct g; cbn [steps_left] in Hfuel; lia.
  - cbn [eg_steps].
    destruct (goroutines st) as [|g0 gs] eqn:Hgs; [now split|].
    rewrite <- Hgs.
    set (k := Nat.modulo (hd 0 sched) (length (goroutines st))).
    assert (Hk : k < length (goroutines st))
      by (apply Nat.mod_upper_bound; rewrite Hgs; discriminate).
    destruct (nth_split (goroutines st) g0 Hk) as (pre & post & Hsplit & Hlen).
    clearbody k. subst k. rewrite bind_run.
    set (g := nth (length pre) (goroutines st) g0) in *. clearbody g.
    apply IH.
    + apply (goroutine_step_inv _ _ _ _ _ _ pre g post Hsplit Hinv).
    + pose proof (goroutine_step_left (length phase) seq data st m pre g post
                    Hsplit) as Hleft.
      rewrite <- Hgs in Hfuel. lia.
Qed.

Lemma flat_map_singleton {A B : Type} (f : A -> B) (l : list A) :
  flat_map (fun x => [f x]) l = map f l.
Proof. induction l as [|x l IH]; cbn; [reflexivity|now rewrite IH]. Qed.

(** C2: [runPhase], its goroutines interleaved in any way.  When
    [eg.Wait()] returns, no goroutine is left running: every one that was
    started has finished, exactly once, and [runTask] has returned for every
    one, exactly once, whatever the others returned, so that a failing task
    cancels none of its siblings.  What [runTask] returned is the error of
    [kmsg.SetupLogger] or else the result of the task.  What a goroutine
    returns is nil for a nil result of its [runTask], and otherwise that
    error wrapped with the 1-based number of the task and the number of
    tasks of the phase.  The error kept, which [runPhase] returns, is that
    of the first goroutine in the order of finishing that returned one; the
    errors of the others are dropped.  Each goroutine has written its two
    lines, in some interleaving, and the controller is as it was. *)
Theorem runPhase_joins_all_first_error_wins
  sched (phase : Phase) seq (data : Data) (m : Machine) :
  let n := length phase in
  let st := fst (joined sched phase seq data m) in
  let m' := snd (joined sched phase seq data m) in
  runPhase_interleaved sched phase seq data m = (err_once st, m')
  /\ goroutines st = []
  /\ Permutation (map fst (finished st)) (List.seq 1 n)
  /\ Permutation (map fst (ran st)) (List.seq 1 n)
  /\ (forall k raw,
        In (k, raw) (ran st) ->
        exists task,
          nth_error phase (k - 1) = Some task
          /\ runTask_returns k task seq data raw)
  /\ (forall k res,
        In (k, res) (finished st) ->
        exists raw,
          In (k, raw) (ran st)
          /\ res = closure_result (Sprintf_progress k n) raw)
  /\ err_once st = option_map snd (first_failure (finished st))
  /\ (exists new,
        stdlog m' = stdlog m ++ new
        /\ Permutation new (flat_map (task_lines n) (List.seq 1 n)))
  /\ ctl m' = ctl m
  /\ forall err,
       fst (runPhase_interleaved sched phase seq data m) = Some err ->
       exists k e task,
         first_failure (finished st) = Some (k, err)
         /\ 1 <= k <= n
         /\ nth_error phase (k - 1) = Some task
         /\ runTask_returns k task seq data (Some e)
         /\ err = Errorf_task (Sprintf_progress k n) e.
Proof.
  intros n st m'.
  assert (Hrun : runPhase_interleaved sched phase seq data m
                 = (err_once st, m'))
    by (unfold runPhase_interleaved; now rewrite bind_run).
  destruct (eg_steps_inv phase seq data m (5 * length phase) sched _ m
              (phase_inv_started phase seq data m))
    as [[I1 I2 I3 I4 I5 I6 I7 I8] Hnil].
  { cbn [goroutines]. now rewrite started_steps_left. }
  fold (joined sched phase seq data m) in *.
  fold st m' in I1, I2, I3, I4, I5, I6, I7, I8, Hnil.
  rewrite Hnil in I1, I2, I7. cbn [flat_map app] in I1, I2, I7.
  rewrite flat_map_singleton in I1, I2.
  assert (Hfin : Permutation (map fst (finished st)) (List.seq 1 n))
    by (symmetry; exact I1).
  split; [exact Hrun|]. split; [exact Hnil|]. split; [exact Hfin|].
  split; [now rewrite I2|]. split; [exact I6|]. split; [exact I5|].
  split; [exact I3|].
  split.
  { destruct I7 as (new & Hlog & Hperm). exists new.
    split; [exact Hlog|]. rewrite Hperm.
    apply Permutation_flat_map. exact Hfin. }
  split; [exact I8|].
  intros err Herr. rewrite Hrun in Herr. cbn [fst] in Herr.
  rewrite I3 in Herr.
  destruct (first_failure (finished st)) as [[k e']|] eqn:Hff; [|discriminate].
  cbn in Herr. injection Herr as ->.
  pose proof (first_failure_In _ _ _ Hff) as Hin.
  destruct (I5 _ _ Hin) as (raw & Hraw & Hres).
  destruct (I6 _ _ Hraw) as (task & Hnth & Hrt).
  destruct raw as [e|]; [|discriminate Hres].
  cbn in Hres. injection Hres as ->.
  exists k, e, task.
  split; [reflexivity|]. split; [|auto].
  assert (Hk : In k (List.seq 1 n)).
  { eapply Permutation_in; [exact Hfin|].
    apply (in_map fst) in Hin. exact Hin. }
  apply in_seq in Hk. lia.
Qed.

(** *** The two models of runPhase *)

Lemma eg_steps_tick fuel ticks total seq (data : Data) (st : Waiting)
  (m : Machine) pre g post :
  goroutines st = pre ++ g :: post ->
  eg_steps (S fuel) (length pre :: ticks) total seq data st m
  = eg_steps fuel ticks total seq data
      (fst (goroutine_step total seq data (length pre) g st m))
      (snd (goroutine_step total seq data (length pre) g st m)).
Proof.
  intros Hg. cbn [eg_steps hd tl]. rewrite Hg.
  assert (Hk : Nat.modulo (length pre) (length (pre ++ g :: post))
               = length pre).
  { apply Nat.mod_small. rewrite length_app. cbn [length]. lia. }
  rewrite Hk.
  destruct (pre ++ g :: post) as [|g0 gs] eqn:E;
    [destruct pre; discriminate E|].
  rewrite <- E, nth_middle, bind_run. reflexivity.
Qed.

(** The steps of a goroutine that has just been started, taken in a row,
    are the closure of [runPhase] in one piece. *)
Lemma closure_in_one_piece total seq (data : Data) (st : Waiting)
  (m : Machine) pre n (task : TaskSetupFunc) post :
  goroutines st = pre ++ AtStarting n task :: post ->
  exists rn fin used,
    used <= 5
    /\ forall fuel ticks,
        eg_steps (used + fuel) (repeat (length pre) used ++ ticks)
          total seq data st m
        = eg_steps fuel ticks total seq data
            {| goroutines := pre ++ post;
               err_once :=
                 match fst (task_unit kmsg_SetupLogger total seq data n task m),
                       err_once st with
                 | Some e, None => Some e
                 | _, _ => err_once st
                 end;
               ran := rn; finished := fin |}
            (snd (task_unit kmsg_SetupLogger total seq data n task m)).
Proof.
  intros Hg.
  set (m1 := snd (log_Printf (LogTaskStarting (Sprintf_progress n total)) m)).
  pose proof (moved_goroutines st pre _ (AtSetupLogger n task) post Hg) as Hg1.
  assert (Hend : forall res (st2 : Waiting) (m2 : Machine) fuel ticks,
             goroutines st2 = pre ++ AtDone n res :: post ->
             eg_steps (S (S fuel)) (length pre :: length pre :: ticks)
               total seq data st2 m2
             = eg_steps fuel ticks total seq data
                 {| goroutines := pre ++ post;
                    err_once := match res, err_once st2 with
                                | Some e, None => Some e
                                | _, _ => err_once st2
                                end;
                    ran := ran st2;
                    finished := finished st2 ++ [(n, res)] |}
                 (snd (log_Printf (LogTaskDone (Sprintf_progress n total))
                         m2))).
  { intros res st2 m2 fuel ticks Hg2.
    rewrite (eg_steps_tick _ _ _ _ _ _ _ _ _ _ Hg2).
    cbn [goroutine_step]. rewrite bind_run. cbn [ret fst snd].
    pose proof (moved_goroutines st2 pre _ (AtReturn n res) post Hg2) as Hg3.
    rewrite (eg_steps_tick _ _ _ _ _ _ _ _ _ _ Hg3).
    cbn [goroutine_step ret fst snd]. rewrite Hg3, remove_nth_app.
    reflexivity. }
  destruct (fst (runTask_logger n m1)) as [e|] eqn:He.
  - do 2 eexists. exists 4. split; [lia|]. intros fuel ticks.
    cbn [repeat app Nat.add].
    rewrite (eg_steps_tick _ _ _ _ _ _ _ _ _ _ Hg).
    cbn [goroutine_step]. rewrite bind_run. cbn [ret fst snd]. fold m1.
    rewrite (eg_steps_tick _ _ _ _ _ _ _ _ _ _ Hg1).
    cbn [goroutine_step]. rewrite bind_run, He. cbn [ret fst snd].
    rewrite (Hend (closure_result (Sprintf_progress n total) (Some e)))
      by (unfold returned_from_runTask; cbn [goroutines];
          apply (moved_goroutines _ pre _ _ post Hg1)).
    unfold returned_from_runTask. cbn [moved err_once ran finished].
    unfold task_unit. rewrite !bind_run. cbn [ret fst snd]. fold m1.
    rewrite runTask_two_steps, bind_run, He. cbn [ret fst snd closure_result].
    reflexivity.
  - do 2 eexists. exists 5. split; [lia|]. intros fuel ticks.
    cbn [repeat app Nat.add].
    rewrite (eg_steps_tick _ _ _ _ _ _ _ _ _ _ Hg).
    cbn [goroutine_step]. rewrite bind_run. cbn [ret fst snd]. fold m1.
    rewrite (eg_steps_tick _ _ _ _ _ _ _ _ _ _ Hg1).
    cbn [goroutine_step]. rewrite bind_run, He. cbn [ret fst snd].
    pose proof (moved_goroutines _ pre _ (AtTask n task) post Hg1) as Hg2.
    rewrite (eg_steps_tick _ _ _ _ _ _ _ _ _ _ Hg2).
    cbn [goroutine_step]. rewrite bind_run. cbn [ret fst snd].
    rewrite (Hend (closure_result (Sprintf_progress n total)
                     (fst (runTask_task n task seq data
                             (snd (runTask_logger n m1))))))
      by (unfold returned_from_runTask; cbn [goroutines];
          apply (moved_goroutines _ pre _ _ post Hg2)).
    unfold returned_from_runTask. cbn [moved err_once ran finished].
    unfold task_unit. rewrite !bind_run. cbn [ret fst snd]. fold m1.
    rewrite runTask_two_steps, bind_run, He. cbn [ret fst snd].
    unfold closure_result. reflexivity.
Qed.

Lemma started_units (phase : Phase) :
  forall j,
    started j phase
    = map (fun u => AtStarting (fst u) (snd u))
        (combine (List.seq (S j) (length phase)) phase).
Proof.
  induction phase as [|task rest IH]; intros j; cbn; [reflexivity|].
  now rewrite IH.
Qed.

Lemma numbered_units_units total seq (data : Data) (phase : Phase) :
  forall j,
    map snd (numbered_units kmsg_SetupLogger total seq data j phase)
    = map (fun u => task_unit kmsg_SetupLogger total seq data (fst u) (snd u))
        (combine (List.seq (S j) (length phase)) phase).
Proof.
  induction phase as [|task rest IH]; intros j; cbn; [reflexivity|].
  now rewrite IH.
Qed.

Lemma eg_steps_covers_eg_join total seq (data : Data) :
  forall len (us : list (nat * TaskSetupFunc)) sched kept rn fin (m : Machine)
    fuel,
    length us = len -> 5 * len <= fuel ->
    exists ticks,
      let out :=
        eg_steps fuel ticks total seq data
          {| goroutines := map (fun u => AtStarting (fst u) (snd u)) us;
             err_once := kept; ran := rn; finished := fin |} m in
      (err_once (fst out), snd out)
      = eg_join
          (schedule_from len sched
             (map (fun u => task_unit kmsg_SetupLogger total seq data
                              (fst u) (snd u)) us))
          kept m.
Proof.
  induction len as [|len IH]; intros us sched kept rn fin m fuel Hlen Hfuel.
  - exists []. destruct us; [|discriminate]. destruct fuel; reflexivity.
  - destruct us as [|u0 us']; [discriminate|].
    set (us := u0 :: us') in *.
    set (unit := fun u : nat * TaskSetupFunc =>
                   task_unit kmsg_SetupLogger total seq data (fst u) (snd u)).
    set (k := Nat.modulo (hd 0 sched) (length us)).
    assert (Hk : k < length us)
      by (apply Nat.mod_upper_bound; discriminate).
    destruct (nth_split us u0 Hk) as (pre & post & Hsplit & Hpre).
    set (u := nth k us u0) in *.
    assert (Hsched : schedule_from (S len) sched (map unit us)
                     = unit u
                         :: schedule_from len (tl sched)
                              (map unit (pre ++ post))).
    { change (map unit us) with (unit u0 :: map unit us') at 1.
      cbn [schedule_from].
      change (unit u0 :: map unit us') with (map unit us).
      rewrite length_map.
      fold k. rewrite remove_nth_map. f_equal.
      - change (unit u0) with (unit u0). rewrite (map_nth unit us u0 k) at 1.
        reflexivity.
      - rewrite Hsplit at 1. rewrite <- Hpre, remove_nth_app. reflexivity. }
    rewrite Hsched. cbn [eg_join]. rewrite bind_run.
    assert (Hlen' : length (pre ++ post) = len).
    { rewrite Hsplit in Hlen. rewrite length_app in *. cbn in Hlen. lia. }
    set (st := {| goroutines := map (fun u => AtStarting (fst u) (snd u)) us;
                  err_once := kept; ran := rn; finished := fin |}).
    assert (Hg : goroutines st
                 = map (fun u => AtStarting (fst u) (snd u)) pre
                     ++ AtStarting (fst u) (snd u)
                     :: map (fun u => AtStarting (fst u) (snd u)) post).
    { cbn [goroutines st]. rewrite Hsplit at 1. now rewrite map_app. }
    destruct (closure_in_one_piece total seq data st m _ _ _ _ Hg)
      as (rn' & fin' & used & Hused & Hsteps).
    destruct (IH (pre ++ post) (tl sched)
                match fst (unit u m), kept with
                | Some e, None => Some e
                | _, _ => kept
                end rn' fin' (snd (unit u m)) (fuel - used) Hlen'
                ltac:(lia)) as (ticks & Hticks).
    exists (repeat (length (map (fun u : nat * TaskSetupFunc =>
                                   AtStarting (fst u) (snd u)) pre)) used
            ++ ticks).
    cbv zeta in Hticks |- *.
    replace fuel with (used + (fuel - used)) at 1 2 by lia.
    rewrite Hsteps, <- map_app. etransitivity; [exact Hticks|].
    unfold eg_finish. rewrite bind_run. cbn [ret fst snd].
    destruct (fst (unit u m)), kept; reflexivity.
Qed.

(** The [runPhase] in which each goroutine runs in one piece is
    [runPhase_interleaved] under an oracle that lets each goroutine, once
    picked, take all its steps in a row. *)
Lemma runPhase_is_interleaved sched (phase : Phase) seq (data : Data)
  (m : Machine) :
  exists ticks,
    runPhase_interleaved ticks phase seq data m
    = runPhase sched phase seq data m.
Proof.
  unfold runPhase, eg_Wait, schedule_order.
  rewrite launch_running, launch_err. cbn [eg_zero eg_running eg_err app].
  rewrite numbered_units_units, length_map, length_combine, length_seq,
    Nat.min_id.
  destruct (eg_steps_covers_eg_join (length phase) seq data (length phase)
              (combine (List.seq 1 (length phase)) phase) sched None [] [] m
              (5 * length phase))
    as (ticks & Hticks).
  { now rewrite length_combine, length_seq, Nat.min_id. }
  { lia. }
  exists ticks. cbv zeta in Hticks. rewrite <- Hticks.
  unfold runPhase_interleaved, joined. rewrite bind_run, started_units.
  reflexivity.
Qed.

End GoroutineProperties.

(** The lines of two goroutines interleave: the second is the first to
    write its starting line and the last to write its done line. *)
Example goroutines_interleave :
  stdlog (snd (runPhase_interleaved0 [1; 0; 0; 0; 0; 0]
                 [succeeds "A"; succeeds "B"] SequenceBoot nil_data
                 free_machine))
  = [LogTaskStarting "2/2"; LogTaskStarting "1/2";
     LogTaskDone "1/2"; LogTaskDone "2/2"]
  /\ world (snd (runPhase_interleaved0 [1; 0; 0; 0; 0; 0]
                   [succeeds "A"; succeeds "B"] SequenceBoot nil_data
                   free_machine))
     = ["A"; "B"]
  /\ fst (runPhase_interleaved0 [1; 0; 0; 0; 0; 0]
            [succeeds "A"; succeeds "B"] SequenceBoot nil_data free_machine)
     = None.
Proof. repeat split. Qed.

(** A goroutine whose [kmsg.SetupLogger] fails does not run its task, and
    still writes its two lines. *)
Example goroutine_without_logger :
  @runPhase_interleaved Markers unit unit unit SetupLogger_fails []
    [succeeds "A"] SequenceBoot nil_data free_machine
  = (Some (Errorf_task "1/1" (errors_New "kmsg")),
     {| ctl := ctl free_machine;
        stdlog := [LogTaskStarting "1/1"; LogTaskDone "1/1"];
        world := [] |}).
Proof. reflexivity. Qed.

(** The error kept is that of the goroutine that finishes first, not that
    of the task that fails first: task 1 fails before task 2, the goroutine
    of task 2 finishes before that of task 1, and the error is that of
    task 2. *)
Example first_to_finish_not_first_to_fail :
  ran (fst (joined0 [0; 0; 0; 1; 1; 1; 1; 1] two_failures SequenceBoot nil_data
              free_machine))
  = [(1, Some (errors_New "x")); (2, Some (errors_New "y"))]
  /\ map fst (finished (fst (joined0 [0; 0; 0; 1; 1; 1; 1; 1] two_failures
                               SequenceBoot nil_data free_machine)))
     = [2; 1]
  /\ fst (runPhase_interleaved0 [0; 0; 0; 1; 1; 1; 1; 1] two_failures
            SequenceBoot nil_data free_machine)
     = Some (Errorf_task "2/2" (errors_New "y")).
Proof. repeat split. Qed.

Lemma runPhase_joins_all_first_error_wins_witness :
  fst (runPhase_interleaved0 [2; 1; 0; 1; 2; 0; 1; 2; 1] three_tasks
         SequenceBoot nil_data free_machine)
  = Some (Errorf_task "2/3" (errors_New "t2"))
  /\ map fst (finished (fst (joined0 [2; 1; 0; 1; 2; 0; 1; 2; 1] three_tasks
                               SequenceBoot nil_data free_machine)))
     = [1; 2; 3]
  /\ Permutation
       (map fst (ran (fst (joined0 [2; 1; 0; 1; 2; 0; 1; 2; 1] three_tasks
                             SequenceBoot nil_data free_machine))))
       [1; 2; 3]
  /\ exists k e,
       1 <= k <= 3
       /\ Errorf_task "2/3" (errors_New "t2")
          = Errorf_task (Sprintf_progress k 3) e.
Proof.
  split; [reflexivity|]. split; [reflexivity|].
  destruct (runPhase_joins_all_first_error_wins SetupLogger_ok
              [2; 1; 0; 1; 2; 0; 1; 2; 1] three_tasks SequenceBoot nil_data
              free_machine)
    as (_ & _ & _ & Hran & _ & _ & _ & _ & _ & H).
  split; [exact Hran|].
  destruct (H (Errorf_task "2/3" (errors_New "t2")) eq_refl)
    as (k & e & _ & _ & Hk & _ & _ & He).
  exists k, e. split; [exact Hk|exact He].
Defined.


(** ** Further properties of the controller *)

Section MoreProperties.

Set Default Proof Using "Type".

Context {W Runtime UpgradeRequest ResetRequest : Type}.
Variable Runtime_Mode : Runtime -> Mode.
Variable Sequence_String : Sequence -> string.
Variable kmsg_SetupLogger : string -> W -> W * option error.

Local Abbreviation Machine := (@Machine W Runtime UpgradeRequest ResetRequest).
Local Abbreviation Controller :=
  (@Controller W Runtime UpgradeRequest ResetRequest).
Local Abbreviation M := (@M W Runtime UpgradeRequest ResetRequest).
Local Abbreviation Data := (@Data UpgradeRequest ResetRequest).
Local Abbreviation Phase := (@Phase W Runtime UpgradeRequest ResetRequest).
Local Abbreviation TaskSetupFunc :=
  (@TaskSetupFunc W Runtime UpgradeRequest ResetRequest).
Local Abbreviation Call := (@Call UpgradeRequest ResetRequest).
Local Abbreviation runTask :=
  (@runTask W Runtime UpgradeRequest ResetRequest kmsg_SetupLogger).
Local Abbreviation task_unit :=
  (@task_unit W Runtime UpgradeRequest ResetRequest kmsg_SetupLogger).
Local Abbreviation launch :=
  (@launch W Runtime UpgradeRequest ResetRequest kmsg_SetupLogger).
Local Abbreviation numbered_units :=
  (@numbered_units W Runtime UpgradeRequest ResetRequest kmsg_SetupLogger).
Local Abbreviation runPhase :=
  (@runPhase W Runtime UpgradeRequest ResetRequest kmsg_SetupLogger).
Local Abbreviation runPhase_spec :=
  (@runPhase_spec W Runtime UpgradeRequest ResetRequest kmsg_SetupLogger).
Local Abbreviation run_loop :=
  (@run_loop W Runtime UpgradeRequest ResetRequest
     Sequence_String kmsg_SetupLogger).
Local Abbreviation run :=
  (@run W Runtime UpgradeRequest ResetRequest
     Sequence_String kmsg_SetupLogger).
Local Abbreviation Run_locked :=
  (@Run_locked W Runtime UpgradeRequest ResetRequest
     Sequence_String kmsg_SetupLogger).
Local Abbreviation Run :=
  (@Run W Runtime UpgradeRequest ResetRequest
     Sequence_String kmsg_SetupLogger).
Local Abbreviation Run_step :=
  (@Run_step W Runtime UpgradeRequest ResetRequest
     Sequence_String kmsg_SetupLogger).
Local Abbreviation Run_steps :=
  (@Run_steps W Runtime UpgradeRequest ResetRequest
     Sequence_String kmsg_SetupLogger).
Local Abbreviation step_two :=
  (@step_two W Runtime UpgradeRequest ResetRequest
     Sequence_String kmsg_SetupLogger).
Local Abbreviation interleave :=
  (@interleave W Runtime UpgradeRequest ResetRequest
     Sequence_String kmsg_SetupLogger).
Local Abbreviation shutdown :=
  (@shutdown W Runtime UpgradeRequest ResetRequest
     Sequence_String kmsg_SetupLogger).
Local Abbreviation on_event :=
  (@on_event W Runtime UpgradeRequest ResetRequest
     Sequence_String kmsg_SetupLogger).
Local Abbreviation ListenForEvents :=
  (@ListenForEvents W Runtime UpgradeRequest ResetRequest
     Runtime_Mode Sequence_String kmsg_SetupLogger).
Local Abbreviation step_at :=
  (@step_at W Runtime UpgradeRequest ResetRequest
     Sequence_String kmsg_SetupLogger).
Local Abbreviation crowd :=
  (@crowd W Runtime UpgradeRequest ResetRequest
     Sequence_String kmsg_SetupLogger).

(** *** Planning *)

Lemma phases_without_payload (c : Controller) seq (data : Data) :
  seq <> SequenceUpgrade -> seq <> SequenceReset ->
  snd (phases c seq data) = None
  /\ forall data' : Data, phases c seq data' = phases c seq data.
Proof.
  intros HU HR. unfold phases.
  repeat match goal with
         | |- context [Z.eqb seq ?k] =>
             destruct (Z.eqb_spec seq k) as [e|?];
               [try contradiction; split; reflexivity|]
         end.
  split; reflexivity.
Qed.

Lemma phases_error_is_invalid (c : Controller) seq (data : Data) :
  snd (phases c seq data) <> None ->
  phases c seq data = ([], Some ErrInvalidSequenceData).
Proof.
  intros H.
  destruct (Z.eq_dec seq SequenceUpgrade) as [-> | HU];
    [|destruct (Z.eq_dec seq SequenceReset) as [-> | HR]].
  - destruct data; cbn in H |- *; congruence.
  - destruct data; cbn in H |- *; congruence.
  - destruct (phases_without_payload c seq data HU HR) as [Hn _]. congruence.
Qed.

(** X1: planning fails in exactly two cases, the Upgrade sequence without
    a [*UpgradeRequest] and the Reset sequence without a [*ResetRequest];
    the error is then [ErrInvalidSequenceData] and there are no phases.
    For every other sequence the data plays no part. *)
Theorem phases_fails_exactly (c : Controller) seq (data : Data) :
  (snd (phases c seq data) <> None
   <-> (seq = SequenceUpgrade /\ carries_UpgradePayload data = false)
       \/ (seq = SequenceReset /\ carries_ResetPayload data = false))
  /\ (snd (phases c seq data) <> None ->
      phases c seq data = ([], Some ErrInvalidSequenceData))
  /\ (seq <> SequenceUpgrade -> seq <> SequenceReset ->
      forall data' : Data, phases c seq data' = phases c seq data).
Proof.
  destruct (Z.eq_dec seq SequenceUpgrade) as [-> | HU];
    [|destruct (Z.eq_dec seq SequenceReset) as [-> | HR]].
  - repeat split; try contradiction.
    + intros H. left. split; [reflexivity|].
      destruct data; cbn in H |- *; congruence.
    + intros [[_ E] | [E _]]; [|discriminate E].
      destruct data; cbn in E |- *; congruence.
    + destruct data; cbn; congruence.
  - repeat split; try contradiction.
    + intros H. right. split; [reflexivity|].
      destruct data; cbn in H |- *; congruence.
    + intros [[E _] | [_ E]]; [discriminate E|].
      destruct data; cbn in E |- *; congruence.
    + destruct data; cbn; congruence.
  - destruct (phases_without_payload c seq data HU HR) as [Hn Hd].
    repeat split; try congruence;
      try (intros [[E _] | [E _]]; congruence);
      try (intros _ _; exact Hd).
Qed.

(** *** Tasks *)

(** X2: when the logger of a task cannot be set up, the task is not built
    and not run: [runTask] returns the error of [kmsg.SetupLogger] whatever
    the task is.  When the factory returns no task, [runTask] returns nil
    and the machine is what [kmsg.SetupLogger] left. *)
Theorem runTask_without_task n (f : TaskSetupFunc) seq (data : Data)
  (m : Machine) w' res :
  kmsg_SetupLogger ("[talos] task " ++ itoa n ++ ":") (world m) = (w', res) ->
  res <> None \/ f seq data = None ->
  runTask n f seq data m
  = (res, {| ctl := ctl m; stdlog := stdlog m; world := w' |}).
Proof.
  intros HL H. unfold runTask. rewrite bind_run. unfold on_world.
  rewrite HL. cbn [fst snd].
  destruct res as [e|]; [reflexivity|].
  destruct H as [H | H]; [congruence|]. rewrite H. reflexivity.
Qed.

(** *** Phases *)

Lemma first_failure_None (results : list (nat * option error)) :
  first_failure results = None <-> Forall (fun kr => snd kr = None) results.
Proof.
  induction results as [|[k [e|]] results IH]; cbn.
  - split; [constructor|reflexivity].
  - split; [discriminate|]. intros H. inversion H as [|? ? E]. discriminate E.
  - rewrite IH. split; [now constructor|]. intros H. now inversion H.
Qed.

(** X3: [runPhase] returns nil exactly when every task of the phase
    returned nil; each task of the phase has a result, and a phase without
    tasks returns nil and leaves the machine as it was. *)
Theorem runPhase_nil_iff sched (phase : Phase) seq (data : Data) (m : Machine) :
  let results :=
    fst (run_each (schedule_order sched
                     (numbered_units (length phase) seq data 0 phase)) m) in
  (fst (runPhase sched phase seq data m) = None
   <-> Forall (fun kr => snd kr = None) results)
  /\ length results = length phase
  /\ runPhase sched [] seq data m = (None, m).
Proof.
  intros results. split; [|split; [|reflexivity]].
  - rewrite runPhase_refines. unfold runPhase_spec. rewrite bind_run.
    cbn [ret fst]. fold results. rewrite <- first_failure_None.
    destruct (first_failure results) as [[k e]|]; cbn; split; congruence.
  - unfold results.
    rewrite <- (length_map fst), run_each_numbers, length_map.
    rewrite (Permutation_length (schedule_order_perm _ _)).
    rewrite <- (length_map fst), numbered_units_numbers. apply length_seq.
Qed.

Lemma runPhase_error_shape sched (phase : Phase) seq (data : Data)
  (m : Machine) err :
  fst (runPhase sched phase seq data m) = Some err ->
  exists k e,
    1 <= k <= length phase
    /\ err = Errorf_task (Sprintf_progress k (length phase)) e.
Proof.
  rewrite runPhase_refines. unfold runPhase_spec. rewrite bind_run.
  cbn [ret fst]. intros H.
  destruct (first_failure _) as [[k e']|] eqn:Hff; [|discriminate].
  cbn in H. injection H as ->.
  apply first_failure_In, run_each_In in Hff.
  destruct Hff as (f & m1 & Hin & Hres).
  apply (Permutation_in _ (schedule_order_perm _ _)) in Hin.
  apply numbered_units_In in Hin. destruct Hin as (task & _ & -> & Hk).
  rewrite task_unit_result in Hres.
  destruct (fst (runTask k task seq data _)) as [e|]; [|discriminate].
  cbn in Hres. injection Hres as ->. exists k, e. split; [lia|reflexivity].
Qed.

Lemma eg_join_kept (fs : list (M (option error))) e :
  forall m, fst (eg_join fs (Some e) m) = Some e.
Proof.
  induction fs as [|f fs IH]; intros m; [reflexivity|].
  cbn [eg_join]. unfold eg_finish. rewrite !bind_run. cbn [ret fst snd].
  destruct (fst (f m)); apply IH.
Qed.

Lemma numbered_units_nth total seq (data : Data) (phase : Phase) :
  forall number k task d,
    nth_error phase k = Some task ->
    nth k (map snd (numbered_units total seq data number phase)) d
    = task_unit total seq data (S (number + k)) task.
Proof.
  induction phase as [|t rest IH]; intros number k task d H.
  - destruct k; discriminate.
  - destruct k as [|k]; cbn in H |- *.
    + injection H as ->. now rewrite Nat.add_0_r.
    + rewrite (IH _ _ _ _ H). f_equal. lia.
Qed.

Lemma schedule_order_head {A : Type} (k : nat) (sched : list nat)
  (l : list A) (d : A) :
  k < length l ->
  exists rest, schedule_order (k :: sched) l = nth k l d :: rest.
Proof.
  intros Hk. unfold schedule_order.
  destruct l as [|x l]; [cbn in Hk; lia|].
  cbn [length schedule_from hd tl].
  rewrite Nat.mod_small by exact Hk.
  rewrite (nth_indep (x :: l) x d) by exact Hk. eauto.
Qed.

(** X4: which failure is returned is a matter of timing, not of position:
    for every task of a phase that fails when it is the first to finish,
    there is an order of completion in which [runPhase] returns the error
    of that task. *)
Theorem runPhase_any_failure_can_win (phase : Phase) seq (data : Data)
  (m : Machine) k task err :
  nth_error phase k = Some task ->
  fst (task_unit (length phase) seq data (S k) task m) = Some err ->
  exists sched, fst (runPhase sched phase seq data m) = Some err.
Proof.
  intros Hn Hf. exists [k].
  assert (Hk : k < length phase) by (apply nth_error_Some; congruence).
  unfold runPhase, eg_Wait.
  rewrite launch_running, launch_err. cbn [eg_zero eg_running eg_err app].
  set (us := map snd (numbered_units (length phase) seq data 0 phase)).
  assert (Hlen : length us = length phase).
  { unfold us. rewrite length_map.
    rewrite <- (length_map fst (numbered_units _ _ _ _ _)).
    rewrite numbered_units_numbers. apply length_seq. }
  destruct (schedule_order_head k [] us (ret None)) as [rest ->]; [lia|].
  unfold us. rewrite (numbered_units_nth _ _ _ _ 0 k task) by exact Hn.
  cbn [eg_join Nat.add]. unfold eg_finish. rewrite !bind_run.
  cbn [ret fst snd]. rewrite Hf. apply eg_join_kept.
Qed.

(** *** Run *)

Lemma phases_with_semaphore v (m : Machine) seq (data : Data) :
  phases (ctl (with_semaphore v m)) seq data = phases (ctl m) seq data.
Proof. reflexivity. Qed.

Lemma run_result scheds seq (ps : list Phase) (data : Data) (m : Machine) :
  fst (run scheds seq ps data m)
  = fst (run_loop scheds seq data (length ps) 0 ps
           (snd (log_Printf
                   (LogSequence (Sequence_String seq) (length ps)) m))).
Proof. unfold run. rewrite !bind_run. reflexivity. Qed.

Lemma run_appends scheds seq (ps : list Phase) (data : Data) (m : Machine) :
  exists new, stdlog (snd (run scheds seq ps data m)) = stdlog m ++ new.
Proof.
  unfold run. rewrite !bind_run. cbn [ret fst snd].
  set (m0 := snd (log_Printf _ m)).
  destruct (run_loop_trace Sequence_String kmsg_SetupLogger
              seq data (length ps) ps scheds 0 m0) as (j & new & Hl & _).
  cbn [log_Printf snd stdlog]. rewrite Hl. subst m0.
  cbn [log_Printf snd stdlog]. rewrite <- !app_assoc. eauto.
Qed.

(** X5: the errors of [Run].  Without a runtime context it is
    [ErrUndefinedRuntime]; with one and the flag set it is [ErrLocked];
    otherwise it is either the error of the planning,
    [ErrInvalidSequenceData], or the error of a planned phase [j], which
    wraps, with [j] and the name of the sequence, the error of a task [k]
    of that phase, which wraps, with [k] and the number of tasks of the
    phase, what the task returned. *)
Theorem Run_error_kinds scheds seq (data : Data) (m : Machine) err :
  fst (Run scheds seq data m) = Some err ->
  (r (ctl m) = None /\ err = ErrUndefinedRuntime)
  \/ (r (ctl m) <> None /\ semaphore (ctl m) <> 0%Z /\ err = ErrLocked)
  \/ (r (ctl m) <> None /\ semaphore (ctl m) = 0%Z
      /\ ((snd (phases (ctl m) seq data) = Some ErrInvalidSequenceData
           /\ err = ErrInvalidSequenceData)
          \/ exists j phase k e,
               snd (phases (ctl m) seq data) = None
               /\ nth_error (fst (phases (ctl m) seq data)) (j - 1) = Some phase
               /\ 1 <= j /\ 1 <= k <= length phase
               /\ err = Errorf_phase j (Sequence_String seq)
                          (Errorf_task (Sprintf_progress k (length phase)) e))).
Proof.
  intros H.
  destruct (r (ctl m)) as [rt|] eqn:Hr.
  2:{ rewrite Run_undefined in H by exact Hr. injection H as <-. auto. }
  right.
  destruct (Z.eq_dec (semaphore (ctl m)) 0) as [Hs | Hs].
  2:{ rewrite (Run_held _ _ _ _ _ _ rt) in H by assumption.
      injection H as <-. left. repeat split; congruence. }
  right. split; [congruence|]. split; [exact Hs|].
  rewrite (Run_free _ _ _ _ _ _ rt) in H by assumption. cbn [fst] in H.
  unfold Run_locked in H. rewrite phases_with_semaphore in H.
  pose proof (phases_error_is_invalid (ctl m) seq data) as Hfail.
  destruct (phases (ctl m) seq data) as [ps [e|]] eqn:Hp; cbn [fst snd] in *.
  - specialize (Hfail ltac:(discriminate)). injection Hfail as -> ->.
    left. split; [reflexivity|]. congruence.
  - right. clear Hfail. rewrite run_result in H.
    set (m0 := snd (log_Printf _ _)) in H.
    destruct (run_loop_trace Sequence_String kmsg_SetupLogger
                seq data (length ps) ps scheds 0 m0)
      as (j & new & _ & _ & _ & Hres).
    rewrite H in Hres. destruct Hres as (phase & e & m1 & Hj & Hn & Hrun & ->).
    assert (Hshape : fst (runPhase (nth (j - 1) scheds []) phase seq data m1)
                     = Some e) by now rewrite Hrun.
    apply runPhase_error_shape in Hshape. destruct Hshape as (k & e' & Hk & ->).
    exists j, phase, k, e'. repeat split; auto; lia.
Qed.

(** X6: [Run] leaves the controller as it was, whatever the flag was at
    the call, and it only adds lines to the log.  A call that returns one
    of the three sentinel errors has done nothing at all: the machine is
    as it was, without a line in the log. *)
Theorem Run_keeps_controller scheds seq (data : Data) (m : Machine) :
  ctl (snd (Run scheds seq data m)) = ctl m
  /\ (exists new, stdlog (snd (Run scheds seq data m)) = stdlog m ++ new)
  /\ (In (fst (Run scheds seq data m))
        [Some ErrUndefinedRuntime; Some ErrLocked;
         Some ErrInvalidSequenceData] ->
      snd (Run scheds seq data m) = m).
Proof.
  destruct (r (ctl m)) as [rt|] eqn:Hr.
  2:{ rewrite Run_undefined by exact Hr. cbn [fst snd].
      repeat split; auto. exists []. now rewrite app_nil_r. }
  destruct (Z.eq_dec (semaphore (ctl m)) 0) as [Hs | Hs].
  2:{ rewrite (Run_held _ _ _ _ _ _ rt) by assumption. cbn [fst snd].
      repeat split; auto. exists []. now rewrite app_nil_r. }
  rewrite (Run_free _ _ _ _ _ _ rt) by assumption. cbn [fst snd].
  assert (Hback : with_semaphore 0 (with_semaphore 1 m) = m)
    by (rewrite with_semaphore_twice; now apply with_semaphore_id).
  split; [|split].
  - unfold with_semaphore at 1. cbn [ctl]. rewrite keeps_ctl_Run_locked.
    cbn. destruct m as [[cr cs sem] lg w]. cbn in Hs |- *. now rewrite Hs.
  - cbn [with_semaphore stdlog]. unfold Run_locked.
    destruct (phases _ seq data) as [ps [e|]].
    + exists []. cbn. now rewrite app_nil_r.
    + destruct (run_appends scheds seq ps data (with_semaphore 1 m))
        as [new Hn].
      exists new. rewrite Hn. reflexivity.
  - unfold Run_locked.
    destruct (phases _ seq data) as [ps [e|]]; cbn [fst snd];
      [intros _; exact Hback|].
    intros Hin. exfalso.
    assert (Hne : forall e, fst (run scheds seq ps data (with_semaphore 1 m))
                            = Some e ->
                       exists k c, e = Errorf_phase k (Sequence_String seq) c).
    { intros e He. rewrite run_result in He.
      apply run_loop_shape in He. exact He. }
    cbn [In] in Hin.
    destruct Hin as [E | [E | [E | []]]]; symmetry in E;
      destruct (Hne _ E) as (k & c & Hk); discriminate Hk.
Qed.

(** *** Every task of a started phase finishes *)

Lemma finished_tasks_app (l1 l2 : list LogLine) :
  finished_tasks (l1 ++ l2) = finished_tasks l1 + finished_tasks l2.
Proof. unfold finished_tasks. now rewrite filter_app, length_app. Qed.

Lemma finished_tasks_lines total (ks : list nat) :
  finished_tasks (flat_map (task_lines total) ks) = length ks.
Proof.
  induction ks as [|k ks IH]; [reflexivity|].
  cbn [flat_map]. rewrite finished_tasks_app, IH. reflexivity.
Qed.

Lemma run_loop_tasks seq (data : Data) total (phases : list Phase) :
  forall scheds number m,
  exists new,
    stdlog (snd (run_loop scheds seq data total number phases m))
    = stdlog m ++ new
    /\ length (started_phases new) <= length phases
    /\ finished_tasks new
       = list_sum (map (@length _)
                     (firstn (length (started_phases new)) phases))
    /\ (fst (run_loop scheds seq data total number phases m) = None ->
        length (started_phases new) = length phases).
Proof.
  induction phases as [|phase rest IH]; intros scheds number m.
  - exists []. cbn. rewrite app_nil_r. auto.
  - cbn [run_loop]. rewrite !bind_run.
    set (m1 := snd (log_Printf _ m)).
    pose proof (runPhase_log kmsg_SetupLogger (hd [] scheds) phase seq data m1)
      as Hlog.
    assert (Hord : length (schedule_order (hd [] scheds)
                             (List.seq 1 (length phase))) = length phase)
      by (rewrite (Permutation_length (schedule_order_perm _ _));
          apply length_seq).
    destruct (fst (runPhase (hd [] scheds) phase seq data m1)) as [e|].
    + eexists. cbn [ret fst snd].
      split; [rewrite Hlog; subst m1; cbn [log_Printf snd stdlog];
              rewrite <- app_assoc; reflexivity|].
      rewrite started_phases_app, started_phases_tasks.
      rewrite finished_tasks_app, finished_tasks_lines, Hord.
      cbn. repeat split; try lia. discriminate.
    + rewrite bind_run. set (m3 := snd (log_Printf _ _)).
      destruct (IH (tl scheds) (S number) m3) as (new & Hl & Hj & Ht & Hn).
      eexists.
      split.
      { rewrite Hl. subst m3. cbn [log_Printf snd stdlog]. rewrite Hlog.
        subst m1. cbn [log_Printf snd stdlog]. rewrite <- !app_assoc.
        reflexivity. }
      rewrite !started_phases_app, started_phases_tasks.
      rewrite !finished_tasks_app, finished_tasks_lines, Hord, Ht.
      cbn. repeat split; try lia. intros H. now rewrite (Hn H).
Qed.

(** X7: [run] never leaves a phase that it started before all its tasks
    have finished, the failing phase included: the number of "task done"
    lines it writes is the number of tasks of the phases whose start it
    logged.  When [run] returns nil these are all the phases of the plan. *)
Theorem run_finishes_started_phases
  scheds seq (phases : list Phase) (data : Data) (m : Machine) :
  exists new,
    stdlog (snd (run scheds seq phases data m)) = stdlog m ++ new
    /\ length (started_phases new) <= length phases
    /\ finished_tasks new
       = list_sum (map (@length _)
                     (firstn (length (started_phases new)) phases))
    /\ (fst (run scheds seq phases data m) = None ->
        length (started_phases new) = length phases
        /\ finished_tasks new = list_sum (map (@length _) phases)).
Proof.
  rewrite run_result. unfold run. rewrite !bind_run. cbn [ret fst snd].
  set (m0 := snd (log_Printf _ m)).
  destruct (run_loop_tasks seq data (length phases) phases scheds 0 m0)
    as (new & Hl & Hj & Ht & Hn).
  exists (LogSequence (Sequence_String seq) (length phases)
            :: new ++ [LogSequenceDone (Sequence_String seq)]).
  assert (Hs : started_phases
                 (LogSequence (Sequence_String seq) (length phases)
                    :: new ++ [LogSequenceDone (Sequence_String seq)])
               = started_phases new).
  { unfold started_phases. cbn [flat_map app].
    rewrite flat_map_app. cbn. now rewrite app_nil_r. }
  assert (Hf : finished_tasks
                 (LogSequence (Sequence_String seq) (length phases)
                    :: new ++ [LogSequenceDone (Sequence_String seq)])
               = finished_tasks new).
  { unfold finished_tasks. cbn [filter].
    rewrite filter_app, length_app. cbn. lia. }
  rewrite Hs, Hf.
  split.
  { cbn [log_Printf snd stdlog]. rewrite Hl. subst m0.
    cbn [log_Printf snd stdlog]. rewrite <- !app_assoc. reflexivity. }
  split; [exact Hj|]. split; [exact Ht|].
  intros H. split; [exact (Hn H)|].
  rewrite Ht, (Hn H), firstn_all. reflexivity.
Qed.

(** *** The listener while a sequence runs *)

(** X8: a signal or a power event that arrives while the flag is set
    does not shut the machine down: the [Run] of the listener is turned
    away with [ErrLocked], which is logged; [ListenForEvents] returns nil,
    and nothing but the two log lines has changed. *)
Theorem shutdown_turned_away_while_locked
  (m : Machine) rt ev rest scheds :
  r (ctl m) = Some rt -> Runtime_Mode rt <> ModeContainer ->
  semaphore (ctl m) <> 0%Z ->
  ev = SIGTERM \/ ev = ACPI None ->
  ListenForEvents (ev :: rest) scheds m
  = (Returns None,
     {| ctl := ctl m;
        stdlog := stdlog m
                  ++ [match ev with
                      | SIGTERM => LogSIGTERM
                      | ACPI _ => LogACPI
                      end;
                      LogShutdownFailed ErrLocked];
        world := world m |}).
Proof.
  intros Hr Hm Hs Hev. unfold ListenForEvents.
  rewrite bind_run. cbn [get_r fst snd]. rewrite Hr.
  assert (Hc : Mode_eqb (Runtime_Mode rt) ModeContainer = false)
    by (destruct (Runtime_Mode rt); [reflexivity|contradiction|reflexivity]).
  rewrite Hc, bind_run.
  assert (Hsh : forall line,
             shutdown line scheds m
             = (None,
                {| ctl := ctl m;
                   stdlog := stdlog m ++ [line; LogShutdownFailed ErrLocked];
                   world := world m |})).
  { intros line. unfold shutdown. rewrite !bind_run.
    rewrite (Run_held _ _ _ _ _ _ rt) by assumption.
    cbn. now rewrite <- app_assoc. }
  destruct Hev as [-> | ->]; cbn [on_event]; rewrite Hsh; reflexivity.
Qed.

(** *** The lock has no owner *)

(** X9: [Unlock] is not tied to the call that holds the lock.  Called
    from outside while a sequence runs, it succeeds, and a new call of
    [Run], which would have been turned away, then gets the lock and
    reaches its phases while the first call is still in its own. *)
Theorem Unlock_has_no_owner (b : Call) (m : Machine) rt :
  r (ctl m) = Some rt -> semaphore (ctl m) = 1%Z ->
  Run_steps 2 b AtEntry m = (Returned (Some ErrLocked), m)
  /\ fst (Unlock m) = true
  /\ Run_steps 2 b AtEntry (snd (Unlock m)) = (AtPhases, m).
Proof.
  intros Hr Hs.
  assert (Hr' : r (ctl m) <> None) by congruence.
  split; [|split].
  - cbn [Run_steps]. rewrite bind_run, step_entry by exact Hr'.
    cbn [fst snd]. rewrite bind_run, step_trylock_held by lia. reflexivity.
  - now rewrite Unlock_held.
  - rewrite Unlock_held by exact Hs. cbn [snd Run_steps].
    rewrite bind_run, step_entry by exact Hr'.
    cbn [fst snd]. rewrite bind_run, step_trylock_free by reflexivity.
    cbn [fst snd ret]. rewrite with_semaphore_twice.
    now rewrite (with_semaphore_id 1 m Hs).
Qed.

(** *** Any number of calls *)

Lemma holders_cons (a : Call) pc (rest : list (Call * Pc)) :
  holders ((a, pc) :: rest)
  = (if holds_lock pc then 1 else 0) + holders rest.
Proof. unfold holders. cbn. now destruct (holds_lock pc). Qed.

Lemma Run_step_flag (a : Call) pc (m : Machine) (h : nat) :
  r (ctl m) <> None ->
  h + (if holds_lock pc then 1 else 0) <= 1 ->
  semaphore (ctl m) = Z.of_nat (h + (if holds_lock pc then 1 else 0)) ->
  r (ctl (snd (Run_step a pc m))) <> None
  /\ h + (if holds_lock (fst (Run_step a pc m)) then 1 else 0) <= 1
  /\ semaphore (ctl (snd (Run_step a pc m)))
     = Z.of_nat (h + (if holds_lock (fst (Run_step a pc m)) then 1 else 0)).
Proof.
  intros Hr Hh Hs. destruct pc as [| | |res|res]; cbn [holds_lock] in *.
  - rewrite step_entry by exact Hr. cbn [fst snd holds_lock].
    split; [exact Hr|split; [exact Hh|exact Hs]].
  - destruct h as [|h].
    + rewrite step_trylock_free by (rewrite Hs; reflexivity).
      cbn [fst snd holds_lock with_semaphore ctl r semaphore].
      split; [exact Hr|split; [lia|reflexivity]].
    + rewrite step_trylock_held by lia. cbn [fst snd holds_lock].
      split; [exact Hr|split; [exact Hh|exact Hs]].
  - rewrite step_phases. cbn [fst snd holds_lock].
    rewrite !keeps_ctl_Run_locked.
    split; [exact Hr|split; [exact Hh|exact Hs]].
  - rewrite step_unlock by lia.
    cbn [fst snd holds_lock with_semaphore ctl r semaphore].
    split; [exact Hr|split; lia].
  - cbn [Run_step ret fst snd holds_lock].
    split; [exact Hr|split; [exact Hh|exact Hs]].
Qed.

Lemma step_at_flag (calls : list (Call * Pc)) :
  forall k (m : Machine) (h : nat),
    r (ctl m) <> None ->
    h + holders calls <= 1 ->
    semaphore (ctl m) = Z.of_nat (h + holders calls) ->
    r (ctl (snd (step_at k calls m))) <> None
    /\ h + holders (fst (step_at k calls m)) <= 1
    /\ semaphore (ctl (snd (step_at k calls m)))
       = Z.of_nat (h + holders (fst (step_at k calls m)))
    /\ map fst (fst (step_at k calls m)) = map fst calls.
Proof.
  induction calls as [|[a pc] rest IH]; intros k m h Hr Hh Hs.
  - cbn [step_at ret fst snd map].
    split; [exact Hr|split; [exact Hh|split; [exact Hs|reflexivity]]].
  - rewrite holders_cons in Hh, Hs.
    destruct k as [|k]; cbn [step_at]; rewrite bind_run; cbn [ret fst snd];
      rewrite holders_cons.
    + destruct (Run_step_flag a pc m (h + holders rest)) as (H1 & H2 & H3);
        [exact Hr | lia | rewrite Hs; f_equal; lia |].
      split; [exact H1|split; [lia|split; [rewrite H3; f_equal; lia|]]].
      reflexivity.
    + destruct (IH k m (h + (if holds_lock pc then 1 else 0)))
        as (H1 & H2 & H3 & H4); [exact Hr | lia | rewrite Hs; f_equal; lia |].
      split; [exact H1|split; [lia|split; [rewrite H3; f_equal; lia|]]].
      cbn [map fst]. now rewrite H4.
Qed.

(** X10: single flight for any number of calls.  However many calls of
    [Run] are made on a controller whose lock is free, and however their
    steps interleave, at most one call is between its acquire and its
    release at any moment, and the flag is set exactly while one is. *)
Theorem crowd_single_flight (calls : list Call) (who : list nat)
  (m : Machine) rt :
  r (ctl m) = Some rt -> semaphore (ctl m) = 0%Z ->
  holders (fst (crowd who (entering calls) m)) <= 1
  /\ semaphore (ctl (snd (crowd who (entering calls) m)))
     = Z.of_nat (holders (fst (crowd who (entering calls) m)))
  /\ map fst (fst (crowd who (entering calls) m)) = calls.
Proof.
  intros Hr Hs.
  assert (Hgen : forall who (cs : list (Call * Pc)) (m : Machine),
             r (ctl m) <> None ->
             holders cs <= 1 ->
             semaphore (ctl m) = Z.of_nat (holders cs) ->
             holders (fst (crowd who cs m)) <= 1
             /\ semaphore (ctl (snd (crowd who cs m)))
                = Z.of_nat (holders (fst (crowd who cs m)))
             /\ map fst (fst (crowd who cs m)) = map fst cs).
  { clear. induction who as [|k who IH]; intros cs m Hr Hh Hs.
    - cbn [crowd ret fst snd]. split; [exact Hh|split; [exact Hs|reflexivity]].
    - cbn [crowd]. rewrite bind_run.
      destruct (step_at_flag cs k m 0 Hr Hh Hs) as (H1 & H2 & H3 & H4).
      destruct (IH _ _ H1 H2 H3) as (G1 & G2 & G3).
      split; [exact G1|split; [exact G2|]]. now rewrite G3. }
  assert (H0 : holders (entering calls) = 0).
  { unfold entering, holders. induction calls as [|a calls IH]; cbn; auto. }
  destruct (Hgen who (entering calls) m) as (G1 & G2 & G3);
    [congruence | lia | now rewrite H0 |].
  split; [exact G1|split; [exact G2|]]. rewrite G3. unfold entering.
  rewrite map_map. cbn. apply map_id.
Qed.

(** *** What a call that holds the lock can return *)

Lemma Run_locked_result scheds seq (data : Data) (m : Machine) err :
  fst (Run_locked scheds seq data m) = Some err ->
  err = ErrInvalidSequenceData
  \/ exists k c, err = Errorf_phase k (Sequence_String seq) c.
Proof.
  unfold Run_locked.
  pose proof (phases_error_is_invalid (ctl m) seq data) as Hfail.
  destruct (phases (ctl m) seq data) as [ps [e|]]; cbn [fst snd] in *.
  - specialize (Hfail ltac:(discriminate)). injection Hfail as _ ->.
    intros [= <-]. now left.
  - intros H. right. rewrite run_result in H.
    apply run_loop_shape in H. exact H.
Qed.

End MoreProperties.

(** ** Properties of the construction *)

Section HostProperties.

Local Open Scope Z_scope.

(** *** Decimal numbers *)

Ltac digit_case D :=
  exists D; split;
  [ reflexivity
  | intros d acc; cbn [Nat.of_uint_acc]; rewrite Nat.tail_mul_spec;
    reflexivity ].

Lemma digit_char (a : ascii) :
  match digit_value a with
  | Some k =>
      0 <= k <= 9
      /\ exists D : Decimal.uint -> Decimal.uint,
           (forall d, uint_of_char a (Some d) = Some (D d))
           /\ forall d acc,
               Nat.of_uint_acc (D d) acc
               = Nat.of_uint_acc d (Z.to_nat k + 10 * acc)%nat
  | None => forall d, uint_of_char a d = None
  end.
Proof.
  destruct a as [[|] [|] [|] [|] [|] [|] [|] [|]]; cbn;
    try (intros [d|]; reflexivity);
    (split; [lia|]);
    first [ digit_case Decimal.D0 | digit_case Decimal.D1
          | digit_case Decimal.D2 | digit_case Decimal.D3
          | digit_case Decimal.D4 | digit_case Decimal.D5
          | digit_case Decimal.D6 | digit_case Decimal.D7
          | digit_case Decimal.D8 | digit_case Decimal.D9 ].
Qed.

Lemma parse_digits_uint (str : string) :
  forall acc : nat,
    parse_digits str (Z.of_nat acc)
    = option_map (fun d => Z.of_nat (Nat.of_uint_acc d acc))
        (NilEmpty.uint_of_string str).
Proof.
  induction str as [|a str IH]; intros acc; [reflexivity|].
  cbn [parse_digits NilEmpty.uint_of_string].
  pose proof (digit_char a) as Ha.
  destruct (digit_value a) as [k|].
  - destruct Ha as (Hk & D & HD & Hacc).
    replace (Z.of_nat acc * 10 + k) with (Z.of_nat (Z.to_nat k + 10 * acc))
      by lia.
    rewrite IH.
    destruct (NilEmpty.uint_of_string str) as [d|]; cbn [option_map].
    + now rewrite HD, <- Hacc.
    + reflexivity.
  - now rewrite Ha.
Qed.

Lemma to_uint_nonnil (n : nat) : Nat.to_uint n <> Decimal.Nil.
Proof.
  rewrite <- (DecimalNat.Unsigned.of_to n) at 1.
  rewrite DecimalNat.Unsigned.to_of. apply DecimalFacts.unorm_nonnil.
Qed.

Lemma parse_digits_itoa (n : nat) :
  parse_digits (itoa n) 0 = Some (Z.of_nat n).
Proof.
  unfold itoa, NilZero.string_of_uint.
  pose proof (to_uint_nonnil n) as Hn.
  change 0 with (Z.of_nat 0). rewrite parse_digits_uint.
  destruct (Nat.to_uint n) eqn:E; try contradiction;
    rewrite <- E, NilEmpty.usu; cbn [option_map];
    change (Nat.of_uint_acc (Nat.to_uint n) 0)
      with (Nat.of_uint (Nat.to_uint n));
    now rewrite DecimalNat.Unsigned.of_to.
Qed.

Lemma parse_digits_ge (str : string) :
  forall acc v, parse_digits str acc = Some v -> 0 <= acc -> 0 <= v.
Proof.
  induction str as [|a str IH]; intros acc v; cbn [parse_digits].
  - intros [= <-]. auto.
  - pose proof (digit_char a) as Ha.
    destruct (digit_value a) as [k|]; [|discriminate].
    intros H Hacc. apply (IH _ _ H). lia.
Qed.

Lemma parse_digits_no_newline (str : string) :
  forall acc v,
    parse_digits str acc = Some v -> TrimSuffix_newline str = str.
Proof.
  induction str as [|a str IH]; intros acc v; [reflexivity|].
  cbn [parse_digits]. destruct (digit_value a) as [k|] eqn:Hd; [|discriminate].
  intros H. cbn [TrimSuffix_newline]. destruct str as [|b str].
  - destruct (Ascii.eqb_spec a "010"%char) as [-> | _]; [discriminate Hd|].
    reflexivity.
  - now rewrite (IH _ _ H).
Qed.

Lemma TrimSuffix_newline_app (str : string) :
  TrimSuffix_newline (str ++ String "010" EmptyString) = str.
Proof.
  induction str as [|a str IH]; [reflexivity|].
  cbn [String.append TrimSuffix_newline]. rewrite IH.
  destruct str; reflexivity.
Qed.

Lemma parse_digits_mono (str : string) :
  forall acc v, parse_digits str acc = Some v -> 0 <= acc -> acc <= v.
Proof.
  induction str as [|a str IH]; intros acc v; cbn [parse_digits].
  - intros [= <-]. lia.
  - pose proof (digit_char a) as Ha.
    destruct (digit_value a) as [k|]; [|discriminate].
    intros H Hacc. pose proof (IH _ _ H ltac:(lia)). lia.
Qed.

Lemma parse_digits_bound (str : string) :
  forall acc v,
    parse_digits str acc = Some v -> 0 <= acc ->
    v < (acc + 1) * 10 ^ Z.of_nat (String.length str).
Proof.
  induction str as [|a str IH]; intros acc v; cbn [parse_digits].
  - intros [= <-] _. cbn. lia.
  - pose proof (digit_char a) as Ha.
    destruct (digit_value a) as [k|]; [|discriminate].
    intros H Hacc. pose proof (IH _ _ H ltac:(lia)) as Hv.
    cbn [String.length]. rewrite Nat2Z.inj_succ, Z.pow_succ_r by lia.
    pose proof (Z.pow_pos_nonneg 10 (Z.of_nat (String.length str))
                  ltac:(lia) ltac:(lia)).
    nia.
Qed.

(** Where the fast loop finds a number that 64 bits hold, the loop of
    [ParseUint] finds the same. *)
Lemma ParseUint_loop_digits (str : string) :
  forall acc v,
    parse_digits str acc = Some v -> 0 <= acc -> v <= maxUint64 ->
    ParseUint_loop str acc = inl v.
Proof.
  induction str as [|a str IH]; intros acc v;
    cbn [parse_digits ParseUint_loop].
  - intros [= <-] _ _. reflexivity.
  - pose proof (digit_char a) as Ha.
    destruct (digit_value a) as [k|]; [|discriminate].
    intros H Hacc Hv.
    pose proof (parse_digits_mono _ _ _ H ltac:(lia)) as Hm.
    unfold maxUint64 in *.
    destruct (Z.leb_spec (18446744073709551615 / 10 + 1) acc) as [Hc|_].
    { exfalso. change (18446744073709551615 / 10 + 1)
        with 1844674407370955162 in Hc. lia. }
    cbv zeta.
    destruct (Z.ltb_spec 18446744073709551615 (acc * 10 + k)) as [Hc|_];
      [lia|].
    apply IH; [exact H|lia|exact Hv].
Qed.

Lemma digit_no_sign (a : ascii) k :
  digit_value a = Some k ->
  Ascii.eqb a "-" = false /\ Ascii.eqb a "+" = false.
Proof.
  intros Hd.
  split; [destruct (Ascii.eqb_spec a "-"%char) as [-> | _]
         |destruct (Ascii.eqb_spec a "+"%char) as [-> | _]];
    try reflexivity; discriminate Hd.
Qed.

Lemma Atoi_digits (str : string) v :
  str <> EmptyString -> parse_digits str 0 = Some v -> v <= maxInt64 ->
  Atoi str = inl v.
Proof.
  intros Hne Hp Hv. pose proof (parse_digits_ge _ _ _ Hp ltac:(lia)) as H0.
  destruct str as [|a rest]; [contradiction|].
  assert (Hsign : Ascii.eqb a "-" = false /\ Ascii.eqb a "+" = false).
  { cbn [parse_digits] in Hp.
    destruct (digit_value a) eqn:Hd; [|discriminate].
    exact (digit_no_sign _ _ Hd). }
  destruct Hsign as [Hm Hpl]. unfold Atoi.
  destruct ((0 <? String.length (String a rest))%nat
            && (String.length (String a rest) <? 19)%nat).
  - rewrite Hm, Hpl. cbn [orb andb]. now rewrite Hp.
  - unfold ParseInt. rewrite Hm, Hpl. cbn [orb negb andb]. unfold ParseUint.
    rewrite (ParseUint_loop_digits _ _ _ Hp ltac:(lia))
      by (unfold maxUint64, maxInt64 in *; lia).
    destruct (Z.leb_spec (2 ^ 63) v) as [Hc|_];
      [unfold maxInt64 in Hv; lia|reflexivity].
Qed.

Lemma itoa_nonempty (n : nat) : itoa n <> EmptyString.
Proof.
  intros H. pose proof (parse_digits_itoa n) as Hp.
  unfold itoa in *. pose proof (to_uint_nonnil n) as Hn.
  unfold NilZero.string_of_uint in H.
  destruct (Nat.to_uint n); try contradiction; discriminate H.
Qed.

Lemma Atoi_itoa (n : nat) :
  Z.of_nat n <= maxInt64 -> Atoi (itoa n) = inl (Z.of_nat n).
Proof.
  intros H. apply Atoi_digits;
    [apply itoa_nonempty | apply parse_digits_itoa | exact H].
Qed.

Lemma ParseUint_loop_ge (str : string) :
  forall acc v, ParseUint_loop str acc = inl v -> 0 <= acc -> 0 <= v.
Proof.
  induction str as [|a str IH]; intros acc v; cbn [ParseUint_loop].
  - intros [= <-]. auto.
  - pose proof (digit_char a) as Ha.
    destruct (digit_value a) as [k|]; [|discriminate].
    destruct (_ <=? acc); [discriminate|]. cbv zeta.
    destruct (_ <? _); [discriminate|].
    intros H Hacc. apply (IH _ _ H). lia.
Qed.

Lemma ParseInt_range (str : string) i :
  ParseInt str = inl i -> minInt64 <= i <= maxInt64.
Proof.
  unfold ParseInt. destruct str as [|a rest]; [discriminate|].
  set (body := if Ascii.eqb a "+" || Ascii.eqb a "-" then rest
               else String a rest).
  assert (Hun : forall un, ParseUint body = inl un -> 0 <= un).
  { intros un. unfold ParseUint. destruct body; [discriminate|].
    intros H. apply (ParseUint_loop_ge _ _ _ H). lia. }
  destruct (ParseUint body) as [un|[|]]; [|discriminate|].
  - specialize (Hun un eq_refl).
    destruct (Ascii.eqb a "-"); cbn [negb andb].
    + destruct (Z.ltb_spec (2 ^ 63) un) as [|Hc]; [discriminate|].
      intros [= <-]. unfold minInt64, maxInt64. lia.
    + destruct (Z.leb_spec (2 ^ 63) un) as [|Hc]; [discriminate|].
      intros [= <-]. unfold minInt64, maxInt64. lia.
  - destruct (Ascii.eqb a "-"); cbn [negb andb]; discriminate.
Qed.

Lemma Atoi_range (str : string) i :
  Atoi str = inl i -> minInt64 <= i <= maxInt64.
Proof.
  unfold Atoi.
  destruct ((0 <? String.length str)%nat && (String.length str <? 19)%nat)
    eqn:Hlen.
  - apply andb_prop in Hlen. destruct Hlen as [_ Hlen].
    apply Nat.ltb_lt in Hlen.
    destruct str as [|a rest]; [discriminate|].
    set (body := if Ascii.eqb a "-" || Ascii.eqb a "+" then rest
                 else String a rest).
    assert (Hb : (String.length body <= 18)%nat).
    { subst body. cbn [String.length] in Hlen.
      destruct (_ || _); cbn [String.length]; lia. }
    destruct (_ && _); [discriminate|].
    destruct (parse_digits body 0) as [n|] eqn:Hp; [|discriminate].
    pose proof (parse_digits_ge _ _ _ Hp ltac:(lia)) as H0.
    pose proof (parse_digits_bound _ _ _ Hp ltac:(lia)) as H1.
    assert (H2 : 10 ^ Z.of_nat (String.length body) <= 10 ^ 18)
      by (apply Z.pow_le_mono_r; lia).
    change (10 ^ 18) with 1000000000000000000 in H2.
    intros [= <-]. unfold minInt64, maxInt64.
    destruct (Ascii.eqb a "-"); lia.
  - destruct (ParseInt str) as [j|e] eqn:Hp; [|discriminate].
    intros [= <-]. exact (ParseInt_range _ _ Hp).
Qed.

(** [strconv.Atoi] at the borders: the largest and the smallest [int]; one
    more is a range error; a byte that is no digit is a syntax error when the
    scan meets it before the value leaves the 64 bits, and is never seen
    when the value leaves them first. *)
Example Atoi_borders :
  Atoi "9223372036854775807" = inl maxInt64
  /\ Atoi "-9223372036854775808" = inl minInt64
  /\ Atoi "9223372036854775808"
     = inr (NumError "Atoi" "9223372036854775808" ErrRange)
  /\ Atoi "9223372036854775808x"
     = inr (NumError "Atoi" "9223372036854775808x" ErrSyntax)
  /\ Atoi "99999999999999999999x"
     = inr (NumError "Atoi" "99999999999999999999x" ErrRange)
  /\ Atoi "" = inr (NumError "Atoi" "" ErrSyntax)
  /\ Atoi "+" = inr (NumError "Atoi" "+" ErrSyntax)
  /\ Atoi "-0" = inl 0
  /\ Atoi "1_000" = inr (NumError "Atoi" "1_000" ErrSyntax).
Proof. repeat split. Qed.

Lemma wrap64_small (z : Z) : minInt64 <= z <= maxInt64 -> wrap64 z = z.
Proof.
  unfold wrap64, minInt64, maxInt64. intros H.
  rewrite Z.mod_small by lia. lia.
Qed.

Lemma wrap64_range (z : Z) : minInt64 <= wrap64 z <= maxInt64.
Proof.
  unfold wrap64, minInt64, maxInt64.
  pose proof (Z.mod_pos_bound (z + 9223372036854775808) 18446744073709551616
                ltac:(lia)).
  lia.
Qed.

(** *** The wait for USB storage *)

Lemma append_empty (str : string) : (str ++ "")%string = str.
Proof. induction str as [|a str IH]; cbn; [reflexivity|now rewrite IH]. Qed.

(** X11: the decimal text of a delay is read back as written.  When the
    parameter file exists and holds the decimal digits of [n], with or
    without one newline behind them, [waitForUSBDelay] logs that it waits
    [n] seconds, sleeps exactly [n] seconds and returns nil, for every [n]
    up to 9223372036. *)
Theorem waitForUSBDelay_waits_decimal (h : Host) (n : nat) (newline : bool) :
  os_Stat h delay_use = None ->
  ioutil_ReadFile h delay_use
  = inl (itoa n ++ (if newline then String "010" EmptyString else ""))%string ->
  Z.of_nat n <= 9223372036 ->
  waitForUSBDelay h
  = (None,
     {| os_Stat := os_Stat h; ioutil_ReadFile := ioutil_ReadFile h;
        hostlog := hostlog h ++ [LogWaitingUSB (Z.of_nat n)];
        slept := slept h + Z.of_nat n * 1000000000 |}).
Proof.
  intros Hstat Hread Hn. unfold waitForUSBDelay. rewrite Hstat, Hread.
  assert (Htrim : TrimSuffix_newline
                    (itoa n
                     ++ (if newline then String "010" EmptyString else ""))
                  = itoa n).
  { destruct newline.
    - apply TrimSuffix_newline_app.
    - rewrite append_empty.
      apply (parse_digits_no_newline _ _ _ (parse_digits_itoa n)). }
  rewrite Htrim, Atoi_itoa by (unfold maxInt64; lia).
  unfold time_Sleep, host_Printf, seconds, time_Second. cbn [os_Stat
    ioutil_ReadFile hostlog slept].
  rewrite wrap64_small by (unfold minInt64, maxInt64; lia).
  rewrite Z.max_r by lia. reflexivity.
Qed.

(** X12: [waitForUSBDelay] fails in three ways only, and then it has
    neither logged nor slept: [os.Stat] failed with an error that does not
    say that the file is missing; the file could not be read; or what it
    holds, less one trailing newline, is no decimal number that fits an
    [int].  A missing file is no failure and no wait. *)
Theorem waitForUSBDelay_fails_cleanly (h : Host) :
  (forall e,
      os_Stat h delay_use = Some e -> os_IsNotExist e = true ->
      waitForUSBDelay h = (None, h))
  /\ forall err,
      fst (waitForUSBDelay h) = Some err ->
      snd (waitForUSBDelay h) = h
      /\ ((os_Stat h delay_use = Some err /\ os_IsNotExist err = false)
          \/ (os_Stat h delay_use = None
              /\ ioutil_ReadFile h delay_use = inr err)
          \/ (os_Stat h delay_use = None
              /\ exists b num_err,
                  ioutil_ReadFile h delay_use = inl b
                  /\ err = NumError "Atoi" (TrimSuffix_newline b) num_err
                  /\ Atoi (TrimSuffix_newline b) = inr err)).
Proof.
  unfold waitForUSBDelay. split.
  - intros e -> ->. reflexivity.
  - intros err.
    destruct (os_Stat h delay_use) as [e|].
    + destruct (os_IsNotExist e) eqn:He; cbn [fst snd]; [discriminate|].
      intros [= <-]. auto.
    + destruct (ioutil_ReadFile h delay_use) as [b|e]; cbn [fst snd].
      * destruct (Atoi (TrimSuffix_newline b)) as [i|e] eqn:Ha;
          cbn [fst snd]; [discriminate|].
        intros [= <-]. split; [reflexivity|]. right. right.
        split; [reflexivity|]. exists b.
        assert (Hshape : exists num_err,
                   e = NumError "Atoi" (TrimSuffix_newline b) num_err).
        { unfold Atoi in Ha.
          destruct (_ && _) in Ha.
          - destruct (TrimSuffix_newline b) as [|a rest];
              [inversion Ha; eauto|].
            destruct (_ && _) in Ha; [inversion Ha; eauto|].
            destruct (parse_digits _ 0) in Ha; inversion Ha; eauto.
          - destruct (ParseInt _) in Ha; inversion Ha; eauto. }
        destruct Hshape as [num_err ->]. eauto.
      * intros [= <-]. auto.
Qed.

(** X13: how long [waitForUSBDelay] sleeps for a file that holds the
    number [i].  From 0 to 9223372036 it is exactly [i] seconds; from
    -9223372036 to 0 it does not sleep; above 9223372036 the product with
    [time.Second] wraps around and the sleep is shorter than [i] seconds. *)
Theorem waitForUSBDelay_sleep_bounds (h : Host) (b : string) (i : Z) :
  os_Stat h delay_use = None ->
  ioutil_ReadFile h delay_use = inl b ->
  Atoi (TrimSuffix_newline b) = inl i ->
  fst (waitForUSBDelay h) = None
  /\ hostlog (snd (waitForUSBDelay h)) = hostlog h ++ [LogWaitingUSB i]
  /\ slept h <= slept (snd (waitForUSBDelay h))
  /\ (0 <= i <= 9223372036 ->
      slept (snd (waitForUSBDelay h)) = slept h + i * 1000000000)
  /\ (-9223372036 <= i <= 0 -> slept (snd (waitForUSBDelay h)) = slept h)
  /\ (9223372036 < i ->
      slept (snd (waitForUSBDelay h)) < slept h + i * 1000000000).
Proof.
  intros Hstat Hread Ha. unfold waitForUSBDelay.
  rewrite Hstat, Hread, Ha. cbn [fst snd time_Sleep host_Printf hostlog slept].
  unfold seconds, time_Second.
  pose proof (wrap64_range (i * 1000000000)) as Hw.
  unfold minInt64, maxInt64 in Hw.
  repeat split; try lia.
  - intros Hi. rewrite wrap64_small by (unfold minInt64, maxInt64; lia). lia.
  - intros Hi. rewrite wrap64_small by (unfold minInt64, maxInt64; lia). lia.
Qed.

(** *** Progress texts *)

Lemma digits_split (s1 : string) :
  forall s2 t1 t2 a1 a2 v1 v2,
    parse_digits s1 a1 = Some v1 -> parse_digits s2 a2 = Some v2 ->
    (s1 ++ String "/" t1)%string = (s2 ++ String "/" t2)%string ->
    s1 = s2 /\ t1 = t2.
Proof.
  induction s1 as [|c s1 IH]; intros s2 t1 t2 a1 a2 v1 v2 H1 H2 E.
  - destruct s2 as [|d s2]; cbn in E.
    + injection E as ->. auto.
    + injection E as <- _. cbn in H2. discriminate H2.
  - destruct s2 as [|d s2]; cbn in E.
    + injection E as -> _. cbn in H1. discriminate H1.
    + injection E as -> E. cbn [parse_digits] in H1, H2.
      destruct (digit_value d); [|discriminate].
      destruct (IH _ _ _ _ _ _ _ H1 H2 E) as [-> ->]. auto.
Qed.

(** X19: the progress text "k/n" of the log lines and of the task errors
    tells both numbers: two texts are equal only if the numbers are, so
    the error of a phase names the failing task without ambiguity. *)
Theorem Sprintf_progress_injective (k n k' n' : nat) :
  Sprintf_progress k n = Sprintf_progress k' n' -> k = k' /\ n = n'.
Proof.
  unfold Sprintf_progress. intros E.
  destruct (digits_split _ _ _ _ _ _ _ _
              (parse_digits_itoa k) (parse_digits_itoa k') E) as [Hk Hn].
  pose proof (parse_digits_itoa k) as Pk. rewrite Hk in Pk.
  rewrite parse_digits_itoa in Pk.
  pose proof (parse_digits_itoa n) as Pn. rewrite Hn in Pn.
  rewrite parse_digits_itoa in Pn.
  injection Pk as Pk. injection Pn as Pn. lia.
Qed.

End HostProperties.

Section ConstructionProperties.

Set Default Proof Using "Type".

Context {W Runtime UpgradeRequest ResetRequest State Configurator : Type}.
Variable NewState : Host -> State + host_error.
Variable config_NewFromBytes : string -> Configurator + host_error.
Variable NewRuntime : option Configurator -> State -> option Runtime.
Variable NewSequencer : @Sequencer W Runtime UpgradeRequest ResetRequest.
Variable Sequence_String : Sequence -> string.
Variable kmsg_SetupLogger : string -> W -> W * option error.

Local Abbreviation NewController_with parser :=
  (@NewController W Runtime UpgradeRequest ResetRequest State Configurator
     NewState parser NewRuntime NewSequencer).
Local Abbreviation NewController := (NewController_with config_NewFromBytes).
Local Abbreviation Run :=
  (@Run W Runtime UpgradeRequest ResetRequest
     Sequence_String kmsg_SetupLogger).

(** X14: [NewController] returns either a controller or an error, never
    both and never neither.  The controller it returns has the lock free,
    the sequencer of [NewSequencer] and the runtime that [NewRuntime] makes
    of the parsed configuration (none for nil bytes) and the new state. *)
Theorem NewController_one_of_two (b : option string) (h : Host) :
  (fst (fst (NewController b h)) = None
   <-> snd (fst (NewController b h)) <> None)
  /\ forall c,
      fst (fst (NewController b h)) = Some c ->
      semaphore c = 0%Z /\ s c = NewSequencer
      /\ exists st,
          NewState (snd (waitForUSBDelay h)) = inl st
          /\ ((b = None /\ r c = NewRuntime None st)
              \/ exists bytes cfg,
                  b = Some bytes /\ config_NewFromBytes bytes = inl cfg
                  /\ r c = NewRuntime (Some cfg) st).
Proof.
  unfold NewController.
  destruct (waitForUSBDelay h) as [[e|] h1]; cbn [fst snd].
  { split; [split; [discriminate|reflexivity]|]. discriminate. }
  destruct (NewState h1) as [st|e]; cbn [fst snd].
  2:{ split; [split; [discriminate|reflexivity]|]. discriminate. }
  assert (Hok : forall cfg,
             let c := {| r := NewRuntime cfg st; s := NewSequencer;
                         semaphore := 0 |} in
             (Some c = None <-> @None host_error <> None)
             /\ forall c', Some c = Some c' ->
                  semaphore c' = 0%Z /\ s c' = NewSequencer
                  /\ r c' = NewRuntime cfg st).
  { intros cfg c. split; [split; [discriminate|congruence]|].
    intros c' [= <-]. repeat split. }
  destruct b as [bytes|].
  - destruct (config_NewFromBytes bytes) as [cfg|e] eqn:Hc; cbn [fst snd].
    + destruct (Hok (Some cfg)) as [H1 H2].
      split; [exact H1|]. intros c' Hc'.
      destruct (H2 c' Hc') as (G1 & G2 & G3).
      split; [exact G1|]. split; [exact G2|]. exists st.
      split; [reflexivity|]. right. exists bytes, cfg. auto.
    + split; [split; [discriminate|reflexivity]|]. discriminate.
  - cbn [fst snd]. destruct (Hok None) as [H1 H2].
    split; [exact H1|]. intros c' Hc'.
    destruct (H2 c' Hc') as (G1 & G2 & G3).
    split; [exact G1|]. split; [exact G2|]. exists st. auto.
Qed.

(** X15: the errors of [NewController], in their order.  A failed wait
    for USB storage is returned as it is, whatever the state and the
    configuration are; then a failed [NewState]; a configuration that does
    not parse is returned wrapped as "failed to parse config"; and with nil
    bytes the parser is not asked at all: the result is the same for every
    parser. *)
Theorem NewController_errors (b : option string) (h : Host) :
  (forall e,
      fst (waitForUSBDelay h) = Some e ->
      fst (NewController b h) = (None, Some e))
  /\ (fst (waitForUSBDelay h) = None ->
      (forall e,
          NewState (snd (waitForUSBDelay h)) = inr e ->
          fst (NewController b h) = (None, Some e))
      /\ forall st bytes e,
          NewState (snd (waitForUSBDelay h)) = inl st ->
          b = Some bytes -> config_NewFromBytes bytes = inr e ->
          fst (NewController b h) = (None, Some (Errorf_config e)))
  /\ forall parser' : string -> Configurator + host_error,
      NewController_with parser' None h = NewController None h.
Proof.
  unfold NewController.
  destruct (waitForUSBDelay h) as [[e0|] h1]; cbn [fst snd].
  - split; [intros e [= <-]; reflexivity|]. split; [discriminate|reflexivity].
  - split; [discriminate|]. split; [|reflexivity].
    intros _. split.
    + intros e ->. reflexivity.
    + intros st bytes e -> -> ->. reflexivity.
Qed.

(** X16: a controller that [NewController] returns can run at once.  If
    [NewRuntime] never returns nil, then on a machine with that controller
    [Run] returns neither [ErrUndefinedRuntime] nor [ErrLocked], whatever
    the sequence and the data. *)
Theorem NewController_ready_to_Run (b : option string) (h : Host) c
  (m : @Machine W Runtime UpgradeRequest ResetRequest) scheds seq data :
  (forall cfg st, NewRuntime cfg st <> None) ->
  fst (fst (NewController b h)) = Some c ->
  ctl m = c ->
  fst (Run scheds seq data m) <> Some ErrUndefinedRuntime
  /\ fst (Run scheds seq data m) <> Some ErrLocked.
Proof.
  intros Hrt Hc Hm.
  assert (Hfields : semaphore c = 0%Z /\ r c <> None).
  { revert Hc. unfold NewController.
    destruct (waitForUSBDelay h) as [[e|] h1]; cbn [fst snd]; [discriminate|].
    destruct (NewState h1) as [st|e]; cbn [fst snd]; [|discriminate].
    destruct b as [bytes|]; [destruct (config_NewFromBytes bytes)|];
      cbn [fst snd]; try discriminate;
      intros [= <-]; cbn; split; auto. }
  destruct Hfields as [Hs Hr]. rewrite <- Hm in Hs, Hr.
  destruct (r (ctl m)) as [rt|] eqn:Er; [|contradiction].
  rewrite (Run_free Sequence_String kmsg_SetupLogger _ _ _ _ rt Er Hs).
  cbn [fst].
  split; intros H; apply Run_locked_result in H;
    destruct H as [H | (k & e & H)]; discriminate H.
Qed.

End ConstructionProperties.

(** ** Properties of the time service *)

Section TimeServiceProperties.

Set Default Proof Using "Type".

Context {T Timestamp : Type}.
Variable ptypes_TimestampProto : T -> Timestamp + error.
Variable ntp_NewNTPClient : string -> @NTP T + error.

Local Abbreviation genProtobufTimeResponse :=
  (genProtobufTimeResponse ptypes_TimestampProto).
Local Abbreviation Registrator_Time :=
  (Registrator_Time ptypes_TimestampProto).
Local Abbreviation Registrator_TimeCheck :=
  (Registrator_TimeCheck ptypes_TimestampProto ntp_NewNTPClient).

Lemma genProtobufTimeResponse_cases (local remote : T) (server : string) :
  (exists e,
      genProtobufTimeResponse local remote server = (empty_response, Some e)
      /\ (ptypes_TimestampProto local = inr e
          \/ (exists l, ptypes_TimestampProto local = inl l)
             /\ ptypes_TimestampProto remote = inr e))
  \/ exists l rm,
      ptypes_TimestampProto local = inl l
      /\ ptypes_TimestampProto remote = inl rm
      /\ genProtobufTimeResponse local remote server
         = ({| Messages := [{| Server := server; Localtime := l;
                               Remotetime := rm |}] |}, None).
Proof.
  unfold genProtobufTimeResponse.
  destruct (ptypes_TimestampProto local) as [l|e]; [|left; eauto].
  destruct (ptypes_TimestampProto remote) as [rm|e]; [right|left]; eauto 8.
Qed.

(** X17: the replies of the time service.  [Time] and [TimeCheck] return
    messages exactly when they return no error; the reply then holds one
    message, with the two times converted, and its server is the server of
    the registrator's client for [Time] and the server of the request for
    [TimeCheck], whatever server the new client reports. *)
Theorem time_service_reply (reg : Registrator) (in_Server : string) :
  (snd (Registrator_Time reg) = None
   <-> Messages (fst (Registrator_Time reg)) <> [])
  /\ (snd (Registrator_TimeCheck reg in_Server) = None
      <-> Messages (fst (Registrator_TimeCheck reg in_Server)) <> [])
  /\ (snd (Registrator_Time reg) = None ->
      exists rt l rm,
        Query (Timed reg) = inl rt
        /\ ptypes_TimestampProto (GetTime (Timed reg)) = inl l
        /\ ptypes_TimestampProto rt = inl rm
        /\ Messages (fst (Registrator_Time reg))
           = [{| Server := NTP_Server (Timed reg); Localtime := l;
                 Remotetime := rm |}])
  /\ (snd (Registrator_TimeCheck reg in_Server) = None ->
      exists tc rt l rm,
        ntp_NewNTPClient in_Server = inl tc
        /\ Query tc = inl rt
        /\ ptypes_TimestampProto (GetTime tc) = inl l
        /\ ptypes_TimestampProto rt = inl rm
        /\ Messages (fst (Registrator_TimeCheck reg in_Server))
           = [{| Server := in_Server; Localtime := l; Remotetime := rm |}]).
Proof.
  assert (Hgen : forall local remote server,
             (snd (genProtobufTimeResponse local remote server) = None
              <-> Messages (fst (genProtobufTimeResponse local remote server))
                  <> [])
             /\ (snd (genProtobufTimeResponse local remote server) = None ->
                 exists l rm,
                   ptypes_TimestampProto local = inl l
                   /\ ptypes_TimestampProto remote = inl rm
                   /\ Messages
                        (fst (genProtobufTimeResponse local remote server))
                      = [{| Server := server; Localtime := l;
                            Remotetime := rm |}])).
  { intros local remote server.
    destruct (genProtobufTimeResponse_cases local remote server)
      as [(e & -> & _) | (l & rm & Hl & Hr & ->)]; cbn [fst snd Messages].
    - split; [split; [discriminate|intros H; now contradiction H]|].
      discriminate.
    - split; [split; [discriminate|reflexivity]|]. eauto. }
  assert (Hempty : forall e : error,
             (Some e = None <-> Messages (@empty_response Timestamp) <> [])).
  { intros e. split; [discriminate|intros H; now contradiction H]. }
  unfold Registrator_Time, Registrator_TimeCheck.
  destruct (Query (Timed reg)) as [rt|e] eqn:Hq;
    destruct (ntp_NewNTPClient in_Server) as [tc|e'] eqn:Hc; cbn [fst snd];
    try (destruct (Query tc) as [rt'|e''] eqn:Hq'; cbn [fst snd]);
    repeat match goal with
           | |- _ /\ _ => split
           end;
    try apply Hempty; try apply Hgen; try discriminate;
    intros H; apply Hgen in H; destruct H as (l & rm & Hl & Hr & Hm);
    eauto 10.
Qed.

(** X18: the errors of the time service, in their order.  [TimeCheck]
    returns the error of the client it could not make, else the error of
    the query, else the error of the conversion of the local time, else
    that of the remote time; [Time] the same from the query on.  With any
    of them the reply is the empty response. *)
Theorem time_service_errors (reg : Registrator) (in_Server : string) e :
  (Query (Timed reg) = inr e ->
   Registrator_Time reg = (empty_response, Some e))
  /\ (ntp_NewNTPClient in_Server = inr e ->
      Registrator_TimeCheck reg in_Server = (empty_response, Some e))
  /\ (forall tc,
        ntp_NewNTPClient in_Server = inl tc -> Query tc = inr e ->
        Registrator_TimeCheck reg in_Server = (empty_response, Some e))
  /\ (forall tc rt,
        ntp_NewNTPClient in_Server = inl tc -> Query tc = inl rt ->
        ptypes_TimestampProto (GetTime tc) = inr e ->
        Registrator_TimeCheck reg in_Server = (empty_response, Some e))
  /\ (forall tc rt l,
        ntp_NewNTPClient in_Server = inl tc -> Query tc = inl rt ->
        ptypes_TimestampProto (GetTime tc) = inl l ->
        ptypes_TimestampProto rt = inr e ->
        Registrator_TimeCheck reg in_Server = (empty_response, Some e))
  /\ (forall err,
        snd (Registrator_TimeCheck reg in_Server) = Some err ->
        fst (Registrator_TimeCheck reg in_Server) = empty_response)
  /\ (forall err,
        snd (Registrator_Time reg) = Some err ->
        fst (Registrator_Time reg) = empty_response).
Proof.
  unfold Registrator_Time, Registrator_TimeCheck, genProtobufTimeResponse.
  repeat split.
  - intros ->. reflexivity.
  - intros ->. reflexivity.
  - intros tc -> ->. reflexivity.
  - intros tc rt -> -> ->. reflexivity.
  - intros tc rt l -> -> -> ->. reflexivity.
  - intros err.
    destruct (ntp_NewNTPClient in_Server) as [tc|?]; [|reflexivity].
    destruct (Query tc) as [rt|?]; [|reflexivity].
    destruct (ptypes_TimestampProto (GetTime tc)); [|reflexivity].
    destruct (ptypes_TimestampProto rt); [discriminate|reflexivity].
  - intros err.
    destruct (Query (Timed reg)) as [rt|?]; [|reflexivity].
    destruct (ptypes_TimestampProto (GetTime (Timed reg))); [|reflexivity].
    destruct (ptypes_TimestampProto rt); [discriminate|reflexivity].
Qed.

End TimeServiceProperties.

(** ** The further theorems at concrete inputs *)

Lemma phases_fails_exactly_witness :
  carries_UpgradePayload (@nil_data unit unit) = false
  /\ phases (ctl free_machine) SequenceUpgrade nil_data
     = ([], Some ErrInvalidSequenceData).
Proof.
  split; [reflexivity|].
  apply (proj1 (proj2 (phases_fails_exactly (ctl free_machine)
                         SequenceUpgrade nil_data))).
  discriminate.
Defined.

Lemma runTask_without_task_witness :
  SetupLogger_fails ("[talos] task " ++ itoa 1 ++ ":") (world free_machine)
  = ([], Some (errors_New "kmsg"))
  /\ runTask0 SetupLogger_fails 1 (succeeds "A") SequenceBoot nil_data
       free_machine
     = (Some (errors_New "kmsg"), free_machine).
Proof.
  split; [reflexivity|].
  apply (runTask_without_task SetupLogger_fails 1 (succeeds "A") SequenceBoot
           nil_data free_machine [] (Some (errors_New "kmsg")));
    [reflexivity | left; discriminate].
Defined.

Lemma runPhase_any_failure_can_win_witness :
  exists sched,
    fst (runPhase0 sched two_failures SequenceBoot nil_data free_machine)
    = Some (Errorf_task "2/2" (errors_New "y")).
Proof.
  apply (runPhase_any_failure_can_win SetupLogger_ok two_failures SequenceBoot
           nil_data free_machine 1 (fails "y")); reflexivity.
Defined.

Lemma Run_error_kinds_witness :
  fst (Run0 [] SequenceShutdown nil_data held_machine) = Some ErrLocked
  /\ r (ctl held_machine) <> None /\ semaphore (ctl held_machine) <> 0%Z.
Proof.
  split; [reflexivity|].
  destruct (Run_error_kinds Sequence_name SetupLogger_ok [] SequenceShutdown
              nil_data held_machine ErrLocked eq_refl)
    as [[H _] | [(H1 & H2 & _) | (_ & H & _)]].
  - discriminate H.
  - split; assumption.
  - discriminate H.
Defined.

Lemma shutdown_turned_away_while_locked_witness :
  r (ctl held_machine) = Some tt /\ metal tt <> ModeContainer
  /\ semaphore (ctl held_machine) <> 0%Z
  /\ ListenForEvents0 [ACPI None] [] held_machine
     = (Returns None,
        {| ctl := ctl held_machine;
           stdlog := [LogACPI; LogShutdownFailed ErrLocked];
           world := [] |}).
Proof.
  split; [reflexivity|]. split; [discriminate|]. split; [discriminate|].
  apply (shutdown_turned_away_while_locked metal Sequence_name SetupLogger_ok
           held_machine tt (ACPI None) [] []);
    [reflexivity | discriminate | discriminate | right; reflexivity].
Defined.

Lemma Unlock_has_no_owner_witness :
  r (ctl held_machine) = Some tt /\ semaphore (ctl held_machine) = 1%Z
  /\ Run_steps0 2 shutdown_call AtEntry (snd (Unlock held_machine))
     = (AtPhases, held_machine).
Proof.
  split; [reflexivity|]. split; [reflexivity|].
  apply (Unlock_has_no_owner Sequence_name SetupLogger_ok shutdown_call
           held_machine tt); reflexivity.
Defined.

Lemma crowd_single_flight_witness :
  r (ctl quiet_machine) = Some tt /\ semaphore (ctl quiet_machine) = 0%Z
  /\ holders (fst (crowd0 [0; 1; 2; 0; 1; 2; 0; 1; 2]%nat
                     (entering [shutdown_call; shutdown_call; shutdown_call])
                     quiet_machine)) <= 1.
Proof.
  split; [reflexivity|]. split; [reflexivity|].
  apply (crowd_single_flight Sequence_name SetupLogger_ok
           [shutdown_call; shutdown_call; shutdown_call]
           [0; 1; 2; 0; 1; 2; 0; 1; 2]%nat quiet_machine tt); reflexivity.
Defined.

Lemma waitForUSBDelay_waits_decimal_witness :
  os_Stat host_five delay_use = None
  /\ ioutil_ReadFile host_five delay_use
     = inl (itoa 5 ++ String "010" EmptyString)%string
  /\ (Z.of_nat 5 <= 9223372036)%Z
  /\ slept (snd (waitForUSBDelay host_five)) = 5000000000%Z.
Proof.
  split; [reflexivity|]. split; [reflexivity|]. split; [discriminate|].
  rewrite (waitForUSBDelay_waits_decimal host_five 5 true);
    [reflexivity | reflexivity | reflexivity | discriminate].
Defined.

Lemma waitForUSBDelay_fails_cleanly_witness :
  waitForUSBDelay host_without_file = (None, host_without_file)
  /\ fst (waitForUSBDelay host_two_newlines)
     = Some (NumError "Atoi" (String "5" (String "010" EmptyString)) ErrSyntax)
  /\ snd (waitForUSBDelay host_two_newlines) = host_two_newlines.
Proof.
  split; [|split; [reflexivity|]].
  - apply (proj1 (waitForUSBDelay_fails_cleanly host_without_file)
             (PathError "stat" delay_use ENOENT)); reflexivity.
  - apply (proj2 (waitForUSBDelay_fails_cleanly host_two_newlines)
             (NumError "Atoi" (String "5" (String "010" EmptyString))
                ErrSyntax)).
    reflexivity.
Defined.

Lemma waitForUSBDelay_sleep_bounds_witness :
  os_Stat host_five delay_use = None
  /\ Atoi (TrimSuffix_newline (String "5" (String "010" EmptyString)))
     = inl 5%Z
  /\ hostlog (snd (waitForUSBDelay host_five)) = [LogWaitingUSB 5].
Proof.
  split; [reflexivity|]. split; [reflexivity|].
  apply (waitForUSBDelay_sleep_bounds host_five
           (String "5" (String "010" EmptyString)) 5); reflexivity.
Defined.

Lemma NewController_one_of_two_witness :
  fst (fst (NewController0 (Some "machine: {}") host_five))
  <> None
  /\ (fst (fst (NewController0 (Some "machine: {}") host_five)) = None
      <-> snd (fst (NewController0 (Some "machine: {}") host_five)) <> None).
Proof.
  split; [discriminate|].
  apply (proj1 (NewController_one_of_two NewState0 parser0 NewRuntime0
                  (sequencer_with quiet_plan) (Some "machine: {}")
                  host_five)).
Defined.

Lemma NewController_errors_witness :
  NewState0 (snd (waitForUSBDelay host_five)) = inl tt
  /\ parser0 "" = inr (host_errors_New "empty config")
  /\ fst (NewController0 (Some "") host_five)
     = (None, Some (Errorf_config (host_errors_New "empty config"))).
Proof.
  split; [reflexivity|]. split; [reflexivity|].
  apply (proj2 (proj1 (proj2 (NewController_errors NewState0 parser0
                                NewRuntime0 (sequencer_with quiet_plan)
                                (Some "") host_five)) eq_refl)
           tt "" (host_errors_New "empty config")); reflexivity.
Defined.

Lemma NewController_ready_to_Run_witness :
  fst (fst (NewController0 None host_without_file))
  = Some (ctl quiet_machine)
  /\ fst (Run0 [] SequenceShutdown nil_data quiet_machine)
     <> Some ErrUndefinedRuntime.
Proof.
  split; [reflexivity|].
  apply (NewController_ready_to_Run NewState0 parser0 NewRuntime0
           (sequencer_with quiet_plan) Sequence_name SetupLogger_ok
           None host_without_file (ctl quiet_machine) quiet_machine
           [] SequenceShutdown nil_data);
    [discriminate | reflexivity | reflexivity].
Defined.

Lemma time_service_reply_witness :
  snd (TimeCheck0 {| Timed := pool_client |} "time.example") = None
  /\ exists tc rt l rm,
       NewNTPClient0 "time.example" = inl tc
       /\ Query tc = inl rt
       /\ TimestampProto0 (GetTime tc) = inl l
       /\ TimestampProto0 rt = inl rm
       /\ Messages (fst (TimeCheck0 {| Timed := pool_client |} "time.example"))
          = [{| Server := "time.example"; Localtime := l; Remotetime := rm |}].
Proof.
  split; [reflexivity|].
  apply (time_service_reply TimestampProto0 NewNTPClient0
           {| Timed := pool_client |} "time.example").
  reflexivity.
Defined.

Lemma time_service_errors_witness :
  NewNTPClient0 "" = inr (errors_New "no server")
  /\ TimeCheck0 {| Timed := pool_client |} ""
     = (empty_response, Some (errors_New "no server")).
Proof.
  split; [reflexivity|].
  apply (time_service_errors TimestampProto0 NewNTPClient0
           {| Timed := pool_client |} "" (errors_New "no server")).
  reflexivity.
Defined.

Lemma Sprintf_progress_injective_witness :
  Sprintf_progress 2 3 = Sprintf_progress (1 + 1) (2 + 1)
  /\ 2 = 1 + 1 /\ 3 = 2 + 1.
Proof.
  split; [reflexivity|].
  apply (Sprintf_progress_injective 2 3 (1 + 1) (2 + 1)). reflexivity.
Defined.
